(** * Ownership-scoped CRUD services of the password manager

    A shallow embedding of [app/models], [app/schemas], [app/services] and
    [app/routers/web.py]: the three entity tables with the constraints and
    the column widths their models declare, the SQLAlchemy session the
    services drive (unit of work, commit, rollback, refresh), the service
    methods and the handlers of the web router, written in a small
    state-and-exception monad so that each reads like its Python source. *)

From Stdlib Require Import List Ascii String NArith Bool Lia.
Import ListNotations.
Open Scope string_scope.
Open Scope N_scope.
Open Scope list_scope.

(** ** Identifiers *)

(** [UUID(as_uuid=True)] columns: a 128-bit value; only equality is used. *)
Definition UUID := N.

Definition opt_eqb {A} (eqb : A -> A -> bool) (x y : option A) : bool :=
  match x, y with
  | Some a, Some b => eqb a b
  | None, None => true
  | _, _ => false
  end.

(** ** Declarations shared by the models *)

(** [relationship(..., cascade=...)]: the ORM-level rule for the children of
    an object passed to [Session.delete].  Without [delete] in the cascade
    the ORM clears the children's foreign key; with it the children are
    deleted too. *)
Inductive Cascade := SaveUpdateMerge | AllDeleteOrphan.

Definition cascades_delete (c : Cascade) : bool :=
  match c with
  | AllDeleteOrphan => true
  | SaveUpdateMerge => false
  end.

(** [ForeignKey(..., ondelete=...)]: the database-level rule for rows that
    still reference a parent row when it is deleted. *)
Inductive OnDelete := CASCADE | SET_NULL.

(** ** app/models *)

Module User.
Record t := mk {
  user_id : UUID;              (* primary key, default=uuid.uuid4 *)
  username : string;           (* unique=True, nullable=False *)
  password_hash : string       (* nullable=False *)
}.
Definition folders : Cascade := AllDeleteOrphan.
Definition password_entries : Cascade := AllDeleteOrphan.
End User.

Module Folder.
Record t := mk {
  folder_id : UUID;            (* primary key, default=uuid.uuid4 *)
  user_id : UUID;              (* ForeignKey users.user_id, nullable=False *)
  name : string                (* nullable=False *)
}.
Definition user_id_ondelete : OnDelete := CASCADE.
Definition password_entries : Cascade := AllDeleteOrphan.
End Folder.

Module PasswordEntry.
(** [name] is an attribute that [setattr] can set to [None]; the column's
    [nullable=False] is checked when the row is written. *)
Record t := mk {
  entry_id : UUID;             (* primary key, default=uuid.uuid4 *)
  user_id : UUID;              (* ForeignKey users.user_id, nullable=False *)
  folder_id : option UUID;     (* ForeignKey folders.folder_id, nullable=True *)
  name : option string;        (* nullable=False *)
  username : option string;
  password : option string;
  website_url : option string;
  notes : option string
}.
Definition user_id_ondelete : OnDelete := CASCADE.
Definition folder_id_ondelete : OnDelete := SET_NULL.
End PasswordEntry.

(** ** app/schemas *)

Module UserCreate.
Record t := mk { username : string; password : string }.
End UserCreate.

Module FolderCreate.
Record t := mk { name : string }.
End FolderCreate.

Module FolderUpdate.
Record t := mk { name : string }.
End FolderUpdate.

Module PasswordEntryCreate.
Record t := mk {
  name : string;
  username : option string;
  password : option string;
  website_url : option string;
  notes : option string;
  folder_id : option UUID
}.
End PasswordEntryCreate.

(** A pydantic field of [PasswordEntryUpdate]: either never set (it keeps its
    default and is left out of [model_fields_set]) or explicitly set, possibly
    to [None]. *)
Inductive Field (A : Type) :=
| Unset
| Set_ (v : option A).
Arguments Unset {A}.
Arguments Set_ {A} v.

(** One item of the dict returned by [model_dump]: the field and its value. *)
Inductive Item :=
| name_ (v : option string)
| username_ (v : option string)
| password_ (v : option string)
| website_url_ (v : option string)
| notes_ (v : option string)
| folder_id_ (v : option UUID).

Module PasswordEntryUpdate.
Record t := mk {
  name : Field string;
  username : Field string;
  password : Field string;
  website_url : Field string;
  notes : Field string;
  folder_id : Field UUID
}.

Definition dump {A} (item : option A -> Item) (f : Field A) : list Item :=
  match f with
  | Unset => []
  | Set_ v => [item v]
  end.

(** [model_dump(exclude_unset=True)]: the explicitly set fields, in
    declaration order. *)
Definition model_dump_exclude_unset (p : t) : list Item :=
  dump name_ (name p) ++ dump username_ (username p) ++
  dump password_ (password p) ++ dump website_url_ (website_url p) ++
  dump notes_ (notes p) ++ dump folder_id_ (folder_id p).

(** The payload in which no field was set: [PasswordEntryUpdate()]. *)
Definition empty : t := mk Unset Unset Unset Unset Unset Unset.
End PasswordEntryUpdate.

(** [setattr(db_entry, field, value)] *)
Definition setattr (e : PasswordEntry.t) (i : Item) : PasswordEntry.t :=
  let '(PasswordEntry.mk eid uid fid n u p w t) := e in
  match i with
  | name_ v => PasswordEntry.mk eid uid fid v u p w t
  | username_ v => PasswordEntry.mk eid uid fid n v p w t
  | password_ v => PasswordEntry.mk eid uid fid n u v w t
  | website_url_ v => PasswordEntry.mk eid uid fid n u p v t
  | notes_ v => PasswordEntry.mk eid uid fid n u p w v
  | folder_id_ v => PasswordEntry.mk eid uid v n u p w t
  end.

(** ** The database *)

(** The three tables, rows in insertion order. *)
Record Database := mkDatabase {
  users : list User.t;
  folders : list Folder.t;
  password_entries : list PasswordEntry.t
}.

Definition user_eq_dec (a b : User.t) : {a = b} + {a <> b}.
Proof. decide equality; try apply string_dec; apply N.eq_dec. Defined.

Definition folder_eq_dec (a b : Folder.t) : {a = b} + {a <> b}.
Proof. decide equality; try apply string_dec; apply N.eq_dec. Defined.

Definition entry_eq_dec (a b : PasswordEntry.t) : {a = b} + {a <> b}.
Proof.
  decide equality;
    try (decide equality; try apply string_dec; apply N.eq_dec);
    apply N.eq_dec.
Defined.

Definition has_user (id : UUID) (d : Database) : bool :=
  existsb (fun u => User.user_id u =? id) (users d).

Definition has_folder (id : UUID) (d : Database) : bool :=
  existsb (fun f => Folder.folder_id f =? id) (folders d).

Definition has_entry (id : UUID) (d : Database) : bool :=
  existsb (fun e => PasswordEntry.entry_id e =? id) (password_entries d).

Definition username_taken (n : string) (d : Database) : bool :=
  existsb (fun u => String.eqb (User.username u) n) (users d).

Fixpoint distinct (ids : list UUID) : bool :=
  match ids with
  | [] => true
  | i :: rest => negb (existsb (N.eqb i) rest) && distinct rest
  end.

(** The primary-key constraints: no two rows of a table share their key. *)
Definition pk_unique (d : Database) : bool :=
  distinct (map User.user_id (users d)) &&
  distinct (map Folder.folder_id (folders d)) &&
  distinct (map PasswordEntry.entry_id (password_entries d)).

(** ** Errors *)

Inductive Violation := UniqueViolation | NotNullViolation | ForeignKeyViolation.

(** The subclasses of [sqlalchemy.exc.SQLAlchemyError] the model raises. *)
Inductive SQLAlchemyError :=
| IntegrityError (v : Violation)   (* a declared constraint rejected a row *)
| DataError                        (* a text is too long for its String(n) column *)
| OperationalError (msg : string)  (* the engine or the connection failed *)
| InvalidRequestError              (* refresh: the row is gone *)
| StaleDataError.                  (* UPDATE or DELETE matched no row *)

(** The sources of [ValueError]: the database driver, which refuses to send
    a text parameter that contains the NUL character, and, in the handlers,
    [UUID(...)] and the schemas. *)
Inductive ValueError :=
| NulInText                                (* the driver, on a text parameter *)
| BadlyFormedUUID (text : string)          (* UUID(folder_id) *)
| ValidationError (fields : list string).  (* a schema refused these fields *)

(** The [detail] of an [HTTPException]. *)
Inductive Detail :=
| Message (text : string)
| DatabaseError (e : SQLAlchemyError)      (* f"Database error: {str(e)}" *)
| OfValueError (v : ValueError).           (* str(e) *)

(** What service and handler code can raise. *)
Inductive Exception :=
| Sql (e : SQLAlchemyError)
| Val (v : ValueError)
| HTTPException (status_code : N) (detail : Detail).

Inductive outcome (A : Type) :=
| Ok (a : A)
| Raise (x : Exception).
Arguments Ok {A} a.
Arguments Raise {A} x.


(** ** Text parameters and the width of the columns *)

(** The text contains the NUL character. *)
Definition has_nul (s : string) : bool :=
  existsb (Ascii.eqb Ascii.zero) (list_ascii_of_string s).

Definition nul_in (s : option string) : bool :=
  match s with
  | Some s => has_nul s
  | None => false
  end.

Definition longer_than (max_length : nat) (s : option string) : bool :=
  match s with
  | Some s => Nat.ltb max_length (String.length s)
  | None => false
  end.

(** A text column in a statement: the width [String(n)] declares ([None]
    for [Text]) and the value bound to it. *)
Definition too_wide (column : option nat * option string) : bool :=
  match fst column with
  | Some width => longer_than width (snd column)
  | None => false
  end.

(** What stops a statement with these text columns before any constraint is
    looked at: the driver raises [ValueError] for a NUL in a parameter, the
    database [DataError] for a value wider than its column. *)
Definition check_text (columns : list (option nat * option string)) : option Exception :=
  if existsb (fun column => nul_in (snd column)) columns then Some (Val NulInText)
  else if existsb too_wide columns then Some (Sql DataError)
  else None.

Definition user_columns (u : User.t) : list (option nat * option string) :=
  [(Some 50%nat, Some (User.username u)); (Some 255%nat, Some (User.password_hash u))].

Definition folder_columns (f : Folder.t) : list (option nat * option string) :=
  [(Some 100%nat, Some (Folder.name f))].

Definition entry_columns (e : PasswordEntry.t) : list (option nat * option string) :=
  [(Some 100%nat, PasswordEntry.name e); (Some 100%nat, PasswordEntry.username e);
   (None, PasswordEntry.password e); (Some 500%nat, PasswordEntry.website_url e);
   (None, PasswordEntry.notes e)].

(** The columns an UPDATE sets: those whose value is not the stored one. *)
Definition changed_columns (old new : list (option nat * option string))
  : list (option nat * option string) :=
  map snd
    (filter (fun pair => negb (opt_eqb String.eqb (snd (fst pair)) (snd (snd pair))))
       (combine old new)).

(** ** Writing rows: what the database checks *)

(** INSERT INTO users.  After the text of the row, the constraints in the
    order the engine checks them: the primary key and the [unique=True]
    index on [username]. *)
Definition insert_user (u : User.t) (d : Database) : outcome Database :=
  match check_text (user_columns u) with
  | Some x => Raise x
  | None =>
    if has_user (User.user_id u) d then Raise (Sql (IntegrityError UniqueViolation))
    else if username_taken (User.username u) d then Raise (Sql (IntegrityError UniqueViolation))
    else Ok (mkDatabase (users d ++ [u]) (folders d) (password_entries d))
  end.

(** INSERT INTO folders: the text, the primary key, then the foreign key to
    users. *)
Definition insert_folder (f : Folder.t) (d : Database) : outcome Database :=
  match check_text (folder_columns f) with
  | Some x => Raise x
  | None =>
    if has_folder (Folder.folder_id f) d then Raise (Sql (IntegrityError UniqueViolation))
    else if negb (has_user (Folder.user_id f) d)
    then Raise (Sql (IntegrityError ForeignKeyViolation))
    else Ok (mkDatabase (users d) (folders d ++ [f]) (password_entries d))
  end.

(** The foreign key of [password_entries.folder_id]; NULL references nothing. *)
Definition folder_ref_ok (fid : option UUID) (d : Database) : bool :=
  match fid with
  | None => true
  | Some id => has_folder id d
  end.

(** INSERT INTO password_entries: the text, NOT NULL on [name], primary
    key, then the two foreign keys. *)
Definition insert_entry (e : PasswordEntry.t) (d : Database) : outcome Database :=
  match check_text (entry_columns e) with
  | Some x => Raise x
  | None =>
    match PasswordEntry.name e with
    | None => Raise (Sql (IntegrityError NotNullViolation))
    | Some _ =>
      if has_entry (PasswordEntry.entry_id e) d
      then Raise (Sql (IntegrityError UniqueViolation))
      else if negb (has_user (PasswordEntry.user_id e) d)
      then Raise (Sql (IntegrityError ForeignKeyViolation))
      else if negb (folder_ref_ok (PasswordEntry.folder_id e) d)
      then Raise (Sql (IntegrityError ForeignKeyViolation))
      else Ok (mkDatabase (users d) (folders d) (password_entries d ++ [e]))
    end
  end.

Definition find_user (id : UUID) (d : Database) : option User.t :=
  find (fun u => User.user_id u =? id) (users d).

Definition find_folder (id : UUID) (d : Database) : option Folder.t :=
  find (fun f => Folder.folder_id f =? id) (folders d).

Definition find_entry (id : UUID) (d : Database) : option PasswordEntry.t :=
  find (fun e => PasswordEntry.entry_id e =? id) (password_entries d).

(** UPDATE folders ... WHERE folder_id = pk.  The ORM emits no statement for
    an object whose attributes have no net change; otherwise the text of
    the changed columns is checked first. *)
Definition update_folder_row (f : Folder.t) (d : Database) : outcome Database :=
  match find_folder (Folder.folder_id f) d with
  | None => Raise (Sql StaleDataError)
  | Some old =>
    if folder_eq_dec old f then Ok d
    else match check_text (changed_columns (folder_columns old) (folder_columns f)) with
    | Some x => Raise x
    | None =>
      if negb (Folder.user_id old =? Folder.user_id f) && negb (has_user (Folder.user_id f) d)
      then Raise (Sql (IntegrityError ForeignKeyViolation))
      else Ok (mkDatabase (users d)
                 (map (fun g => if Folder.folder_id g =? Folder.folder_id f then f else g)
                    (folders d))
                 (password_entries d))
    end
  end.

(** UPDATE password_entries ... WHERE entry_id = pk: the text of the changed
    columns, then NOT NULL on the new row, then a foreign key when its
    column changed. *)
Definition update_entry_row (e : PasswordEntry.t) (d : Database) : outcome Database :=
  match find_entry (PasswordEntry.entry_id e) d with
  | None => Raise (Sql StaleDataError)
  | Some old =>
    if entry_eq_dec old e then Ok d
    else match check_text (changed_columns (entry_columns old) (entry_columns e)) with
    | Some x => Raise x
    | None =>
      match PasswordEntry.name e with
      | None => Raise (Sql (IntegrityError NotNullViolation))
      | Some _ =>
        if negb (PasswordEntry.user_id old =? PasswordEntry.user_id e)
           && negb (has_user (PasswordEntry.user_id e) d)
        then Raise (Sql (IntegrityError ForeignKeyViolation))
        else if negb (opt_eqb N.eqb (PasswordEntry.folder_id old) (PasswordEntry.folder_id e))
                && negb (folder_ref_ok (PasswordEntry.folder_id e) d)
        then Raise (Sql (IntegrityError ForeignKeyViolation))
        else Ok (mkDatabase (users d) (folders d)
                   (map (fun g => if PasswordEntry.entry_id g =? PasswordEntry.entry_id e
                                  then e else g)
                      (password_entries d)))
      end
    end
  end.

(** ** Deleting rows: ORM cascades, then the foreign keys' ondelete *)

Definition in_folder (fid : UUID) (e : PasswordEntry.t) : bool :=
  opt_eqb N.eqb (PasswordEntry.folder_id e) (Some fid).

Definition clear_folder (e : PasswordEntry.t) : PasswordEntry.t :=
  setattr e (folder_id_ None).

(** What [Session.delete(folder)] does to the folder's [password_entries]
    collection before the folder's own DELETE. *)
Definition orm_cascade_entries (c : Cascade) (fid : UUID)
    (es : list PasswordEntry.t) : list PasswordEntry.t :=
  if cascades_delete c
  then filter (fun e => negb (in_folder fid e)) es
  else map (fun e => if in_folder fid e then clear_folder e else e) es.

(** What the database does to rows still referencing a deleted folder. *)
Definition fk_ondelete_entries (o : OnDelete) (fid : UUID)
    (es : list PasswordEntry.t) : list PasswordEntry.t :=
  match o with
  | CASCADE => filter (fun e => negb (in_folder fid e)) es
  | SET_NULL => map (fun e => if in_folder fid e then clear_folder e else e) es
  end.

Definition drop_folder (c : Cascade) (fid : UUID) (d : Database) : Database :=
  let es := orm_cascade_entries c fid (password_entries d) in
  let es := fk_ondelete_entries PasswordEntry.folder_id_ondelete fid es in
  mkDatabase (users d)
    (filter (fun g => negb (Folder.folder_id g =? fid)) (folders d))
    es.

(** Flushing a deleted folder under relationship cascade [c]. *)
Definition delete_folder_row_with (c : Cascade) (f : Folder.t) (d : Database) : outcome Database :=
  if has_folder (Folder.folder_id f) d
  then Ok (drop_folder c (Folder.folder_id f) d)
  else Raise (Sql StaleDataError).

Definition delete_folder_row : Folder.t -> Database -> outcome Database :=
  delete_folder_row_with Folder.password_entries.

Definition delete_entry_row (e : PasswordEntry.t) (d : Database) : outcome Database :=
  if has_entry (PasswordEntry.entry_id e) d
  then Ok (mkDatabase (users d) (folders d)
             (filter (fun g => negb (PasswordEntry.entry_id g =? PasswordEntry.entry_id e))
                (password_entries d)))
  else Raise (Sql StaleDataError).

(** Flushing a deleted user.  [User.folders] and [User.password_entries]
    both cascade the delete: each folder of the user is deleted as by
    [Session.delete] (so with its own cascade), the user's entries are
    deleted, then the user row; the CASCADE foreign keys find nothing left. *)
Definition delete_user_row (u : User.t) (d : Database) : outcome Database :=
  let uid := User.user_id u in
  if has_user uid d then
    let owned := filter (fun f => Folder.user_id f =? uid) (folders d) in
    let d1 := fold_left (fun acc f => drop_folder Folder.password_entries (Folder.folder_id f) acc)
                owned d in
    Ok (mkDatabase
          (filter (fun v => negb (User.user_id v =? uid)) (users d1))
          (filter (fun f => negb (Folder.user_id f =? uid)) (folders d1))
          (filter (fun e => negb (PasswordEntry.user_id e =? uid)) (password_entries d1)))
  else Raise (Sql StaleDataError).

(** ** The session *)

Inductive Instance :=
| IUser (u : User.t)
| IFolder (f : Folder.t)
| IEntry (e : PasswordEntry.t).

(** The unit of work: objects added, modified or marked deleted since the
    last commit. *)
Inductive Pending :=
| New (o : Instance)
| Dirty (o : Instance)
| Deleted (o : Instance).

Definition flush_one (p : Pending) (d : Database) : outcome Database :=
  match p with
  | New (IUser u) => insert_user u d
  | New (IFolder f) => insert_folder f d
  | New (IEntry e) => insert_entry e d
  | Dirty (IUser _) => Ok d
  | Dirty (IFolder f) => update_folder_row f d
  | Dirty (IEntry e) => update_entry_row e d
  | Deleted (IUser u) => delete_user_row u d
  | Deleted (IFolder f) => delete_folder_row f d
  | Deleted (IEntry e) => delete_entry_row e d
  end.

Fixpoint flush (ps : list Pending) (d : Database) : outcome Database :=
  match ps with
  | [] => Ok d
  | p :: ps' =>
    match flush_one p d with
    | Ok d' => flush ps' d'
    | Raise x => Raise x
    end
  end.

(** The round trips a service makes to the database. *)
Inductive Call := Query | Commit | Refresh.

Inductive Event :=
| Returned (c : Call)
| Failed (c : Call) (x : Exception)
| RolledBack.

(** A session bound to a database.  [stored] is the committed state;
    [faults] is what the engine will answer to the coming round trips
    ([Some e]: it fails with [e]; [None], or nothing scheduled: it works);
    [log] records the round trips made so far. *)
Record Session := mkSession {
  stored : Database;
  unit_of_work : list Pending;
  faults : list (option SQLAlchemyError);
  log : list Event
}.

(** A fresh session on database [d] with a working engine. *)
Definition open (d : Database) : Session := mkSession d [] [] [].

(** A fresh session whose engine follows the fault schedule [fs]. *)
Definition open_with (fs : list (option SQLAlchemyError)) (d : Database) : Session :=
  mkSession d [] fs [].

(** ** The monad of service code: session state and exceptions *)

Definition M (A : Type) : Type := Session -> outcome A * Session.

Definition ret {A} (a : A) : M A := fun s => (Ok a, s).

Definition bind {A B} (m : M A) (k : A -> M B) : M B :=
  fun s =>
    match m s with
    | (Ok a, s') => k a s'
    | (Raise x, s') => (Raise x, s')
    end.

Definition raise {A} (e : SQLAlchemyError) : M A := fun s => (Raise (Sql e), s).

(** [try: body / except SQLAlchemyError as e: handler e].  The clause
    matches no other exception: a [ValueError] leaves the [try] as it is,
    and the handler does not run. *)
Definition try_except {A} (body : M A) (handler : SQLAlchemyError -> M A) : M A :=
  fun s =>
    match body s with
    | (Ok a, s') => (Ok a, s')
    | (Raise (Sql e), s') => handler e s'
    | (Raise x, s') => (Raise x, s')
    end.

Declare Scope service_scope.
Delimit Scope service_scope with service.
Notation "x <- m ;; k" := (bind m (fun x => k))
  (at level 100, m at next level, right associativity) : service_scope.
Notation "m ;; k" := (bind m (fun _ => k))
  (at level 100, right associativity) : service_scope.
Open Scope service_scope.

Definition emit (ev : Event) : M unit :=
  fun s => (Ok tt, mkSession (stored s) (unit_of_work s) (faults s) (log s ++ [ev])).

(** What the engine answers to the next round trip. *)
Definition next_fault (fs : list (option SQLAlchemyError)) : option SQLAlchemyError :=
  match fs with
  | Some e :: _ => Some e
  | _ => None
  end.

(** One round trip: the engine answers with the next scheduled fault. *)
Definition engine (c : Call) : M unit :=
  fun s =>
    match next_fault (faults s) with
    | Some e =>
      (Raise (Sql e),
       mkSession (stored s) (unit_of_work s) (tl (faults s)) (log s ++ [Failed c (Sql e)]))
    | None => (Ok tt, mkSession (stored s) (unit_of_work s) (tl (faults s)) (log s))
    end.

(** The driver refuses to send a statement with a NUL in a text parameter:
    [ValueError], which is no [SQLAlchemyError]. *)
Definition refused {A} (c : Call) : M A :=
  fun s =>
    (Raise (Val NulInText),
     mkSession (stored s) (unit_of_work s) (faults s) (log s ++ [Failed c (Val NulInText)])).

(** [db.query(T).filter(p).first()] *)
Definition query_first {R} (table : Database -> list R) (p : R -> bool) : M (option R) :=
  engine Query ;;
  emit (Returned Query) ;;
  fun s => (Ok (hd_error (filter p (table (stored s)))), s).

(** [db.query(T).filter(p).all()] *)
Definition query_all {R} (table : Database -> list R) (p : R -> bool) : M (list R) :=
  engine Query ;;
  emit (Returned Query) ;;
  fun s => (Ok (filter p (table (stored s))), s).

Definition register (p : Pending) : M unit :=
  fun s => (Ok tt, mkSession (stored s) (unit_of_work s ++ [p]) (faults s) (log s)).

(** [db.add(obj)] *)
Definition db_add (o : Instance) : M unit := register (New o).

(** [db.delete(obj)] *)
Definition db_delete (o : Instance) : M unit := register (Deleted o).

(** An attribute assignment on a loaded object marks it dirty. *)
Definition db_modified (o : Instance) : M unit := register (Dirty o).

(** [db.commit()]: flush the unit of work and commit; all of it or nothing
    reaches [stored].  What stops the flush is raised as it is: a
    [SQLAlchemyError] of the database, or the [ValueError] of the driver. *)
Definition db_commit : M unit :=
  engine Commit ;;
  fun s =>
    match flush (unit_of_work s) (stored s) with
    | Ok d' => (Ok tt, mkSession d' [] (faults s) (log s ++ [Returned Commit]))
    | Raise x =>
      (Raise x, mkSession (stored s) (unit_of_work s) (faults s) (log s ++ [Failed Commit x]))
    end.

(** [db.rollback()]: drop what was not committed. *)
Definition db_rollback : M unit :=
  fun s => (Ok tt, mkSession (stored s) [] (faults s) (log s ++ [RolledBack])).

(** [db.refresh(obj)]: reload the object's row by primary key. *)
Definition db_refresh {R} (lookup : Database -> option R) : M R :=
  engine Refresh ;;
  fun s =>
    match lookup (stored s) with
    | Some row => (Ok row, mkSession (stored s) (unit_of_work s) (faults s) (log s ++ [Returned Refresh]))
    | None =>
      (Raise (Sql InvalidRequestError),
       mkSession (stored s) (unit_of_work s) (faults s)
         (log s ++ [Failed Refresh (Sql InvalidRequestError)]))
    end.

(** The handler every mutating method installs:
    [except SQLAlchemyError as e: self.db.rollback(); raise e]. *)
Definition rollback_and_reraise {A} (e : SQLAlchemyError) : M A :=
  db_rollback ;; raise e.

(** ** app/services/user_service.py *)

Definition get_user_by_id (user_id : UUID) : M (option User.t) :=
  query_first users (fun u => User.user_id u =? user_id).

(** The username is a text parameter of the query. *)
Definition get_user_by_username (username : string) : M (option User.t) :=
  if has_nul username then engine Query ;; refused Query
  else query_first users (fun u => String.eqb (User.username u) username).

(** [new_id] is the value [uuid.uuid4] draws for the primary key. *)
Definition create_user (new_id : UUID) (user_data : UserCreate.t) : M User.t :=
  try_except
    (let db_user := User.mk new_id (UserCreate.username user_data)
                            (UserCreate.password user_data) in
     db_add (IUser db_user) ;;
     db_commit ;;
     db_refresh (find_user (User.user_id db_user)))
    rollback_and_reraise.

Definition delete_user (user_id : UUID) : M bool :=
  try_except
    (db_user <- get_user_by_id user_id ;;
     match db_user with
     | None => ret false
     | Some db_user =>
       db_delete (IUser db_user) ;;
       db_commit ;;
       ret true
     end)
    rollback_and_reraise.

(** ** app/services/folder_service.py *)

Definition create_folder (new_id : UUID) (user_id : UUID) (folder_data : FolderCreate.t)
  : M Folder.t :=
  try_except
    (let db_folder := Folder.mk new_id user_id (FolderCreate.name folder_data) in
     db_add (IFolder db_folder) ;;
     db_commit ;;
     db_refresh (find_folder (Folder.folder_id db_folder)))
    rollback_and_reraise.

Definition get_folder_by_id (folder_id user_id : UUID) : M (option Folder.t) :=
  query_first folders
    (fun f => (Folder.folder_id f =? folder_id) && (Folder.user_id f =? user_id)).

Definition get_all_folders_for_user (user_id : UUID) : M (list Folder.t) :=
  query_all folders (fun f => Folder.user_id f =? user_id).

Definition update_folder (folder_id user_id : UUID) (folder_data : FolderUpdate.t)
  : M (option Folder.t) :=
  try_except
    (db_folder <- get_folder_by_id folder_id user_id ;;
     match db_folder with
     | None => ret None
     | Some db_folder =>
       let db_folder := Folder.mk (Folder.folder_id db_folder) (Folder.user_id db_folder)
                                  (FolderUpdate.name folder_data) in
       db_modified (IFolder db_folder) ;;
       db_commit ;;
       db_folder <- db_refresh (find_folder (Folder.folder_id db_folder)) ;;
       ret (Some db_folder)
     end)
    rollback_and_reraise.

Definition delete_folder (folder_id user_id : UUID) : M bool :=
  try_except
    (db_folder <- get_folder_by_id folder_id user_id ;;
     match db_folder with
     | None => ret false
     | Some db_folder =>
       db_delete (IFolder db_folder) ;;
       db_commit ;;
       ret true
     end)
    rollback_and_reraise.

(** ** app/services/password_entry_service.py *)

Definition create_entry (new_id : UUID) (user_id : UUID) (entry_data : PasswordEntryCreate.t)
  : M PasswordEntry.t :=
  try_except
    (let db_entry :=
       PasswordEntry.mk new_id user_id
         (PasswordEntryCreate.folder_id entry_data)
         (Some (PasswordEntryCreate.name entry_data))
         (PasswordEntryCreate.username entry_data)
         (PasswordEntryCreate.password entry_data)
         (PasswordEntryCreate.website_url entry_data)
         (PasswordEntryCreate.notes entry_data) in
     db_add (IEntry db_entry) ;;
     db_commit ;;
     db_refresh (find_entry (PasswordEntry.entry_id db_entry)))
    rollback_and_reraise.

Definition get_entry_by_id (entry_id user_id : UUID) : M (option PasswordEntry.t) :=
  query_first password_entries
    (fun e => (PasswordEntry.entry_id e =? entry_id) && (PasswordEntry.user_id e =? user_id)).

Definition get_all_entries_for_user (user_id : UUID) (folder_id : option UUID)
  : M (list PasswordEntry.t) :=
  let query := fun e => PasswordEntry.user_id e =? user_id in
  let query :=
    match folder_id with
    | Some folder_id =>
      fun e => query e && opt_eqb N.eqb (PasswordEntry.folder_id e) (Some folder_id)
    | None => query
    end in
  query_all password_entries query.

Definition update_entry (entry_id user_id : UUID) (entry_data : PasswordEntryUpdate.t)
  : M (option PasswordEntry.t) :=
  try_except
    (db_entry <- get_entry_by_id entry_id user_id ;;
     match db_entry with
     | None => ret None
     | Some db_entry =>
       let update_data := PasswordEntryUpdate.model_dump_exclude_unset entry_data in
       let db_entry := fold_left setattr update_data db_entry in
       db_modified (IEntry db_entry) ;;
       db_commit ;;
       db_entry <- db_refresh (find_entry (PasswordEntry.entry_id db_entry)) ;;
       ret (Some db_entry)
     end)
    rollback_and_reraise.

Definition delete_entry (entry_id user_id : UUID) : M bool :=
  try_except
    (db_entry <- get_entry_by_id entry_id user_id ;;
     match db_entry with
     | None => ret false
     | Some db_entry =>
       db_delete (IEntry db_entry) ;;
       db_commit ;;
       ret true
     end)
    rollback_and_reraise.


(** ** The mutating operations as one type *)

Inductive Mutation :=
| CreateUser (new_id : UUID) (user_data : UserCreate.t)
| DeleteUser (user_id : UUID)
| CreateFolder (new_id user_id : UUID) (folder_data : FolderCreate.t)
| UpdateFolder (folder_id user_id : UUID) (folder_data : FolderUpdate.t)
| DeleteFolder (folder_id user_id : UUID)
| CreateEntry (new_id user_id : UUID) (entry_data : PasswordEntryCreate.t)
| UpdateEntry (entry_id user_id : UUID) (entry_data : PasswordEntryUpdate.t)
| DeleteEntry (entry_id user_id : UUID).

(** What a caller gets back from a mutation. *)
Inductive Reply :=
| AUser (u : User.t)
| AFolder (f : option Folder.t)
| AnEntry (e : option PasswordEntry.t)
| Found (b : bool).

Definition perform (m : Mutation) : M Reply :=
  match m with
  | CreateUser i x => u <- create_user i x ;; ret (AUser u)
  | DeleteUser i => b <- delete_user i ;; ret (Found b)
  | CreateFolder i u x => f <- create_folder i u x ;; ret (AFolder (Some f))
  | UpdateFolder i u x => f <- update_folder i u x ;; ret (AFolder f)
  | DeleteFolder i u => b <- delete_folder i u ;; ret (Found b)
  | CreateEntry i u x => e <- create_entry i u x ;; ret (AnEntry (Some e))
  | UpdateEntry i u x => e <- update_entry i u x ;; ret (AnEntry e)
  | DeleteEntry i u => b <- delete_entry i u ;; ret (Found b)
  end.

Definition is_returned (ev : Event) : bool :=
  match ev with
  | Returned _ => true
  | _ => false
  end.

(** ** Vocabulary of the statements *)

(** The value a stored attribute has after a partial update: an unset field
    keeps the old value, a set field replaces it, also by [None]. *)
Definition assigned {A} (f : Field A) (old : option A) : option A :=
  match f with
  | Unset => old
  | Set_ v => v
  end.

(** The entry [e] with exactly the set fields of payload [p] assigned. *)
Definition overlay (p : PasswordEntryUpdate.t) (e : PasswordEntry.t) : PasswordEntry.t :=
  PasswordEntry.mk
    (PasswordEntry.entry_id e)
    (PasswordEntry.user_id e)
    (assigned (PasswordEntryUpdate.folder_id p) (PasswordEntry.folder_id e))
    (assigned (PasswordEntryUpdate.name p) (PasswordEntry.name e))
    (assigned (PasswordEntryUpdate.username p) (PasswordEntry.username e))
    (assigned (PasswordEntryUpdate.password p) (PasswordEntry.password e))
    (assigned (PasswordEntryUpdate.website_url p) (PasswordEntry.website_url e))
    (assigned (PasswordEntryUpdate.notes p) (PasswordEntry.notes e)).

(** The table with the row of key [PasswordEntry.entry_id e] replaced by [e]. *)
Definition with_entry (e : PasswordEntry.t) (d : Database) : Database :=
  mkDatabase (users d) (folders d)
    (map (fun g => if PasswordEntry.entry_id g =? PasswordEntry.entry_id e then e else g)
       (password_entries d)).

Definition with_folder (f : Folder.t) (d : Database) : Database :=
  mkDatabase (users d)
    (map (fun g => if Folder.folder_id g =? Folder.folder_id f then f else g) (folders d))
    (password_entries d).

(** The text of a row can be stored: no value contains NUL and each fits
    the width of its column. *)
Definition text_ok (columns : list (option nat * option string)) : bool :=
  forallb (fun column => negb (nul_in (snd column)) && negb (too_wide column)) columns.

(** The objects the create methods build from their arguments. *)
Definition new_user (new_id : UUID) (user_data : UserCreate.t) : User.t :=
  User.mk new_id (UserCreate.username user_data) (UserCreate.password user_data).

Definition new_folder (new_id user_id : UUID) (folder_data : FolderCreate.t) : Folder.t :=
  Folder.mk new_id user_id (FolderCreate.name folder_data).

Definition new_entry (new_id user_id : UUID) (entry_data : PasswordEntryCreate.t)
  : PasswordEntry.t :=
  PasswordEntry.mk new_id user_id
    (PasswordEntryCreate.folder_id entry_data)
    (Some (PasswordEntryCreate.name entry_data))
    (PasswordEntryCreate.username entry_data)
    (PasswordEntryCreate.password entry_data)
    (PasswordEntryCreate.website_url entry_data)
    (PasswordEntryCreate.notes entry_data).

Definition owns_nothing (user_id : UUID) (d : Database) : Prop :=
  (forall f, In f (folders d) -> Folder.user_id f <> user_id) /\
  (forall e, In e (password_entries d) -> PasswordEntry.user_id e <> user_id).

(** How a service call that started in session [s] may end, seen from the
    round trips it logged.  It ended normally and every round trip
    returned.  Or it raised a [SQLAlchemyError]: exactly one round trip
    failed, with the error the caller received, the rollback followed it and
    nothing came after; a failure before the commit returned leaves [stored]
    as it was.  Or it raised the driver's [ValueError]: the commit was
    refused, [stored] is as it was, and the method called no rollback.  It
    raises nothing else. *)
Definition fails_safely {A} (s : Session) (rs : outcome A * Session) : Prop :=
  exists evs,
    log (snd rs) = log s ++ evs /\
    match fst rs with
    | Ok _ => unit_of_work (snd rs) = [] /\ forallb is_returned evs = true
    | Raise (Sql e) =>
      unit_of_work (snd rs) = [] /\
      exists c pre,
        evs = pre ++ [Failed c (Sql e); RolledBack] /\
        forallb is_returned pre = true /\
        (c <> Refresh -> stored (snd rs) = stored s) /\
        (c = Refresh -> In (Returned Commit) pre)
    | Raise (Val v) =>
      exists pre,
        evs = pre ++ [Failed Commit (Val v)] /\
        forallb is_returned pre = true /\
        stored (snd rs) = stored s
    | Raise (HTTPException _ _) => False
    end.

(** A service call reaches [stored] through at most one flushed statement. *)
Definition flushes_at_most_once {A} (s : Session) (rs : outcome A * Session) : Prop :=
  stored (snd rs) = stored s \/
  exists p d', flush_one p (stored s) = Ok d' /\ stored (snd rs) = d'.

Ltac unfold_services :=
  unfold create_user, delete_user, get_user_by_id, get_user_by_username,
    create_folder, get_folder_by_id, get_all_folders_for_user, update_folder,
    delete_folder, create_entry, get_entry_by_id, get_all_entries_for_user,
    update_entry, delete_entry.

Ltac unfold_session :=
  unfold try_except, rollback_and_reraise, query_first, query_all, db_add,
    db_delete, db_modified, register, db_commit, db_refresh, db_rollback,
    engine, refused, emit, bind, ret, raise, open, open_with.

Ltac run := unfold_services; unfold_session; simpl.

(** ** Example data: two users, a folder of the first, one entry in it and one outside *)

Module Sample.
Definition alice := User.mk 1 "alice" "correct horse".
Definition bob := User.mk 2 "bob" "battery staple".
Definition work := Folder.mk 10 1 "Work".
Definition gmail :=
  PasswordEntry.mk 100 1 (Some 10) (Some "Gmail") (Some "alice@example.com")
    (Some "hunter2") None None.
Definition bank :=
  PasswordEntry.mk 101 1 None (Some "Bank") None None None None.
Definition db : Database := mkDatabase [alice; bob] [work] [gmail; bank].

(** The same with a folder of the second user and an entry in it. *)
Definition home := Folder.mk 11 2 "Home".
Definition router :=
  PasswordEntry.mk 103 2 (Some 11) (Some "Router") None None None None.
Definition both : Database := mkDatabase [alice; bob] [work; home] [gmail; bank; router].

Definition text_with_nul : string :=
  String "a" (String Ascii.zero (String "b" EmptyString)).
End Sample.

(** ** Rows and their owners *)

(** The entry is filed in a folder that [user_id] owns. *)
Definition filed_under (user_id : UUID) (d : Database) (e : PasswordEntry.t) : bool :=
  existsb (fun f => (Folder.user_id f =? user_id) && in_folder (Folder.folder_id f) e)
    (folders d).

(** ** app/routers/web.py: exceptions and responses *)

Definition HTTP_303_SEE_OTHER : N := 303.
Definition HTTP_400_BAD_REQUEST : N := 400.
Definition HTTP_404_NOT_FOUND : N := 404.
Definition HTTP_500_INTERNAL_SERVER_ERROR : N := 500.

(** The targets of the redirects: "/", "/folders" and f"/entries/{entry_id}". *)
Inductive Url :=
| url_index
| url_folders
| url_entry (entry_id : UUID).

(** A value of a template context ("request" is left out). *)
Inductive Value :=
| VEntries (l : list PasswordEntry.t)
| VFolders (l : list Folder.t)
| VEntry (e : PasswordEntry.t)
| VFolder (f : Folder.t)
| VStr (s : option string).

(** What a handler returns; rendering the template is not modelled, only
    which template is rendered and with which context. *)
Inductive Response :=
| TemplateResponse (name : string) (context : list (string * Value))
| RedirectResponse (url : Url) (status_code : N).

Inductive result (A : Type) :=
| Return (a : A)
| Throw (x : Exception).
Arguments Return {A} a.
Arguments Throw {A} x.

(** Handler code: session state and the three kinds of exception. *)
Definition W (A : Type) : Type := Session -> result A * Session.

Definition wret {A} (a : A) : W A := fun s => (Return a, s).

Definition wbind {A B} (m : W A) (k : A -> W B) : W B :=
  fun s =>
    match m s with
    | (Return a, s') => k a s'
    | (Throw x, s') => (Throw x, s')
    end.

Definition throw {A} (x : Exception) : W A := fun s => (Throw x, s).

(** A call into a service: what it raises is the handler's. *)
Definition call {A} (m : M A) : W A :=
  fun s =>
    match m s with
    | (Ok a, s') => (Return a, s')
    | (Raise x, s') => (Throw x, s')
    end.

(** [try: body] with its [except] clauses: [clauses x] is the body of the
    clause that matches [x], if one does. *)
Definition try_catch {A} (body : W A) (clauses : Exception -> option (W A)) : W A :=
  fun s =>
    match body s with
    | (Return a, s') => (Return a, s')
    | (Throw x, s') =>
      match clauses x with
      | Some handler => handler s'
      | None => (Throw x, s')
      end
    end.

(** [except SQLAlchemyError as e: raise HTTPException(500, ...)] *)
Definition except_sql {A} (x : Exception) : option (W A) :=
  match x with
  | Sql e => Some (throw (HTTPException HTTP_500_INTERNAL_SERVER_ERROR (DatabaseError e)))
  | _ => None
  end.

(** [except ValueError as e: raise HTTPException(400, ...)] followed by the
    clause for [SQLAlchemyError]. *)
Definition except_value_sql {A} (x : Exception) : option (W A) :=
  match x with
  | Val v => Some (throw (HTTPException HTTP_400_BAD_REQUEST (OfValueError v)))
  | Sql e => Some (throw (HTTPException HTTP_500_INTERNAL_SERVER_ERROR (DatabaseError e)))
  | HTTPException _ _ => None
  end.

Declare Scope web_scope.
Delimit Scope web_scope with web.
Notation "x <- m ;; k" := (wbind m (fun x => k))
  (at level 100, m at next level, right associativity) : web_scope.
Notation "m ;; k" := (wbind m (fun _ => k))
  (at level 100, right associativity) : web_scope.

(** Python truth of a form value: [None] and the empty string are false. *)
Definition truthy (s : option string) : bool :=
  match s with
  | Some s => negb (String.eqb s "")
  | None => false
  end.

(** [x if x else None] *)
Definition or_none (s : option string) : option string :=
  if truthy s then s else None.

(** ** The schemas' constructors, as the handlers call them *)

Definition shorter_than (min_length : nat) (s : string) : bool :=
  Nat.ltb (String.length s) min_length.

Definition complain (field : string) (bad : bool) : list string :=
  if bad then [field] else [].

(** The length bounds of [PasswordEntryBase], which [PasswordEntryUpdate]
    repeats: the fields that violate them, in declaration order. *)
Definition entry_field_errors (name : string) (username website_url : option string)
  : list string :=
  complain "name" (shorter_than 1 name || longer_than 100 (Some name)) ++
  complain "username" (longer_than 100 username) ++
  complain "website_url" (longer_than 500 website_url).

(** [PasswordEntryCreate(name=..., ...)] *)
Definition new_PasswordEntryCreate (name : string)
    (username password website_url notes : option string) (folder_id : option UUID)
  : W PasswordEntryCreate.t :=
  match entry_field_errors name username website_url with
  | [] => wret (PasswordEntryCreate.mk name username password website_url notes folder_id)
  | errors => throw (Val (ValidationError errors))
  end.

(** [PasswordEntryUpdate(name=..., ...)]: every field is passed, so every
    field is set. *)
Definition new_PasswordEntryUpdate (name : string)
    (username password website_url notes : option string) (folder_id : option UUID)
  : W PasswordEntryUpdate.t :=
  match entry_field_errors name username website_url with
  | [] =>
    wret (PasswordEntryUpdate.mk (Set_ (Some name)) (Set_ username) (Set_ password)
            (Set_ website_url) (Set_ notes) (Set_ folder_id))
  | errors => throw (Val (ValidationError errors))
  end.

(** [FolderCreate(name=name)] *)
Definition new_FolderCreate (name : string) : W FolderCreate.t :=
  match complain "name" (shorter_than 1 name || longer_than 100 (Some name)) with
  | [] => wret (FolderCreate.mk name)
  | errors => throw (Val (ValidationError errors))
  end.

(** ** app/routers/web.py: the handlers *)

Definition TEMP_USER_ID : UUID := 1.

Definition entry_not_found {A} : W A :=
  throw (HTTPException HTTP_404_NOT_FOUND (Message "Entry not found")).

Definition folder_not_found {A} : W A :=
  throw (HTTPException HTTP_404_NOT_FOUND (Message "Folder not found")).

(** [entry.name] as the title of a page; f"Edit {entry.name}". *)
Definition str_of (s : option string) : string :=
  match s with
  | Some s => s
  | None => "None"
  end.

(** Modelled from the spec: [get_db] of app/database.py, which is not among
    the sources; every handler declares [db: Session = Depends(get_db)].
    The spec has each operation run in a session "already scoped to one
    request": the session a handler is given is bound to the stored
    database and holds nothing pending from an earlier request. *)
Definition get_db (s : Session) : Session :=
  mkSession (stored s) [] (faults s) (log s).

(** [db: Session = Depends(get_db)] *)
Definition Depends_get_db {A} (handler : W A) : W A :=
  fun s => handler (get_db s).

Section Handlers.
(** The constructor [uuid.UUID] of the standard library on a string: the
    identifier, or [None] where it raises [ValueError]. *)
Variable UUID_of : string -> option UUID.

#[local] Open Scope web_scope.

(** [UUID(folder_id) if folder_id and folder_id != "" else None] *)
Definition folder_uuid_of (folder_id : option string) : W (option UUID) :=
  match folder_id with
  | Some text =>
    if truthy folder_id && negb (String.eqb text "") then
      match UUID_of text with
      | Some id => wret (Some id)
      | None => throw (Val (BadlyFormedUUID text))
      end
    else wret None
  | None => wret None
  end.

Definition web_index : W Response :=
  try_catch
    (entries <- call (get_all_entries_for_user TEMP_USER_ID None) ;;
     folders <- call (get_all_folders_for_user TEMP_USER_ID) ;;
     wret (TemplateResponse "index.html"
             [("entries", VEntries entries); ("folders", VFolders folders);
              ("title", VStr (Some "Password Manager"))]))
    except_sql.

Definition web_entries_create_form : W Response :=
  try_catch
    (folders <- call (get_all_folders_for_user TEMP_USER_ID) ;;
     wret (TemplateResponse "entries/create.html"
             [("folders", VFolders folders); ("title", VStr (Some "Create New Entry"))]))
    except_sql.

(** [new_id] is the value [uuid.uuid4] draws for the new row. *)
Definition web_entries_create_submit (new_id : UUID) (name : string)
    (username password website_url notes folder_id : option string) : W Response :=
  try_catch
    (folder_uuid <- folder_uuid_of folder_id ;;
     entry_data <- new_PasswordEntryCreate name (or_none username) (or_none password)
                     (or_none website_url) (or_none notes) folder_uuid ;;
     call (create_entry new_id TEMP_USER_ID entry_data) ;;
     wret (RedirectResponse url_index HTTP_303_SEE_OTHER))
    except_value_sql.

Definition web_entries_detail (entry_id : UUID) : W Response :=
  try_catch
    (entry <- call (get_entry_by_id entry_id TEMP_USER_ID) ;;
     match entry with
     | None => entry_not_found
     | Some entry =>
       wret (TemplateResponse "entries/detail.html"
               [("entry", VEntry entry); ("title", VStr (PasswordEntry.name entry))])
     end)
    except_sql.

Definition web_entries_edit_form (entry_id : UUID) : W Response :=
  try_catch
    (entry <- call (get_entry_by_id entry_id TEMP_USER_ID) ;;
     match entry with
     | None => entry_not_found
     | Some entry =>
       folders <- call (get_all_folders_for_user TEMP_USER_ID) ;;
       wret (TemplateResponse "entries/edit.html"
               [("entry", VEntry entry); ("folders", VFolders folders);
                ("title", VStr (Some ("Edit " ++ str_of (PasswordEntry.name entry))%string))])
     end)
    except_sql.

Definition web_entries_edit_submit (entry_id : UUID) (name : string)
    (username password website_url notes folder_id : option string) : W Response :=
  try_catch
    (folder_uuid <- folder_uuid_of folder_id ;;
     entry_data <- new_PasswordEntryUpdate name (or_none username) (or_none password)
                     (or_none website_url) (or_none notes) folder_uuid ;;
     updated_entry <- call (update_entry entry_id TEMP_USER_ID entry_data) ;;
     match updated_entry with
     | None => entry_not_found
     | Some _ => wret (RedirectResponse (url_entry entry_id) HTTP_303_SEE_OTHER)
     end)
    except_value_sql.

Definition web_entries_delete (entry_id : UUID) : W Response :=
  try_catch
    (deleted <- call (delete_entry entry_id TEMP_USER_ID) ;;
     if negb deleted then entry_not_found
     else wret (RedirectResponse url_index HTTP_303_SEE_OTHER))
    except_sql.

Definition web_folders_list : W Response :=
  try_catch
    (folders <- call (get_all_folders_for_user TEMP_USER_ID) ;;
     wret (TemplateResponse "folders/list.html"
             [("folders", VFolders folders); ("title", VStr (Some "Folders"))]))
    except_sql.

Definition web_folders_create_form : W Response :=
  wret (TemplateResponse "folders/create.html" [("title", VStr (Some "Create New Folder"))]).

Definition web_folders_create_submit (new_id : UUID) (name : string) : W Response :=
  try_catch
    (folder_data <- new_FolderCreate name ;;
     call (create_folder new_id TEMP_USER_ID folder_data) ;;
     wret (RedirectResponse url_folders HTTP_303_SEE_OTHER))
    except_value_sql.

Definition web_folders_detail (folder_id : UUID) : W Response :=
  try_catch
    (folder <- call (get_folder_by_id folder_id TEMP_USER_ID) ;;
     match folder with
     | None => folder_not_found
     | Some folder =>
       entries <- call (get_all_entries_for_user TEMP_USER_ID (Some folder_id)) ;;
       wret (TemplateResponse "folders/detail.html"
               [("folder", VFolder folder); ("entries", VEntries entries);
                ("title", VStr (Some (Folder.name folder)))])
     end)
    except_sql.

Definition web_folders_delete (folder_id : UUID) : W Response :=
  try_catch
    (deleted <- call (delete_folder folder_id TEMP_USER_ID) ;;
     if negb deleted then folder_not_found
     else wret (RedirectResponse url_folders HTTP_303_SEE_OTHER))
    except_sql.

(** The routes of the router. *)
Inductive Request :=
| GET_index
| GET_entries_create
| POST_entries_create (new_id : UUID) (name : string)
    (username password website_url notes folder_id : option string)
| GET_entry (entry_id : UUID)
| GET_entry_edit (entry_id : UUID)
| POST_entry_edit (entry_id : UUID) (name : string)
    (username password website_url notes folder_id : option string)
| POST_entry_delete (entry_id : UUID)
| GET_folders
| GET_folders_create
| POST_folders_create (new_id : UUID) (name : string)
| GET_folder (folder_id : UUID)
| POST_folder_delete (folder_id : UUID).

(** The handler the router calls for a request. *)
Definition handler (r : Request) : W Response :=
  match r with
  | GET_index => web_index
  | GET_entries_create => web_entries_create_form
  | POST_entries_create i n u p w t f => web_entries_create_submit i n u p w t f
  | GET_entry i => web_entries_detail i
  | GET_entry_edit i => web_entries_edit_form i
  | POST_entry_edit i n u p w t f => web_entries_edit_submit i n u p w t f
  | POST_entry_delete i => web_entries_delete i
  | GET_folders => web_folders_list
  | GET_folders_create => web_folders_create_form
  | POST_folders_create i n => web_folders_create_submit i n
  | GET_folder i => web_folders_detail i
  | POST_folder_delete i => web_folders_delete i
  end.

(** A request is served by its handler in a session of its own. *)
Definition route (r : Request) : W Response :=
  Depends_get_db (handler r).
End Handlers.

(** ** Vocabulary of the statements about the handlers *)

(** An exception a client sees as an HTTP error of the three kinds the
    handlers produce. *)
Definition is_http_error (x : Exception) : Prop :=
  match x with
  | HTTPException code (Message _) => code = HTTP_404_NOT_FOUND
  | HTTPException code (OfValueError _) => code = HTTP_400_BAD_REQUEST
  | HTTPException code (DatabaseError _) => code = HTTP_500_INTERNAL_SERVER_ERROR
  | _ => False
  end.

(** The owners of the rows a response hands to a template. *)
Definition owners_in (v : Value) : list UUID :=
  match v with
  | VEntries l => map PasswordEntry.user_id l
  | VFolders l => map Folder.user_id l
  | VEntry e => [PasswordEntry.user_id e]
  | VFolder f => [Folder.user_id f]
  | VStr _ => []
  end.

Definition owners_shown (r : Response) : list UUID :=
  match r with
  | TemplateResponse _ context => flat_map (fun kv => owners_in (snd kv)) context
  | RedirectResponse _ _ => []
  end.

(** The bounds the [Form(...)] parameters of the two entry forms declare. *)
Definition entry_form_ok (name : string) (username website_url : option string) : bool :=
  negb (shorter_than 1 name) && negb (longer_than 100 (Some name)) &&
  negb (longer_than 100 username) && negb (longer_than 500 website_url).

(** What the two [except] clauses of the forms make of an exception of the
    service. *)
Definition answered (x : Exception) : Exception :=
  match x with
  | Sql e => HTTPException HTTP_500_INTERNAL_SERVER_ERROR (DatabaseError e)
  | Val v => HTTPException HTTP_400_BAD_REQUEST (OfValueError v)
  | HTTPException c detail => HTTPException c detail
  end.

(** None of the texts submitted contains the NUL character. *)
Definition no_nul (texts : list (option string)) : bool :=
  forallb (fun text => negb (nul_in text)) texts.

(** A folder id field that is filled in but is no UUID. *)
Definition malformed (UUID_of : string -> option UUID) (folder_id : option string) : bool :=
  match folder_id with
  | Some text =>
    negb (String.eqb text "") &&
    match UUID_of text with Some _ => false | None => true end
  | None => false
  end.

(** A toy reading of identifiers for the examples: decimal digits only. *)
Fixpoint decimal (s : string) (acc : N) : option N :=
  match s with
  | EmptyString => Some acc
  | String c rest =>
    let n := Ascii.N_of_ascii c in
    if (48 <=? n) && (n <=? 57) then decimal rest (10 * acc + (n - 48)) else None
  end.

Definition sample_UUID_of (s : string) : option UUID := decimal s 0.

(** The folder reference a form's folder id field stands for when it is not
    malformed: none when the field is blank. *)
Definition folder_ref_of (UUID_of : string -> option UUID) (folder_id : option string)
  : option UUID :=
  match folder_id with
  | Some text => if String.eqb text "" then None else UUID_of text
  | None => None
  end.

(** Handler code [w] raises nothing but exceptions satisfying [P]. *)
Definition raises_only {A} (P : Exception -> Prop) (w : W A) : Prop :=
  forall s, match fst (w s) with
            | Return _ => True
            | Throw x => P x
            end.

(** Service code [m] raises nothing but exceptions satisfying [P]. *)
Definition service_raises_only {A} (P : Exception -> Prop) (m : M A) : Prop :=
  forall s, match fst (m s) with
            | Ok _ => True
            | Raise x => P x
            end.

(** Handler code [w] returns nothing but values satisfying [P]. *)
Definition returns_only {A} (P : A -> Prop) (w : W A) : Prop :=
  forall s, match fst (w s) with
            | Return a => P a
            | Throw _ => True
            end.

Definition sql_or_http (x : Exception) : Prop :=
  match x with
  | Sql _ => True
  | Val _ => False
  | HTTPException _ _ => is_http_error x
  end.

Definition any_but_foreign_http (x : Exception) : Prop :=
  match x with
  | HTTPException _ _ => is_http_error x
  | _ => True
  end.

(** Every row the response hands to a template belongs to the fixed user. *)
Definition shows_only_own (r : Response) : Prop :=
  forall u, In u (owners_shown r) -> u = TEMP_USER_ID.

(** ** Vocabulary of the frame statements *)

(** What an owner-scoped mutation on behalf of [U] cannot have touched, from
    database [d] to [d']: the users, the folders of other owners, and the
    entries of other owners that are not filed in a folder of [U]. *)
Definition frame (U : UUID) (d d' : Database) : Prop :=
  users d' = users d /\
  (forall f, Folder.user_id f <> U -> (In f (folders d') <-> In f (folders d))) /\
  (forall e, PasswordEntry.user_id e <> U -> filed_under U d e = false ->
     (In e (password_entries d') <-> In e (password_entries d))).

(** The folder and entry mutations made on behalf of [U]. *)
Definition acts_for (U : UUID) (m : Mutation) : bool :=
  match m with
  | CreateFolder _ u _ => u =? U
  | UpdateFolder _ u _ => u =? U
  | DeleteFolder _ u => u =? U
  | CreateEntry _ u _ => u =? U
  | UpdateEntry _ u _ => u =? U
  | DeleteEntry _ u => u =? U
  | CreateUser _ _ => false
  | DeleteUser _ => false
  end.

(** Handler code that leaves the stored database as it found it. *)
Definition keeps {A} (w : W A) : Prop :=
  forall s, stored (snd (w s)) = stored s.

(** Handler code that does not touch the session at all. *)
Definition pure {A} (w : W A) : Prop :=
  forall s, snd (w s) = s.

(** Handler code that, run in a clean session on a database with unique
    primary keys, leaves alone what is out of the reach of [U]. *)
Definition reaches_only {A} (U : UUID) (w : W A) : Prop :=
  forall s, unit_of_work s = [] -> pk_unique (stored s) = true ->
            frame U (stored s) (stored (snd (w s))).

(** * Properties *)

(** ** Queries over a table *)

Lemma hd_error_filter {R} (p : R -> bool) (l : list R) :
  hd_error (filter p l) = find p l.
Proof.
  induction l as [|x l IH]; simpl; [reflexivity|].
  destruct (p x); simpl; auto.
Qed.

Lemma find_existsb {R} (p : R -> bool) (l : list R) :
  existsb p l = true <-> exists x, find p l = Some x.
Proof.
  induction l as [|x l IH]; simpl.
  - split; [discriminate | intros [y Hy]; discriminate].
  - destruct (p x); simpl; [split; eauto | exact IH].
Qed.

Lemma find_none_existsb {R} (p : R -> bool) (l : list R) :
  existsb p l = false <-> find p l = None.
Proof.
  induction l as [|x l IH]; simpl; [tauto|].
  destruct (p x); simpl; [split; discriminate | exact IH].
Qed.

Lemma existsb_false_all {R} (p : R -> bool) (l : list R) :
  existsb p l = false -> forall x, In x l -> p x = false.
Proof.
  intros H x Hx. destruct (p x) eqn:E; [|reflexivity].
  assert (existsb p l = true) by (apply existsb_exists; eauto). congruence.
Qed.

Lemma filter_nil_all {R} (p : R -> bool) (l : list R) :
  (forall x, In x l -> p x = false) -> filter p l = [].
Proof.
  induction l as [|x l IH]; simpl; intros H; [reflexivity|].
  rewrite (H x) by auto. apply IH. auto.
Qed.

Section Keys.
Context {R : Type} (key : R -> UUID).

Lemma existsb_key_in (k : UUID) (l : list R) :
  existsb (N.eqb k) (map key l) = true <-> exists x, In x l /\ key x = k.
Proof.
  rewrite existsb_exists. split.
  - intros [i [Hi E]]. apply in_map_iff in Hi as [x [Hx Hin]].
    apply N.eqb_eq in E. exists x. split; congruence.
  - intros [x [Hin Hx]]. exists (key x). split.
    + apply in_map; assumption.
    + apply N.eqb_eq. congruence.
Qed.

(** Under the primary-key constraint two rows with one key are one row. *)
Lemma distinct_inj (l : list R) (a b : R) :
  distinct (map key l) = true -> In a l -> In b l -> key a = key b -> a = b.
Proof.
  induction l as [|x l IH]; simpl; [tauto|].
  intros H Ha Hb E. apply andb_prop in H as [Hx Hl].
  apply negb_true_iff in Hx.
  destruct Ha as [->|Ha], Hb as [->|Hb]; auto.
  - exfalso. assert (existsb (N.eqb (key a)) (map key l) = true).
    { apply existsb_key_in. exists b. auto. }
    congruence.
  - exfalso. assert (existsb (N.eqb (key b)) (map key l) = true).
    { apply existsb_key_in. exists a. auto. }
    congruence.
Qed.

(** ... and a lookup by key finds exactly the row that carries it. *)
Lemma distinct_find (l : list R) (a : R) :
  distinct (map key l) = true -> In a l ->
  find (fun x => key x =? key a) l = Some a.
Proof.
  intros Hd Ha.
  destruct (find (fun x => key x =? key a) l) as [b|] eqn:F.
  - apply find_some in F as [Hb E]. apply N.eqb_eq in E.
    f_equal. apply (distinct_inj l); auto.
  - exfalso. apply (find_none _ _ F) in Ha. rewrite N.eqb_refl in Ha. discriminate.
Qed.

(** Rewriting the row with key [k] in place is the identity when the row
    already has the new contents. *)
Lemma map_replace_id (l : list R) (a : R) :
  distinct (map key l) = true -> In a l ->
  map (fun x => if key x =? key a then a else x) l = l.
Proof.
  intros Hd Ha. rewrite <- (map_id l) at 2. apply map_ext_in.
  intros x Hx. destruct (key x =? key a) eqn:E; [|reflexivity].
  apply N.eqb_eq in E. apply (distinct_inj l); auto.
Qed.

Lemma find_map_replace (l : list R) (k : UUID) (a : R) :
  key a = k -> existsb (fun x => key x =? k) l = true ->
  find (fun x => key x =? k) (map (fun x => if key x =? k then a else x) l) = Some a.
Proof.
  intros Ha. induction l as [|x l IH]; simpl; [discriminate|].
  destruct (key x =? k) eqn:E; simpl.
  - intros _. rewrite Ha, N.eqb_refl. reflexivity.
  - rewrite E. exact IH.
Qed.
End Keys.

Lemma pk_unique_users d : pk_unique d = true -> distinct (map User.user_id (users d)) = true.
Proof. unfold pk_unique. intros H. repeat (apply andb_prop in H as [H ?]). assumption. Qed.

Lemma pk_unique_folders d : pk_unique d = true -> distinct (map Folder.folder_id (folders d)) = true.
Proof. unfold pk_unique. intros H. repeat (apply andb_prop in H as [H ?]). assumption. Qed.

Lemma pk_unique_entries d :
  pk_unique d = true -> distinct (map PasswordEntry.entry_id (password_entries d)) = true.
Proof. unfold pk_unique. intros H. repeat (apply andb_prop in H as [H ?]). assumption. Qed.

Lemma opt_eqb_N_eq (x y : option UUID) : opt_eqb N.eqb x y = true <-> x = y.
Proof.
  destruct x, y; simpl; try (split; congruence).
  rewrite N.eqb_eq. split; congruence.
Qed.



(** ** Running service code *)

Lemma query_first_run {R} (table : Database -> list R) (p : R -> bool) d u fs lg :
  query_first table p (mkSession d u fs lg) =
  match next_fault fs with
  | Some e => (Raise (Sql e), mkSession d u (tl fs) (lg ++ [Failed Query (Sql e)]))
  | None => (Ok (find p (table d)), mkSession d u (tl fs) (lg ++ [Returned Query]))
  end.
Proof.
  unfold_session; simpl. destruct (next_fault fs); simpl; rewrite ?hd_error_filter; reflexivity.
Qed.

(** ** Text that can be stored *)

Lemma text_ok_check columns :
  text_ok columns = true -> check_text columns = None.
Proof.
  unfold text_ok, check_text. intros H. rewrite forallb_forall in H.
  assert (N : existsb (fun column => nul_in (snd column)) columns = false).
  { apply not_true_is_false. intros E. apply existsb_exists in E as [c [Hc E]].
    apply H in Hc. rewrite E in Hc. discriminate. }
  assert (W : existsb too_wide columns = false).
  { apply not_true_is_false. intros E. apply existsb_exists in E as [c [Hc E]].
    apply H in Hc. rewrite E, andb_false_r in Hc. discriminate. }
  rewrite N, W. reflexivity.
Qed.


Lemma in_changed_columns old new c :
  In c (changed_columns old new) -> In c new.
Proof.
  unfold changed_columns. intros H. apply in_map_iff in H as [[a b] [<- H]].
  apply filter_In in H as [H _]. apply in_combine_r in H. assumption.
Qed.

(** An UPDATE to a row whose text can be stored is not stopped for its
    text. *)
Lemma text_ok_changed old new :
  text_ok new = true -> check_text (changed_columns old new) = None.
Proof.
  intros H. apply text_ok_check. unfold text_ok in *.
  rewrite forallb_forall in *. intros c Hc. apply H.
  apply in_changed_columns with old. assumption.
Qed.

(** ** What a flush can raise *)

Lemma check_text_raises columns x :
  check_text columns = Some x -> x = Val NulInText \/ x = Sql DataError.
Proof.
  unfold check_text.
  destruct (existsb _ columns); [intros [= <-]; auto|].
  destruct (existsb _ columns); [intros [= <-]; auto | discriminate].
Qed.

(** A flushed statement raises a [SQLAlchemyError] or the driver's
    [ValueError]. *)
Lemma flush_one_raises p d x :
  flush_one p d = Raise x -> (exists e, x = Sql e) \/ x = Val NulInText.
Proof.
  assert (T : forall columns y, check_text columns = Some y ->
                (exists e, y = Sql e) \/ y = Val NulInText).
  { intros columns y H. destruct (check_text_raises _ _ H) as [-> | ->]; eauto. }
  destruct p as [[u|f|e]|[u|f|e]|[u|f|e]]; simpl.
  - unfold insert_user. destruct (check_text _) eqn:C; [intros [= <-]; eauto|].
    destruct (has_user _ _); [intros [= <-]; eauto|].
    destruct (username_taken _ _); [intros [= <-]; eauto | discriminate].
  - unfold insert_folder. destruct (check_text _) eqn:C; [intros [= <-]; eauto|].
    destruct (has_folder _ _); [intros [= <-]; eauto|].
    destruct (negb _); [intros [= <-]; eauto | discriminate].
  - unfold insert_entry. destruct (check_text _) eqn:C; [intros [= <-]; eauto|].
    destruct (PasswordEntry.name e); [|intros [= <-]; eauto].
    destruct (has_entry _ _); [intros [= <-]; eauto|].
    destruct (negb _); [intros [= <-]; eauto|].
    destruct (negb _); [intros [= <-]; eauto | discriminate].
  - discriminate.
  - unfold update_folder_row. destruct (find_folder _ _); [|intros [= <-]; eauto].
    destruct (folder_eq_dec _ _); [discriminate|].
    destruct (check_text _) eqn:C; [intros [= <-]; eauto|].
    destruct (_ && _); [intros [= <-]; eauto | discriminate].
  - unfold update_entry_row. destruct (find_entry _ _); [|intros [= <-]; eauto].
    destruct (entry_eq_dec _ _); [discriminate|].
    destruct (check_text _) eqn:C; [intros [= <-]; eauto|].
    destruct (PasswordEntry.name e); [|intros [= <-]; eauto].
    destruct (_ && _); [intros [= <-]; eauto|].
    destruct (_ && _); [intros [= <-]; eauto | discriminate].
  - unfold delete_user_row. destruct (has_user _ _); [discriminate | intros [= <-]; eauto].
  - unfold delete_folder_row, delete_folder_row_with.
    destruct (has_folder _ _); [discriminate | intros [= <-]; eauto].
  - unfold delete_entry_row. destruct (has_entry _ _); [discriminate | intros [= <-]; eauto].
Qed.

(** A DELETE carries no text: it raises a [SQLAlchemyError] only. *)
Lemma flush_one_deleted_raises o d x :
  flush_one (Deleted o) d = Raise x -> x = Sql StaleDataError.
Proof.
  destruct o as [u|f|e]; simpl.
  - unfold delete_user_row. destruct (has_user _ _); [discriminate | intros [= <-]; eauto].
  - unfold delete_folder_row, delete_folder_row_with.
    destruct (has_folder _ _); [discriminate | intros [= <-]; eauto].
  - unfold delete_entry_row. destruct (has_entry _ _); [discriminate | intros [= <-]; eauto].
Qed.

Lemma map_reply {A B} (m : M A) (f : A -> B) (s : Session) :
  (x <- m ;; ret (f x)) s =
  match m s with
  | (Ok a, s') => (Ok (f a), s')
  | (Raise x, s') => (Raise x, s')
  end.
Proof. reflexivity. Qed.

(** ** The three shapes of a mutating method *)

Section Shapes.
Context {R : Type}.

#[local] Arguments flush_one : simpl never.

Ltac ended_ok evs :=
  exists evs; simpl;
  split; [rewrite <- ?app_assoc; reflexivity | split; reflexivity].

Ltac ended_raise c e pre :=
  exists (pre ++ [Failed c (Sql e); RolledBack]); simpl;
  split; [rewrite <- ?app_assoc; reflexivity |];
  split; [reflexivity |];
  exists c, pre; simpl;
  split; [reflexivity |];
  split; [reflexivity |];
  split; [try reflexivity; intros; congruence | intros; try discriminate; simpl; auto].

Ltac ended_refused pre :=
  exists (pre ++ [Failed Commit (Val NulInText)]); simpl;
  split; [rewrite <- ?app_assoc; reflexivity |];
  exists pre; simpl; repeat split.

Ltac stopped F pre :=
  destruct (flush_one_raises _ _ _ F) as [[? ->] | ->]; simpl;
  [ match goal with e : SQLAlchemyError |- _ => ended_raise Commit e pre end
  | ended_refused pre ].

(** add, commit, refresh *)
Lemma create_fails_safely (o : Instance) (lookup : Database -> option R) (s : Session) :
  unit_of_work s = [] ->
  fails_safely s
    (try_except (db_add o ;; db_commit ;; db_refresh lookup) rollback_and_reraise s).
Proof.
  destruct s as [d u fs lg]; simpl; intros ->.
  unfold fails_safely, try_except, rollback_and_reraise, db_add, register,
    db_commit, db_refresh, db_rollback, engine, emit, bind, ret, raise; simpl.
  destruct (next_fault fs) as [e|]; simpl; [ended_raise Commit e (@nil Event)|].
  destruct (flush_one (New o) d) as [d'|x] eqn:F; simpl; [|stopped F (@nil Event)].
  destruct (next_fault (tl fs)) as [e|]; simpl; [ended_raise Refresh e [Returned Commit]|].
  destruct (lookup d') as [row|]; simpl.
  - ended_ok [Returned Commit; Returned Refresh].
  - ended_raise Refresh InvalidRequestError [Returned Commit].
Qed.

(** fetch, assign, commit, refresh *)
Lemma update_fails_safely {X} (table : Database -> list X) (p : X -> bool)
    (changed : X -> Instance) (lookup : X -> Database -> option R) (s : Session) :
  unit_of_work s = [] ->
  fails_safely s
    (try_except
       (x <- query_first table p ;;
        match x with
        | None => ret None
        | Some x =>
          db_modified (changed x) ;;
          db_commit ;;
          y <- db_refresh (lookup x) ;;
          ret (Some y)
        end)
       rollback_and_reraise s).
Proof.
  destruct s as [d u fs lg]; simpl; intros ->.
  unfold fails_safely, try_except, bind. rewrite query_first_run.
  destruct (next_fault fs) as [e|]; simpl.
  { unfold rollback_and_reraise, db_rollback, bind, raise; simpl.
    ended_raise Query e (@nil Event). }
  destruct (find p (table d)) as [x|]; simpl.
  2:{ unfold ret; simpl. ended_ok [Returned Query]. }
  unfold rollback_and_reraise, db_modified, register,
    db_commit, db_refresh, db_rollback, engine, emit, bind, ret, raise; simpl.
  destruct (next_fault (tl fs)) as [e|]; simpl; [ended_raise Commit e [Returned Query]|].
  destruct (flush_one (Dirty (changed x)) d) as [d'|y] eqn:F; simpl;
    [|stopped F [Returned Query]].
  destruct (next_fault (tl (tl fs))) as [e|]; simpl;
    [ended_raise Refresh e [Returned Query; Returned Commit]|].
  destruct (lookup x d') as [row|]; simpl.
  - ended_ok [Returned Query; Returned Commit; Returned Refresh].
  - ended_raise Refresh InvalidRequestError [Returned Query; Returned Commit].
Qed.

(** fetch, delete, commit *)
Lemma delete_fails_safely (table : Database -> list R) (p : R -> bool)
    (gone : R -> Instance) (s : Session) :
  unit_of_work s = [] ->
  fails_safely s
    (try_except
       (x <- query_first table p ;;
        match x with
        | None => ret false
        | Some x => db_delete (gone x) ;; db_commit ;; ret true
        end)
       rollback_and_reraise s).
Proof.
  destruct s as [d u fs lg]; simpl; intros ->.
  unfold fails_safely, try_except, bind. rewrite query_first_run.
  destruct (next_fault fs) as [e|]; simpl.
  { unfold rollback_and_reraise, db_rollback, bind, raise; simpl.
    ended_raise Query e (@nil Event). }
  destruct (find p (table d)) as [x|]; simpl.
  2:{ unfold ret; simpl. ended_ok [Returned Query]. }
  unfold rollback_and_reraise, db_delete, register,
    db_commit, db_rollback, engine, emit, bind, ret, raise; simpl.
  destruct (next_fault (tl fs)) as [e|]; simpl; [ended_raise Commit e [Returned Query]|].
  destruct (flush_one (Deleted (gone x)) d) as [d'|y] eqn:F; simpl.
  - ended_ok [Returned Query; Returned Commit].
  - stopped F [Returned Query].
Qed.
End Shapes.

Lemma fails_safely_map {A B} (m : M A) (f : A -> B) (s : Session) :
  fails_safely s (m s) -> fails_safely s ((x <- m ;; ret (f x)) s).
Proof.
  rewrite map_reply. destruct (m s) as [[a|e] s']; exact (fun H => H).
Qed.

Section DeleteShape.
Context {R : Type} (table : Database -> list R) (p : R -> bool) (gone : R -> Instance).

#[local] Arguments flush_one : simpl never.

#[local] Abbreviation method :=
  (try_except
     (x <- query_first table p ;;
      match x with
      | None => ret false
      | Some x => db_delete (gone x) ;; db_commit ;; ret true
      end)
     rollback_and_reraise).

(** With a working engine. *)
Lemma delete_method_open (d : Database) :
  method (open d) =
  match find p (table d) with
  | None => (Ok false, mkSession d [] [] [Returned Query])
  | Some x =>
    match flush_one (Deleted (gone x)) d with
    | Ok d' => (Ok true, mkSession d' [] [] [Returned Query; Returned Commit])
    | Raise y =>
      (Raise y, mkSession d [] [] [Returned Query; Failed Commit y; RolledBack])
    end
  end.
Proof.
  unfold try_except, bind, open. rewrite query_first_run. simpl.
  destruct (find p (table d)) as [x|]; simpl; [|reflexivity].
  unfold rollback_and_reraise, db_delete, register,
    db_commit, db_rollback, engine, emit, bind, ret, raise; simpl.
  destruct (flush_one (Deleted (gone x)) d) as [d'|y] eqn:F; [reflexivity|].
  rewrite (flush_one_deleted_raises _ _ _ F). reflexivity.
Qed.

(** With any engine: the stored database is untouched, or the object was
    found and its deletion was flushed whole. *)
Lemma delete_method_atomic (fs : list (option SQLAlchemyError)) (d : Database) :
  stored (snd (method (open_with fs d))) = d \/
  exists x d',
    find p (table d) = Some x /\
    flush_one (Deleted (gone x)) d = Ok d' /\
    fst (method (open_with fs d)) = Ok true /\
    stored (snd (method (open_with fs d))) = d'.
Proof.
  unfold try_except, bind, open_with. rewrite query_first_run.
  destruct (next_fault fs) as [e|]; simpl; [left; reflexivity|].
  destruct (find p (table d)) as [x|]; simpl; [|left; reflexivity].
  unfold rollback_and_reraise, db_delete, register,
    db_commit, db_rollback, engine, emit, bind, ret, raise; simpl.
  destruct (next_fault (tl fs)) as [e|]; simpl; [left; reflexivity|].
  destruct (flush_one (Deleted (gone x)) d) as [d'|y] eqn:F; simpl;
    [|left; destruct y; reflexivity].
  right. exists x, d'. auto.
Qed.
End DeleteShape.

(** ** Users *)

Lemma create_user_run (d : Database) (new_id : UUID) (user_data : UserCreate.t) :
  create_user new_id user_data (open d) =
  match insert_user (new_user new_id user_data) d with
  | Ok d' =>
    match find_user new_id d' with
    | Some u => (Ok u, mkSession d' [] [] [Returned Commit; Returned Refresh])
    | None =>
      (Raise (Sql InvalidRequestError),
       mkSession d' [] []
         [Returned Commit; Failed Refresh (Sql InvalidRequestError); RolledBack])
    end
  | Raise (Sql e) =>
    (Raise (Sql e), mkSession d [] [] [Failed Commit (Sql e); RolledBack])
  | Raise x =>
    (Raise x, mkSession d [New (IUser (new_user new_id user_data))] [] [Failed Commit x])
  end.
Proof.
  unfold create_user, new_user.
  unfold try_except, rollback_and_reraise, db_add, register, db_commit, db_refresh,
    db_rollback, engine, emit, bind, ret, raise, open.
  cbn -[insert_user find_user].
  destruct (insert_user _ d) as [d'|[e|v|c dt]]; cbn -[find_user]; try reflexivity.
  destruct (find_user new_id d'); reflexivity.
Qed.




Lemma fold_drop_folder_users c (fs : list Folder.t) d :
  users (fold_left (fun acc f => drop_folder c (Folder.folder_id f) acc) fs d) = users d.
Proof.
  revert d. induction fs as [|f fs IH]; intros d; simpl; [reflexivity|].
  rewrite IH. reflexivity.
Qed.

(** Flushing a deleted user leaves no row that names the user. *)
Lemma delete_user_row_complete (u : User.t) (d d' : Database) :
  delete_user_row u d = Ok d' ->
  has_user (User.user_id u) d' = false /\ owns_nothing (User.user_id u) d'.
Proof.
  unfold delete_user_row. destruct (has_user (User.user_id u) d); [|discriminate].
  intros H. injection H as <-. split; [|split]; simpl.
  - unfold has_user; simpl. apply not_true_is_false. intros E.
    apply existsb_exists in E as [v [Hv Hid]].
    apply filter_In in Hv as [_ Hv]. rewrite Hid in Hv. discriminate.
  - intros f Hf. apply filter_In in Hf as [_ Hf].
    apply negb_true_iff, N.eqb_neq in Hf. assumption.
  - intros e He. apply filter_In in He as [_ He].
    apply negb_true_iff, N.eqb_neq in He. assumption.
Qed.

Lemma find_user_id (U : UUID) (d : Database) (u : User.t) :
  find (fun u => User.user_id u =? U) (users d) = Some u ->
  User.user_id u = U /\ has_user U d = true.
Proof.
  intros H. split.
  - apply find_some in H as [_ H]. apply N.eqb_eq in H. assumption.
  - apply find_existsb. eauto.
Qed.

(** C4: [delete_user] answers [False] for an unknown id and changes nothing;
    for a known id it answers [True] and afterwards neither the user row nor
    any folder or entry owned by the user is stored.  The removal is one
    commit: whatever the engine does, the stored database is either the one
    before the call or the one with the user and everything owned gone. *)
Theorem delete_user_cascades (d : Database) (U : UUID) :
  (has_user U d = false ->
     fst (delete_user U (open d)) = Ok false /\
     stored (snd (delete_user U (open d))) = d) /\
  (has_user U d = true ->
     fst (delete_user U (open d)) = Ok true /\
     has_user U (stored (snd (delete_user U (open d)))) = false /\
     owns_nothing U (stored (snd (delete_user U (open d))))) /\
  (forall fs,
     stored (snd (delete_user U (open_with fs d))) = d \/
     (fst (delete_user U (open_with fs d)) = Ok true /\
      has_user U (stored (snd (delete_user U (open_with fs d)))) = false /\
      owns_nothing U (stored (snd (delete_user U (open_with fs d)))))).
Proof.
  split; [|split].
  - intros H. unfold delete_user, get_user_by_id. rewrite delete_method_open.
    apply find_none_existsb in H. unfold has_user in H. rewrite H. auto.
  - intros H. unfold delete_user, get_user_by_id. rewrite delete_method_open.
    apply find_existsb in H as [u Fu]. rewrite Fu.
    destruct (find_user_id U d u Fu) as [Hid Hhas]. simpl.
    unfold delete_user_row at 1 2 3. rewrite Hid, Hhas. simpl.
    pose proof (delete_user_row_complete u d) as C.
    unfold delete_user_row in C. rewrite Hid, Hhas in C.
    specialize (C _ eq_refl). tauto.
  - intros fs. unfold delete_user, get_user_by_id.
    destruct (delete_method_atomic users (fun u => User.user_id u =? U) IUser fs d)
      as [Same|[u [d' [Fu [Fl [Hr Hs]]]]]]; [left; exact Same|].
    right. rewrite Hr, Hs. simpl in Fl.
    destruct (find_user_id U d u Fu) as [Hid _].
    pose proof (delete_user_row_complete u d d' Fl) as C. rewrite Hid in C. tauto.
Qed.

Lemma delete_user_cascades_witness :
  fst (delete_user 1 (open Sample.db)) = Ok true /\
  has_user 1 (stored (snd (delete_user 1 (open Sample.db)))) = false /\
  owns_nothing 1 (stored (snd (delete_user 1 (open Sample.db)))).
Proof.
  apply (delete_user_cascades Sample.db 1). reflexivity.
Defined.

(** ** Storage failures *)

(** C6, as the code has it: a mutating operation that meets a storage
    failure (a [SQLAlchemyError]) rolls the session back and raises that
    very failure, after exactly one failed round trip and with nothing but
    the rollback behind it; an operation that ends normally had no failed
    round trip.  When the failure came before the commit returned, the
    stored database is the one before the call; a failure of the refresh
    comes after the commit returned.  The one other exception an operation
    can raise is the [ValueError] of the driver at the commit, which
    [except SQLAlchemyError] does not catch: the stored database is the one
    before the call, and the method calls no rollback. *)
Theorem mutations_fail_safely (m : Mutation) (s : Session) :
  unit_of_work s = [] -> fails_safely s (perform m s).
Proof.
  intros Hclean.
  destruct m; unfold perform; apply fails_safely_map.
  - apply create_fails_safely; assumption.
  - apply delete_fails_safely; assumption.
  - apply create_fails_safely; assumption.
  - apply (update_fails_safely folders _
             (fun x => IFolder (Folder.mk (Folder.folder_id x) (Folder.user_id x)
                                  (FolderUpdate.name folder_data)))
             (fun x => find_folder (Folder.folder_id x))); assumption.
  - apply delete_fails_safely; assumption.
  - apply create_fails_safely; assumption.
  - apply (update_fails_safely password_entries _
             (fun x => IEntry (fold_left setattr
                                 (PasswordEntryUpdate.model_dump_exclude_unset entry_data) x))
             (fun x => find_entry (PasswordEntry.entry_id
                                     (fold_left setattr
                                        (PasswordEntryUpdate.model_dump_exclude_unset entry_data) x))));
      assumption.
  - apply delete_fails_safely; assumption.
Qed.

Lemma mutations_fail_safely_witness :
  fails_safely
    (open_with [None; Some (OperationalError "connection lost")] Sample.db)
    (perform (CreateFolder 11 1 (FolderCreate.mk "Personal"))
       (open_with [None; Some (OperationalError "connection lost")] Sample.db)).
Proof.
  apply (mutations_fail_safely (CreateFolder 11 1 (FolderCreate.mk "Personal"))
           (open_with [None; Some (OperationalError "connection lost")] Sample.db)).
  reflexivity.
Defined.

(** C6 as stated does not hold: a failure of the refresh that follows a
    successful commit is raised to the caller while the committed row stays
    stored. *)
Lemma failure_after_commit_is_not_undone :
  ~ (forall (m : Mutation) (s : Session) (e : SQLAlchemyError),
       unit_of_work s = [] ->
       fst (perform m s) = Raise (Sql e) ->
       stored (snd (perform m s)) = stored s).
Proof.
  intros H.
  specialize (H (CreateFolder 11 1 (FolderCreate.mk "Personal"))
                (open_with [None; Some (OperationalError "connection lost")] Sample.db)
                (OperationalError "connection lost") eq_refl eq_refl).
  vm_compute in H. discriminate H.
Qed.

(** The handler of a mutating method does not see a [ValueError]: a folder
    name with a NUL character stops the commit, the exception leaves
    [create_folder] as it was raised, nothing is stored, and the method
    calls no rollback. *)
Lemma value_error_passes_the_handler :
  fst (create_folder 11 1 (FolderCreate.mk Sample.text_with_nul) (open Sample.db)) =
    Raise (Val NulInText) /\
  stored (snd (create_folder 11 1 (FolderCreate.mk Sample.text_with_nul) (open Sample.db))) =
    Sample.db /\
  log (snd (create_folder 11 1 (FolderCreate.mk Sample.text_with_nul) (open Sample.db))) =
    [Failed Commit (Val NulInText)].
Proof. vm_compute. repeat split. Qed.

(** ** Folders *)

(** With the relationship's default cascade the ORM would do what the
    docstring of [delete_folder] and the foreign key's SET NULL describe:
    keep every entry and clear the references to the folder. *)
Lemma drop_folder_default_cascade_keeps_entries (fid : UUID) (d : Database) :
  map PasswordEntry.entry_id (password_entries (drop_folder SaveUpdateMerge fid d)) =
  map PasswordEntry.entry_id (password_entries d) /\
  forall e, In e (password_entries (drop_folder SaveUpdateMerge fid d)) ->
            PasswordEntry.folder_id e <> Some fid.
Proof.
  unfold drop_folder, orm_cascade_entries, fk_ondelete_entries; simpl. split.
  - rewrite !map_map. apply map_ext. intros e.
    destruct e as [i u f n un p w t]; unfold in_folder; simpl.
    destruct (opt_eqb N.eqb f (Some fid)); simpl; [reflexivity|].
    destruct (opt_eqb N.eqb f (Some fid)); reflexivity.
  - intros e He. apply in_map_iff in He as [e1 [<- He1]].
    apply in_map_iff in He1 as [e0 [<- _]].
    destruct e0 as [i u f n un p w t]; unfold in_folder; simpl.
    destruct (opt_eqb N.eqb f (Some fid)) eqn:E; simpl; [discriminate|].
    rewrite E. simpl. intros ->. simpl in E. rewrite N.eqb_refl in E. discriminate.
Qed.

(** With the cascade the model declares, every entry in the folder is
    deleted with it. *)
Lemma drop_folder_declared_cascade_deletes_entries (fid : UUID) (d : Database) :
  forall e, In e (password_entries (drop_folder Folder.password_entries fid d)) ->
            In e (password_entries d) /\ PasswordEntry.folder_id e <> Some fid.
Proof.
  unfold drop_folder, orm_cascade_entries, fk_ondelete_entries; simpl. intros e He.
  apply in_map_iff in He as [e0 [E He0]].
  apply filter_In in He0 as [Hin Hnot].
  apply negb_true_iff in Hnot. rewrite Hnot in E. subst e0.
  split; [assumption|]. intros C. unfold in_folder in Hnot.
  rewrite C in Hnot. simpl in Hnot. rewrite N.eqb_refl in Hnot. discriminate.
Qed.

(** C1 fails on the code: deleting folder 10 of user 1, which holds the
    entry 100, answers [True] and removes the folder, and the entry is
    deleted with it instead of surviving with its folder reference cleared;
    the entry outside the folder is the only one left. *)
Theorem delete_folder_deletes_its_entries :
  fst (delete_folder 10 1 (open Sample.db)) = Ok true /\
  has_folder 10 (stored (snd (delete_folder 10 1 (open Sample.db)))) = false /\
  find_entry 100 Sample.db = Some Sample.gmail /\
  find_entry 100 (stored (snd (delete_folder 10 1 (open Sample.db)))) = None /\
  password_entries (stored (snd (delete_folder 10 1 (open Sample.db)))) = [Sample.bank].
Proof. vm_compute. repeat split. Qed.

Section UpdateShape.
Context {R X : Type} (table : Database -> list X) (p : X -> bool)
        (changed : X -> Instance) (lookup : X -> Database -> option R).

#[local] Arguments flush_one : simpl never.

#[local] Abbreviation method :=
  (try_except
     (x <- query_first table p ;;
      match x with
      | None => ret None
      | Some x =>
        db_modified (changed x) ;;
        db_commit ;;
        y <- db_refresh (lookup x) ;;
        ret (Some y)
      end)
     rollback_and_reraise).

Lemma update_method_open (d : Database) :
  method (open d) =
  match find p (table d) with
  | None => (Ok None, mkSession d [] [] [Returned Query])
  | Some x =>
    match flush_one (Dirty (changed x)) d with
    | Raise (Sql e) =>
      (Raise (Sql e), mkSession d [] [] [Returned Query; Failed Commit (Sql e); RolledBack])
    | Raise y =>
      (Raise y, mkSession d [Dirty (changed x)] [] [Returned Query; Failed Commit y])
    | Ok d' =>
      match lookup x d' with
      | Some row =>
        (Ok (Some row),
         mkSession d' [] [] [Returned Query; Returned Commit; Returned Refresh])
      | None =>
        (Raise (Sql InvalidRequestError),
         mkSession d' [] []
           [Returned Query; Returned Commit; Failed Refresh (Sql InvalidRequestError);
            RolledBack])
      end
    end
  end.
Proof.
  unfold try_except, bind, open. rewrite query_first_run. simpl.
  destruct (find p (table d)) as [x|]; simpl; [|reflexivity].
  unfold rollback_and_reraise, db_modified, register,
    db_commit, db_refresh, db_rollback, engine, emit, bind, ret, raise; simpl.
  destruct (flush_one (Dirty (changed x)) d) as [d'|[e|v|c dt]]; simpl; try reflexivity.
  destruct (lookup x d'); reflexivity.
Qed.
End UpdateShape.

Lemma get_folder_by_id_open (F U : UUID) (d : Database) :
  get_folder_by_id F U (open d) =
  (Ok (find (fun f => (Folder.folder_id f =? F) && (Folder.user_id f =? U)) (folders d)),
   mkSession d [] [] [Returned Query]).
Proof. unfold get_folder_by_id, open. rewrite query_first_run. reflexivity. Qed.

Lemma get_entry_by_id_open (E U : UUID) (d : Database) :
  get_entry_by_id E U (open d) =
  (Ok (find (fun e => (PasswordEntry.entry_id e =? E) && (PasswordEntry.user_id e =? U))
         (password_entries d)),
   mkSession d [] [] [Returned Query]).
Proof. unfold get_entry_by_id, open. rewrite query_first_run. reflexivity. Qed.

Lemma scoped_find_some {R} (key owner : R -> UUID) (l : list R) (k U : UUID) (a : R) :
  find (fun x => (key x =? k) && (owner x =? U)) l = Some a ->
  In a l /\ key a = k /\ owner a = U.
Proof.
  intros H. apply find_some in H as [Hin Hp].
  apply andb_prop in Hp as [Hk Ho]. apply N.eqb_eq in Hk, Ho. auto.
Qed.

(** Flushing a renamed folder rewrites its row and nothing else. *)
Lemma update_folder_row_rename (d : Database) (f : Folder.t) (N : string) :
  pk_unique d = true -> In f (folders d) ->
  text_ok (folder_columns (Folder.mk (Folder.folder_id f) (Folder.user_id f) N)) = true ->
  let f' := Folder.mk (Folder.folder_id f) (Folder.user_id f) N in
  update_folder_row f' d = Ok (with_folder f' d) /\
  find_folder (Folder.folder_id f) (with_folder f' d) = Some f'.
Proof.
  intros Hpk Hin Htext f'. apply pk_unique_folders in Hpk.
  pose proof (distinct_find Folder.folder_id _ f Hpk Hin) as Hfind.
  assert (Hex : existsb (fun x => Folder.folder_id x =? Folder.folder_id f) (folders d) = true)
    by (apply find_existsb; eauto).
  split.
  - unfold update_folder_row, find_folder. simpl. rewrite Hfind.
    destruct (folder_eq_dec f f') as [E|_].
    + f_equal. unfold with_folder. rewrite <- E.
      rewrite (map_replace_id Folder.folder_id _ f Hpk Hin).
      destruct d; reflexivity.
    + rewrite (text_ok_changed _ _ Htext). simpl. rewrite N.eqb_refl. reflexivity.
  - unfold find_folder, with_folder; simpl.
    apply (find_map_replace Folder.folder_id); auto.
Qed.

(** Flushing a folder renamed to a text with a NUL in it is refused. *)
Lemma update_folder_row_nul (d : Database) (f : Folder.t) (N : string) :
  pk_unique d = true -> In f (folders d) ->
  has_nul N = true -> Folder.name f <> N ->
  update_folder_row (Folder.mk (Folder.folder_id f) (Folder.user_id f) N) d =
  Raise (Val NulInText).
Proof.
  intros Hpk Hin Hnul Hnew. apply pk_unique_folders in Hpk.
  pose proof (distinct_find Folder.folder_id _ f Hpk Hin) as Hfind.
  unfold update_folder_row, find_folder. simpl. rewrite Hfind.
  destruct (folder_eq_dec _ _) as [E|_].
  { exfalso. apply Hnew. rewrite E. reflexivity. }
  unfold changed_columns, folder_columns. simpl.
  destruct (String.eqb (Folder.name f) N) eqn:E.
  { apply String.eqb_eq in E. contradiction. }
  simpl. unfold check_text. simpl. rewrite Hnul. reflexivity.
Qed.

(** C8, against the claim as it stands: the new name is not stored whatever
    it is.  A name with a NUL character for a folder the caller owns stops
    the commit with the driver's [ValueError]: the method raises instead of
    answering the folder, and the stored name is the old one. *)
Lemma update_folder_nul_name_not_stored :
  fst (get_folder_by_id 10 1 (open Sample.db)) = Ok (Some Sample.work) /\
  fst (update_folder 10 1 (FolderUpdate.mk Sample.text_with_nul) (open Sample.db)) =
    Raise (Val NulInText) /\
  find_folder 10
    (stored (snd (update_folder 10 1 (FolderUpdate.mk Sample.text_with_nul)
                    (open Sample.db)))) = Some Sample.work.
Proof. vm_compute. repeat split. Qed.

(** C8, as the code has it: [update_folder] first fetches the folder under
    the (folder id and owner id) filter.  When the fetch finds nothing the
    method answers [None] after that single read and the stored database is
    unchanged.  When it finds the folder and the new name can be stored (no
    NUL character, at most 100 characters), it stores the folder under the
    new name, with the same id and owner, leaves every other row as it was,
    and answers the stored folder.  A new name with a NUL character that
    differs from the stored one is refused at the commit: the method raises
    the driver's [ValueError], nothing is stored and the method calls no
    rollback. *)
Theorem update_folder_scoped
    (d : Database) (F U : UUID) (folder_data : FolderUpdate.t) :
  pk_unique d = true ->
  (fst (get_folder_by_id F U (open d)) = Ok None ->
     update_folder F U folder_data (open d) =
     (Ok None, mkSession d [] [] [Returned Query])) /\
  (forall f, fst (get_folder_by_id F U (open d)) = Ok (Some f) ->
     text_ok (folder_columns (Folder.mk F U (FolderUpdate.name folder_data))) = true ->
     let f' := Folder.mk F U (FolderUpdate.name folder_data) in
     update_folder F U folder_data (open d) =
     (Ok (Some f'),
      mkSession (with_folder f' d) [] []
        [Returned Query; Returned Commit; Returned Refresh])) /\
  (forall f, fst (get_folder_by_id F U (open d)) = Ok (Some f) ->
     has_nul (FolderUpdate.name folder_data) = true ->
     Folder.name f <> FolderUpdate.name folder_data ->
     fst (update_folder F U folder_data (open d)) = Raise (Val NulInText) /\
     stored (snd (update_folder F U folder_data (open d))) = d /\
     log (snd (update_folder F U folder_data (open d))) =
       [Returned Query; Failed Commit (Val NulInText)]).
Proof.
  intros Hpk. rewrite get_folder_by_id_open. simpl.
  unfold update_folder, get_folder_by_id. rewrite update_method_open.
  split; [|split].
  - intros H. injection H as H. rewrite H. reflexivity.
  - intros f H Htext. injection H as H. rewrite H.
    destruct (scoped_find_some _ _ _ _ _ _ H) as [Hin [HF HU]].
    destruct (update_folder_row_rename d f (FolderUpdate.name folder_data) Hpk Hin Htext)
      as [Hflush Hlook].
    cbv zeta in Hflush, Hlook. rewrite HF, HU in Hflush, Hlook.
    cbv zeta. rewrite HF, HU.
    unfold flush_one. rewrite Hflush. cbn [Folder.folder_id].
    rewrite Hlook. reflexivity.
  - intros f H Hnul Hnew. injection H as H. rewrite H.
    destruct (scoped_find_some _ _ _ _ _ _ H) as [Hin [HF HU]].
    pose proof (update_folder_row_nul d f (FolderUpdate.name folder_data) Hpk Hin Hnul Hnew)
      as Hflush.
    unfold flush_one. rewrite Hflush. repeat split.
Qed.

Lemma update_folder_scoped_witness :
  update_folder 10 1 (FolderUpdate.mk "Office") (open Sample.db) =
  (Ok (Some (Folder.mk 10 1 "Office")),
   mkSession (with_folder (Folder.mk 10 1 "Office") Sample.db) [] []
     [Returned Query; Returned Commit; Returned Refresh]) /\
  update_folder 10 2 (FolderUpdate.mk "Office") (open Sample.db) =
  (Ok None, mkSession Sample.db [] [] [Returned Query]) /\
  fst (update_folder 10 1 (FolderUpdate.mk Sample.text_with_nul) (open Sample.db)) =
    Raise (Val NulInText) /\
  stored (snd (update_folder 10 1 (FolderUpdate.mk Sample.text_with_nul) (open Sample.db))) =
    Sample.db /\
  log (snd (update_folder 10 1 (FolderUpdate.mk Sample.text_with_nul) (open Sample.db))) =
    [Returned Query; Failed Commit (Val NulInText)].
Proof.
  split; [|split].
  - apply (proj1 (proj2 (update_folder_scoped Sample.db 10 1 (FolderUpdate.mk "Office")
                           eq_refl))
             Sample.work).
    + reflexivity.
    + reflexivity.
  - apply (proj1 (update_folder_scoped Sample.db 10 2 (FolderUpdate.mk "Office") eq_refl)).
    reflexivity.
  - apply (proj2 (proj2 (update_folder_scoped Sample.db 10 1
                           (FolderUpdate.mk Sample.text_with_nul) eq_refl))
             Sample.work).
    + reflexivity.
    + reflexivity.
    + discriminate.
Defined.

(** ** Password entries *)

Section CreateShape.
Context {R : Type} (o : Instance) (lookup : Database -> option R).

#[local] Arguments flush_one : simpl never.

Lemma create_method_open (d : Database) :
  try_except (db_add o ;; db_commit ;; db_refresh lookup) rollback_and_reraise (open d) =
  match flush_one (New o) d with
  | Raise (Sql e) => (Raise (Sql e), mkSession d [] [] [Failed Commit (Sql e); RolledBack])
  | Raise y => (Raise y, mkSession d [New o] [] [Failed Commit y])
  | Ok d' =>
    match lookup d' with
    | Some row => (Ok row, mkSession d' [] [] [Returned Commit; Returned Refresh])
    | None =>
      (Raise (Sql InvalidRequestError),
       mkSession d' [] []
         [Returned Commit; Failed Refresh (Sql InvalidRequestError); RolledBack])
    end
  end.
Proof.
  unfold_session; simpl.
  destruct (flush_one (New o) d) as [d'|[e|v|c dt]]; simpl; try reflexivity.
  destruct (lookup d'); reflexivity.
Qed.
End CreateShape.

Lemma find_app_fresh {R} (p : R -> bool) (l : list R) (x : R) :
  existsb p l = false -> p x = true -> find p (l ++ [x]) = Some x.
Proof.
  induction l as [|y l IH]; simpl; intros H Hx.
  - rewrite Hx. reflexivity.
  - apply orb_false_elim in H as [Hy Hl]. rewrite Hy. auto.
Qed.

(** The loop of [update_entry] assigns exactly the set fields. *)
Lemma fold_setattr_overlay (p : PasswordEntryUpdate.t) (e : PasswordEntry.t) :
  fold_left setattr (PasswordEntryUpdate.model_dump_exclude_unset p) e = overlay p e.
Proof.
  destruct p as [n u pw w t f], e as [ei eu ef en eun ep ew et].
  destruct n, u, pw, w, t, f; reflexivity.
Qed.

Lemma overlay_empty (e : PasswordEntry.t) : overlay PasswordEntryUpdate.empty e = e.
Proof. destruct e; reflexivity. Qed.

(** Flushing a modified entry that satisfies the constraints rewrites its
    row and nothing else. *)
Lemma update_entry_row_ok (d : Database) (e e' : PasswordEntry.t) :
  pk_unique d = true -> In e (password_entries d) ->
  PasswordEntry.entry_id e' = PasswordEntry.entry_id e ->
  PasswordEntry.user_id e' = PasswordEntry.user_id e ->
  text_ok (entry_columns e') = true ->
  PasswordEntry.name e' <> None ->
  folder_ref_ok (PasswordEntry.folder_id e') d = true ->
  update_entry_row e' d = Ok (with_entry e' d) /\
  find_entry (PasswordEntry.entry_id e') (with_entry e' d) = Some e'.
Proof.
  intros Hpk Hin Hid Hown Htext Hname Hfolder. apply pk_unique_entries in Hpk.
  pose proof (distinct_find PasswordEntry.entry_id _ e Hpk Hin) as Hfind.
  assert (Hex : existsb (fun x => PasswordEntry.entry_id x =? PasswordEntry.entry_id e)
                  (password_entries d) = true)
    by (apply find_existsb; eauto).
  split.
  - unfold update_entry_row, find_entry. rewrite Hid, Hfind.
    destruct (entry_eq_dec e e') as [E|_].
    + f_equal. unfold with_entry. rewrite <- E.
      rewrite (map_replace_id PasswordEntry.entry_id _ e Hpk Hin).
      destruct d; reflexivity.
    + rewrite (text_ok_changed _ _ Htext).
      destruct (PasswordEntry.name e') as [n|]; [|congruence].
      rewrite Hown, N.eqb_refl, Hfolder. simpl.
      rewrite andb_false_r. unfold with_entry. rewrite Hid. reflexivity.
  - unfold find_entry, with_entry; simpl. rewrite Hid.
    apply (find_map_replace PasswordEntry.entry_id); auto.
Qed.

(** C3, as the code has it: for an entry the caller owns and a payload that
    leaves the row acceptable to the database (its text without a NUL
    character and within the width of its columns, its name not NULL, its
    folder reference absent or naming an existing folder), [update_entry]
    stores the entry with exactly the set fields assigned: an unset field
    keeps its value, a set field takes the supplied value, [None] included;
    identity, owner and every other row stay as they were. *)
Theorem update_entry_assigns_set_fields
    (d : Database) (E U : UUID) (entry_data : PasswordEntryUpdate.t) (e : PasswordEntry.t) :
  pk_unique d = true ->
  fst (get_entry_by_id E U (open d)) = Ok (Some e) ->
  text_ok (entry_columns (overlay entry_data e)) = true ->
  assigned (PasswordEntryUpdate.name entry_data) (PasswordEntry.name e) <> None ->
  folder_ref_ok
    (assigned (PasswordEntryUpdate.folder_id entry_data) (PasswordEntry.folder_id e)) d = true ->
  update_entry E U entry_data (open d) =
  (Ok (Some (overlay entry_data e)),
   mkSession (with_entry (overlay entry_data e) d) [] []
     [Returned Query; Returned Commit; Returned Refresh]).
Proof.
  intros Hpk Hget Htext Hname Hfolder.
  rewrite get_entry_by_id_open in Hget. simpl in Hget. injection Hget as Hget.
  destruct (scoped_find_some _ _ _ _ _ _ Hget) as [Hin _].
  unfold update_entry, get_entry_by_id. rewrite update_method_open.
  rewrite Hget, fold_setattr_overlay.
  destruct (update_entry_row_ok d e (overlay entry_data e) Hpk Hin eq_refl eq_refl
              Htext Hname Hfolder)
    as [Hflush Hlook].
  unfold flush_one. rewrite Hflush, Hlook. reflexivity.
Qed.

Lemma update_entry_assigns_set_fields_witness :
  update_entry 100 1
    (PasswordEntryUpdate.mk Unset (Set_ (Some "alice")) Unset Unset (Set_ None) (Set_ None))
    (open Sample.db) =
  (Ok (Some (PasswordEntry.mk 100 1 None (Some "Gmail") (Some "alice") (Some "hunter2") None None)),
   mkSession
     (mkDatabase [Sample.alice; Sample.bob] [Sample.work]
        [PasswordEntry.mk 100 1 None (Some "Gmail") (Some "alice") (Some "hunter2") None None;
         Sample.bank])
     [] [] [Returned Query; Returned Commit; Returned Refresh]).
Proof.
  apply (update_entry_assigns_set_fields Sample.db 100 1
           (PasswordEntryUpdate.mk Unset (Set_ (Some "alice")) Unset Unset (Set_ None) (Set_ None))
           Sample.gmail).
  - reflexivity.
  - reflexivity.
  - reflexivity.
  - simpl. discriminate.
  - reflexivity.
Defined.

(** C3 as stated does not hold for every payload: a payload that sets
    [name] to [None] is refused by the NOT NULL constraint of the column,
    the method raises and the stored name is not overwritten. *)
Lemma update_entry_name_none_rejected :
  ~ (forall (d : Database) (E U : UUID) (p : PasswordEntryUpdate.t) (e : PasswordEntry.t),
       pk_unique d = true ->
       fst (get_entry_by_id E U (open d)) = Ok (Some e) ->
       find_entry E (stored (snd (update_entry E U p (open d)))) = Some (overlay p e)).
Proof.
  intros H.
  specialize (H Sample.db 100 1
                (PasswordEntryUpdate.mk (Set_ None) Unset Unset Unset Unset Unset)
                Sample.gmail eq_refl eq_refl).
  vm_compute in H. discriminate H.
Qed.

(** C10: an update whose payload sets no field finds the caller's entry,
    answers it (not the not-found sentinel) and leaves the stored database,
    the entry's folder reference included, exactly as it was. *)
Theorem update_entry_empty_payload_is_identity
    (d : Database) (E U : UUID) (e : PasswordEntry.t) :
  pk_unique d = true ->
  fst (get_entry_by_id E U (open d)) = Ok (Some e) ->
  update_entry E U PasswordEntryUpdate.empty (open d) =
  (Ok (Some e), mkSession d [] [] [Returned Query; Returned Commit; Returned Refresh]).
Proof.
  intros Hpk Hget.
  rewrite get_entry_by_id_open in Hget. simpl in Hget. injection Hget as Hget.
  destruct (scoped_find_some _ _ _ _ _ _ Hget) as [Hin _].
  apply pk_unique_entries in Hpk.
  pose proof (distinct_find PasswordEntry.entry_id _ e Hpk Hin) as Hfind.
  unfold update_entry, get_entry_by_id. rewrite update_method_open.
  rewrite Hget, fold_setattr_overlay, overlay_empty.
  unfold flush_one, update_entry_row, find_entry. rewrite Hfind.
  destruct (entry_eq_dec e e) as [_|C]; [|congruence].
  rewrite Hfind. reflexivity.
Qed.

Lemma update_entry_empty_payload_is_identity_witness :
  update_entry 100 1 PasswordEntryUpdate.empty (open Sample.db) =
  (Ok (Some Sample.gmail),
   mkSession Sample.db [] [] [Returned Query; Returned Commit; Returned Refresh]).
Proof.
  apply (update_entry_empty_payload_is_identity Sample.db 100 1 Sample.gmail).
  - reflexivity.
  - reflexivity.
Defined.

(** What the INSERT of a new entry does once its text is accepted, its id is
    fresh and its owner exists: the foreign key on [folder_id] decides. *)
Lemma insert_entry_by_folder_ref (d : Database) (e : PasswordEntry.t) :
  text_ok (entry_columns e) = true ->
  PasswordEntry.name e <> None ->
  has_entry (PasswordEntry.entry_id e) d = false ->
  has_user (PasswordEntry.user_id e) d = true ->
  insert_entry e d =
  if folder_ref_ok (PasswordEntry.folder_id e) d
  then Ok (mkDatabase (users d) (folders d) (password_entries d ++ [e]))
  else Raise (Sql (IntegrityError ForeignKeyViolation)).
Proof.
  intros Htext Hname Hfresh Huser. unfold insert_entry.
  rewrite (text_ok_check _ Htext).
  destruct (PasswordEntry.name e); [|congruence].
  rewrite Hfresh, Huser. simpl.
  destruct (folder_ref_ok _ d); reflexivity.
Qed.

(** C9, as the code has it: [create_entry] never compares the owner of the
    folder with the caller.  For an existing user, a fresh entry id and text
    that can be stored (no NUL character, each value within the width of
    its column): when the folder reference is absent or names an existing
    folder, whoever owns it, the entry is stored under the caller with the
    folder reference as supplied; when it names no folder, the foreign key
    refuses the row, the method rolls back and raises the violation, and no
    entry is created. *)
Theorem create_entry_keeps_folder_reference
    (d : Database) (new_id U : UUID) (entry_data : PasswordEntryCreate.t) :
  has_entry new_id d = false ->
  has_user U d = true ->
  text_ok (entry_columns (new_entry new_id U entry_data)) = true ->
  (folder_ref_ok (PasswordEntryCreate.folder_id entry_data) d = true ->
   let e := PasswordEntry.mk new_id U
              (PasswordEntryCreate.folder_id entry_data)
              (Some (PasswordEntryCreate.name entry_data))
              (PasswordEntryCreate.username entry_data)
              (PasswordEntryCreate.password entry_data)
              (PasswordEntryCreate.website_url entry_data)
              (PasswordEntryCreate.notes entry_data) in
   create_entry new_id U entry_data (open d) =
   (Ok e,
    mkSession (mkDatabase (users d) (folders d) (password_entries d ++ [e])) [] []
      [Returned Commit; Returned Refresh])) /\
  (folder_ref_ok (PasswordEntryCreate.folder_id entry_data) d = false ->
   create_entry new_id U entry_data (open d) =
   (Raise (Sql (IntegrityError ForeignKeyViolation)),
    mkSession d [] []
      [Failed Commit (Sql (IntegrityError ForeignKeyViolation)); RolledBack])).
Proof.
  intros Hfresh Huser Htext.
  unfold create_entry. rewrite create_method_open.
  unfold flush_one.
  pose proof (insert_entry_by_folder_ref d (new_entry new_id U entry_data) Htext) as I.
  unfold new_entry in I. cbn [PasswordEntry.name PasswordEntry.entry_id
    PasswordEntry.user_id PasswordEntry.folder_id] in I.
  rewrite I by (congruence || assumption). clear I.
  split; intros Hfolder; rewrite Hfolder; [|reflexivity].
  cbv zeta. unfold find_entry. cbn [password_entries PasswordEntry.entry_id].
  rewrite (find_app_fresh _ _ _ Hfresh) by (simpl; apply N.eqb_refl).
  reflexivity.
Qed.

Lemma create_entry_keeps_folder_reference_witness :
  create_entry 102 2 (PasswordEntryCreate.mk "Shared" None None None None (Some 10))
    (open Sample.db) =
  (Ok (PasswordEntry.mk 102 2 (Some 10) (Some "Shared") None None None None),
   mkSession
     (mkDatabase [Sample.alice; Sample.bob] [Sample.work]
        [Sample.gmail; Sample.bank;
         PasswordEntry.mk 102 2 (Some 10) (Some "Shared") None None None None])
     [] [] [Returned Commit; Returned Refresh]).
Proof.
  apply (create_entry_keeps_folder_reference Sample.db 102 2
           (PasswordEntryCreate.mk "Shared" None None None None (Some 10))).
  - reflexivity.
  - reflexivity.
  - reflexivity.
  - reflexivity.
Defined.

(** C9 as stated does not hold for a folder id that does not exist: the
    foreign key of [password_entries.folder_id] refuses the row, the method
    raises and no entry is created. *)
Lemma create_entry_unknown_folder_rejected :
  ~ (forall (d : Database) (new_id U : UUID) (x : PasswordEntryCreate.t),
       has_entry new_id d = false ->
       has_user U d = true ->
       exists e,
         fst (create_entry new_id U x (open d)) = Ok e /\
         PasswordEntry.user_id e = U /\
         PasswordEntry.folder_id e = PasswordEntryCreate.folder_id x).
Proof.
  intros H.
  destruct (H Sample.db 102 1 (PasswordEntryCreate.mk "Orphan" None None None None (Some 99))
              eq_refl eq_refl) as [e [He _]].
  vm_compute in He. discriminate He.
Qed.

(** ** Listing entries *)

(** C7: [get_all_entries_for_user] with a folder filter returns exactly the
    entries whose owner is [U] and whose folder reference is [F]; without a
    filter it returns exactly the entries owned by [U], whatever their
    folder reference. *)
Theorem get_all_entries_for_user_exact (d : Database) (U F : UUID) :
  (exists l,
     fst (get_all_entries_for_user U (Some F) (open d)) = Ok l /\
     forall e, In e l <->
       In e (password_entries d) /\ PasswordEntry.user_id e = U /\
       PasswordEntry.folder_id e = Some F) /\
  (exists l,
     fst (get_all_entries_for_user U None (open d)) = Ok l /\
     forall e, In e l <->
       In e (password_entries d) /\ PasswordEntry.user_id e = U).
Proof.
  split; eexists; (split; [run; reflexivity|]); intros e; rewrite filter_In.
  - rewrite andb_true_iff, N.eqb_eq, opt_eqb_N_eq. tauto.
  - rewrite N.eqb_eq. tauto.
Qed.

(** ** Ownership scoping of single-row reads *)

(** A row owned by someone else is invisible to the scoped lookup. *)
Lemma scoped_find_other_owner {R} (key owner : R -> UUID) (l : list R) (a : R) (U : UUID) :
  distinct (map key l) = true -> In a l -> owner a <> U ->
  find (fun x => (key x =? key a) && (owner x =? U)) l = None.
Proof.
  intros Hd Ha Hne. apply find_none_existsb.
  apply not_true_is_false. intros E.
  apply existsb_exists in E as [b [Hb Hp]].
  apply andb_prop in Hp as [Hk Ho].
  apply N.eqb_eq in Hk, Ho.
  assert (b = a) by (apply (distinct_inj key l); auto).
  subst b. contradiction.
Qed.

Lemma scoped_find_missing {R} (key owner : R -> UUID) (l : list R) (k U : UUID) :
  existsb (fun x => key x =? k) l = false ->
  find (fun x => (key x =? k) && (owner x =? U)) l = None.
Proof.
  intros H. apply find_none_existsb.
  apply not_true_is_false. intros E.
  apply existsb_exists in E as [b [Hb Hp]].
  apply andb_prop in Hp as [Hk _].
  rewrite (existsb_false_all _ _ H b Hb) in Hk. discriminate.
Qed.

(** C2: an entry that exists under another owner and an entry id that does
    not exist give the caller the same answer, the not-found sentinel:
    under every behaviour of the engine the two calls return the same
    outcome and leave the same session.  The same holds, on its own, for a
    folder under another owner and a folder id that does not exist. *)
Theorem not_found_hides_ownership (d : Database) (U2 : UUID) :
  pk_unique d = true ->
  (forall (e : PasswordEntry.t) (E' : UUID),
     In e (password_entries d) -> PasswordEntry.user_id e <> U2 ->
     has_entry E' d = false ->
     (forall fs,
        get_entry_by_id (PasswordEntry.entry_id e) U2 (open_with fs d) =
        get_entry_by_id E' U2 (open_with fs d)) /\
     fst (get_entry_by_id (PasswordEntry.entry_id e) U2 (open d)) = Ok None) /\
  (forall (f : Folder.t) (F' : UUID),
     In f (folders d) -> Folder.user_id f <> U2 ->
     has_folder F' d = false ->
     (forall fs,
        get_folder_by_id (Folder.folder_id f) U2 (open_with fs d) =
        get_folder_by_id F' U2 (open_with fs d)) /\
     fst (get_folder_by_id (Folder.folder_id f) U2 (open d)) = Ok None).
Proof.
  intros Hpk. split.
  - intros e E' He Hne HE'.
    pose proof (scoped_find_other_owner PasswordEntry.entry_id PasswordEntry.user_id
                  _ e U2 (pk_unique_entries d Hpk) He Hne) as A.
    pose proof (scoped_find_missing PasswordEntry.entry_id PasswordEntry.user_id
                  _ E' U2 HE') as B.
    unfold get_entry_by_id, open, open_with.
    split; intros; rewrite !query_first_run; rewrite ?A, ?B; reflexivity.
  - intros f F' Hf Hnf HF'.
    pose proof (scoped_find_other_owner Folder.folder_id Folder.user_id
                  _ f U2 (pk_unique_folders d Hpk) Hf Hnf) as C.
    pose proof (scoped_find_missing Folder.folder_id Folder.user_id
                  _ F' U2 HF') as D.
    unfold get_folder_by_id, open, open_with.
    split; intros; rewrite !query_first_run; rewrite ?C, ?D; reflexivity.
Qed.

Lemma not_found_hides_ownership_witness :
  (forall fs,
     get_entry_by_id 100 2 (open_with fs Sample.db) =
     get_entry_by_id 555 2 (open_with fs Sample.db)) /\
  fst (get_entry_by_id 100 2 (open Sample.db)) = Ok None /\
  (forall fs,
     get_folder_by_id 10 2 (open_with fs Sample.db) =
     get_folder_by_id 777 2 (open_with fs Sample.db)) /\
  fst (get_folder_by_id 10 2 (open Sample.db)) = Ok None.
Proof.
  pose proof (not_found_hides_ownership Sample.db 2 eq_refl) as [entries folders].
  destruct (entries Sample.gmail 555) as [A B].
  - simpl; auto.
  - simpl; lia.
  - reflexivity.
  - destruct (folders Sample.work 777) as [C D].
    + simpl; auto.
    + simpl; lia.
    + reflexivity.
    + exact (conj A (conj B (conj C D))).
Defined.

(** ** The primary-key constraint is an invariant of the services *)

Section Distinct.
Context {R : Type} (key : R -> UUID).

Lemma existsb_map_key (k : UUID) (l : list R) :
  existsb (N.eqb k) (map key l) = existsb (fun x => key x =? k) l.
Proof.
  induction l as [|x l IH]; simpl; [reflexivity|].
  rewrite IH, (N.eqb_sym k). reflexivity.
Qed.

Lemma distinct_app_fresh (l : list R) (x : R) :
  distinct (map key l) = true ->
  existsb (fun y => key y =? key x) l = false ->
  distinct (map key (l ++ [x])) = true.
Proof.
  induction l as [|y l IH]; simpl; intros Hd Hx; [reflexivity|].
  apply andb_prop in Hd as [Hy Hl].
  apply orb_false_elim in Hx as [Hyx Hlx].
  rewrite IH by assumption. rewrite andb_true_r.
  rewrite negb_true_iff in *. rewrite existsb_map_key in *.
  rewrite existsb_app, Hy. simpl.
  rewrite orb_false_r, N.eqb_sym. assumption.
Qed.

Lemma distinct_filter (p : R -> bool) (l : list R) :
  distinct (map key l) = true -> distinct (map key (filter p l)) = true.
Proof.
  induction l as [|y l IH]; simpl; intros Hd; [reflexivity|].
  apply andb_prop in Hd as [Hy Hl].
  destruct (p y); simpl; [|auto].
  rewrite IH by assumption. rewrite andb_true_r.
  rewrite negb_true_iff in *. rewrite existsb_map_key in *.
  apply not_true_is_false. intros E.
  apply existsb_exists in E as [z [Hz Hk]].
  apply filter_In in Hz as [Hz _].
  assert (existsb (fun x => key x =? key y) l = true)
    by (apply existsb_exists; eauto).
  congruence.
Qed.

Lemma map_key_replace (l : list R) (a : R) :
  map key (map (fun x => if key x =? key a then a else x) l) = map key l.
Proof.
  rewrite map_map. apply map_ext. intros x.
  destruct (key x =? key a) eqn:E; [|reflexivity].
  apply N.eqb_eq in E. congruence.
Qed.
End Distinct.

Lemma pk_unique_intro (d : Database) :
  distinct (map User.user_id (users d)) = true ->
  distinct (map Folder.folder_id (folders d)) = true ->
  distinct (map PasswordEntry.entry_id (password_entries d)) = true ->
  pk_unique d = true.
Proof. unfold pk_unique. intros -> -> ->. reflexivity. Qed.

Lemma map_entry_id_clear (fid : UUID) (es : list PasswordEntry.t) :
  map PasswordEntry.entry_id
    (map (fun e => if in_folder fid e then clear_folder e else e) es) =
  map PasswordEntry.entry_id es.
Proof.
  rewrite map_map. apply map_ext. intros e.
  destruct (in_folder fid e); [|reflexivity]. destruct e; reflexivity.
Qed.

Lemma drop_folder_pk_unique (c : Cascade) (fid : UUID) (d : Database) :
  pk_unique d = true -> pk_unique (drop_folder c fid d) = true.
Proof.
  intros H. apply pk_unique_intro; unfold drop_folder; simpl.
  - apply pk_unique_users; assumption.
  - apply distinct_filter, pk_unique_folders; assumption.
  - unfold fk_ondelete_entries, orm_cascade_entries; simpl.
    rewrite map_entry_id_clear.
    destruct (cascades_delete c).
    + apply distinct_filter, pk_unique_entries; assumption.
    + rewrite map_entry_id_clear. apply pk_unique_entries; assumption.
Qed.

Lemma fold_drop_folder_pk_unique (c : Cascade) (fs : list Folder.t) (d : Database) :
  pk_unique d = true ->
  pk_unique (fold_left (fun acc f => drop_folder c (Folder.folder_id f) acc) fs d) = true.
Proof.
  revert d. induction fs as [|f fs IH]; intros d H; simpl; [assumption|].
  apply IH, drop_folder_pk_unique, H.
Qed.

(** Every statement the session flushes keeps primary keys unique. *)
Lemma flush_one_pk_unique (p : Pending) (d d' : Database) :
  pk_unique d = true -> flush_one p d = Ok d' -> pk_unique d' = true.
Proof.
  intros H.
  pose proof (pk_unique_users d H) as Hu.
  pose proof (pk_unique_folders d H) as Hf.
  pose proof (pk_unique_entries d H) as He.
  destruct p as [[u|f|e]|[u|f|e]|[u|f|e]]; simpl.
  - unfold insert_user. destruct (check_text _); [discriminate|].
    destruct (has_user (User.user_id u) d) eqn:Hk; [discriminate|].
    destruct (username_taken (User.username u) d); [discriminate|].
    intros E; injection E as <-. apply pk_unique_intro; simpl; auto.
    apply distinct_app_fresh; assumption.
  - unfold insert_folder. destruct (check_text _); [discriminate|].
    destruct (has_folder (Folder.folder_id f) d) eqn:Hk; [discriminate|].
    destruct (negb (has_user (Folder.user_id f) d)); [discriminate|].
    intros E; injection E as <-. apply pk_unique_intro; simpl; auto.
    apply distinct_app_fresh; assumption.
  - unfold insert_entry. destruct (check_text _); [discriminate|].
    destruct (PasswordEntry.name e); [|discriminate].
    destruct (has_entry (PasswordEntry.entry_id e) d) eqn:Hk; [discriminate|].
    destruct (negb (has_user (PasswordEntry.user_id e) d)); [discriminate|].
    destruct (negb (folder_ref_ok (PasswordEntry.folder_id e) d)); [discriminate|].
    intros E; injection E as <-. apply pk_unique_intro; simpl; auto.
    apply distinct_app_fresh; assumption.
  - intros E; injection E as <-. assumption.
  - unfold update_folder_row.
    destruct (find_folder (Folder.folder_id f) d) as [old|]; [|discriminate].
    destruct (folder_eq_dec old f); [intros E; injection E as <-; assumption|].
    destruct (check_text _); [discriminate|].
    destruct (negb (Folder.user_id old =? Folder.user_id f) &&
              negb (has_user (Folder.user_id f) d)); [discriminate|].
    intros E; injection E as <-. apply pk_unique_intro; simpl; auto.
    rewrite (map_key_replace Folder.folder_id). assumption.
  - unfold update_entry_row.
    destruct (find_entry (PasswordEntry.entry_id e) d) as [old|]; [|discriminate].
    destruct (entry_eq_dec old e); [intros E; injection E as <-; assumption|].
    destruct (check_text _); [discriminate|].
    destruct (PasswordEntry.name e); [|discriminate].
    destruct (negb (PasswordEntry.user_id old =? PasswordEntry.user_id e) &&
              negb (has_user (PasswordEntry.user_id e) d)); [discriminate|].
    destruct (negb (opt_eqb N.eqb (PasswordEntry.folder_id old) (PasswordEntry.folder_id e)) &&
              negb (folder_ref_ok (PasswordEntry.folder_id e) d)); [discriminate|].
    intros E; injection E as <-. apply pk_unique_intro; simpl; auto.
    rewrite (map_key_replace PasswordEntry.entry_id). assumption.
  - unfold delete_user_row.
    destruct (has_user (User.user_id u) d); [|discriminate].
    intros E; injection E as <-.
    pose proof (fold_drop_folder_pk_unique Folder.password_entries
                  (filter (fun f => Folder.user_id f =? User.user_id u) (folders d)) d H) as G.
    apply pk_unique_intro; simpl; apply distinct_filter.
    + apply pk_unique_users; assumption.
    + apply pk_unique_folders; assumption.
    + apply pk_unique_entries; assumption.
  - unfold delete_folder_row, delete_folder_row_with.
    destruct (has_folder (Folder.folder_id f) d); [|discriminate].
    intros E; injection E as <-. apply drop_folder_pk_unique; assumption.
  - unfold delete_entry_row.
    destruct (has_entry (PasswordEntry.entry_id e) d); [|discriminate].
    intros E; injection E as <-. apply pk_unique_intro; simpl; auto.
    apply distinct_filter; assumption.
Qed.

Section OneFlush.
Context {R : Type}.

#[local] Arguments flush_one : simpl never.

Lemma create_flushes_once (o : Instance) (lookup : Database -> option R) (s : Session) :
  unit_of_work s = [] ->
  flushes_at_most_once s
    (try_except (db_add o ;; db_commit ;; db_refresh lookup) rollback_and_reraise s).
Proof.
  destruct s as [d u fs lg]; simpl; intros ->.
  unfold flushes_at_most_once, try_except, rollback_and_reraise, db_add, register,
    db_commit, db_refresh, db_rollback, engine, emit, bind, ret, raise; simpl.
  destruct (next_fault fs) as [e|]; simpl; [left; reflexivity|].
  destruct (flush_one (New o) d) as [d'|y] eqn:F; simpl; [|left; destruct y; reflexivity].
  right. exists (New o), d'. split; [assumption|].
  destruct (next_fault (tl fs)) as [e|]; simpl; [reflexivity|].
  destruct (lookup d'); reflexivity.
Qed.

Lemma update_flushes_once {X} (table : Database -> list X) (p : X -> bool)
    (changed : X -> Instance) (lookup : X -> Database -> option R) (s : Session) :
  unit_of_work s = [] ->
  flushes_at_most_once s
    (try_except
       (x <- query_first table p ;;
        match x with
        | None => ret None
        | Some x =>
          db_modified (changed x) ;;
          db_commit ;;
          y <- db_refresh (lookup x) ;;
          ret (Some y)
        end)
       rollback_and_reraise s).
Proof.
  destruct s as [d u fs lg]; simpl; intros ->.
  unfold flushes_at_most_once, try_except, bind. rewrite query_first_run.
  destruct (next_fault fs) as [e|]; simpl; [left; reflexivity|].
  destruct (find p (table d)) as [x|]; simpl; [|left; reflexivity].
  unfold rollback_and_reraise, db_modified, register,
    db_commit, db_refresh, db_rollback, engine, emit, bind, ret, raise; simpl.
  destruct (next_fault (tl fs)) as [e|]; simpl; [left; reflexivity|].
  destruct (flush_one (Dirty (changed x)) d) as [d'|y] eqn:F; simpl;
    [|left; destruct y; reflexivity].
  right. exists (Dirty (changed x)), d'. split; [assumption|].
  destruct (next_fault (tl (tl fs))) as [e|]; simpl; [reflexivity|].
  destruct (lookup x d'); reflexivity.
Qed.

Lemma delete_flushes_once (table : Database -> list R) (p : R -> bool)
    (gone : R -> Instance) (s : Session) :
  unit_of_work s = [] ->
  flushes_at_most_once s
    (try_except
       (x <- query_first table p ;;
        match x with
        | None => ret false
        | Some x => db_delete (gone x) ;; db_commit ;; ret true
        end)
       rollback_and_reraise s).
Proof.
  destruct s as [d u fs lg]; simpl; intros ->.
  unfold flushes_at_most_once, try_except, bind. rewrite query_first_run.
  destruct (next_fault fs) as [e|]; simpl; [left; reflexivity|].
  destruct (find p (table d)) as [x|]; simpl; [|left; reflexivity].
  unfold rollback_and_reraise, db_delete, register,
    db_commit, db_rollback, engine, emit, bind, ret, raise; simpl.
  destruct (next_fault (tl fs)) as [e|]; simpl; [left; reflexivity|].
  destruct (flush_one (Deleted (gone x)) d) as [d'|y] eqn:F; simpl;
    [|left; destruct y; reflexivity].
  right. exists (Deleted (gone x)), d'. auto.
Qed.
End OneFlush.

Lemma flushes_at_most_once_map {A B} (m : M A) (f : A -> B) (s : Session) :
  flushes_at_most_once s (m s) -> flushes_at_most_once s ((x <- m ;; ret (f x)) s).
Proof.
  rewrite map_reply. destruct (m s) as [[a|e] s']; exact (fun H => H).
Qed.

Lemma mutations_flush_at_most_once (m : Mutation) (s : Session) :
  unit_of_work s = [] -> flushes_at_most_once s (perform m s).
Proof.
  intros Hclean.
  destruct m; unfold perform; apply flushes_at_most_once_map.
  - apply create_flushes_once; assumption.
  - apply delete_flushes_once; assumption.
  - apply create_flushes_once; assumption.
  - apply (update_flushes_once folders _
             (fun x => IFolder (Folder.mk (Folder.folder_id x) (Folder.user_id x)
                                  (FolderUpdate.name folder_data)))
             (fun x => find_folder (Folder.folder_id x))); assumption.
  - apply delete_flushes_once; assumption.
  - apply create_flushes_once; assumption.
  - apply (update_flushes_once password_entries _
             (fun x => IEntry (fold_left setattr
                                 (PasswordEntryUpdate.model_dump_exclude_unset entry_data) x))
             (fun x => find_entry (PasswordEntry.entry_id
                                     (fold_left setattr
                                        (PasswordEntryUpdate.model_dump_exclude_unset entry_data) x))));
      assumption.
  - apply delete_flushes_once; assumption.
Qed.

(** Whatever a mutating operation does and however it ends, a database with
    unique primary keys is left with unique primary keys, so the constraint
    assumed by the statements above holds in every state the services can
    reach from the empty database. *)
Lemma pk_unique_preserved (m : Mutation) (s : Session) :
  unit_of_work s = [] ->
  pk_unique (stored s) = true ->
  pk_unique (stored (snd (perform m s))) = true.
Proof.
  intros Hclean Hpk.
  destruct (mutations_flush_at_most_once m s Hclean) as [Same|[p [d' [F Hs]]]].
  - rewrite Same. assumption.
  - rewrite Hs. apply (flush_one_pk_unique p (stored s)); assumption.
Qed.

Lemma pk_unique_empty : pk_unique (mkDatabase [] [] []) = true.
Proof. reflexivity. Qed.

(** * Further properties of the services *)

(** ** Creating and finding again *)

Lemma existsb_app_fresh {R} (p : R -> bool) (l : list R) (x : R) :
  existsb p l = false -> p x = false -> find p (l ++ [x]) = None.
Proof.
  intros Hl Hx. apply find_none_existsb.
  rewrite existsb_app, Hl. simpl. rewrite Hx. reflexivity.
Qed.

Lemma get_user_by_id_open (U : UUID) (d : Database) :
  get_user_by_id U (open d) =
  (Ok (find (fun u => User.user_id u =? U) (users d)), mkSession d [] [] [Returned Query]).
Proof. unfold get_user_by_id, open. rewrite query_first_run. reflexivity. Qed.

Lemma get_user_by_username_open (n : string) (d : Database) :
  has_nul n = false ->
  get_user_by_username n (open d) =
  (Ok (find (fun u => String.eqb (User.username u) n) (users d)),
   mkSession d [] [] [Returned Query]).
Proof.
  intros H. unfold get_user_by_username, open. rewrite H, query_first_run. reflexivity.
Qed.

Lemma text_ok_username (u : User.t) :
  text_ok (user_columns u) = true -> has_nul (User.username u) = false.
Proof.
  unfold text_ok, user_columns. cbn [forallb snd nul_in]. intros H.
  apply andb_prop in H as [H _]. apply andb_prop in H as [H _].
  apply negb_true_iff in H. assumption.
Qed.

(** A user created under a fresh id and a free username, with text that can
    be stored (no NUL character, the username within 50 and the password
    within 255 characters), is stored with the submitted password verbatim
    in [password_hash], and is found again both by the id and by the
    username. *)
Theorem create_user_then_lookup (d : Database) (new_id : UUID) (user_data : UserCreate.t) :
  has_user new_id d = false ->
  username_taken (UserCreate.username user_data) d = false ->
  text_ok (user_columns (new_user new_id user_data)) = true ->
  let u := User.mk new_id (UserCreate.username user_data) (UserCreate.password user_data) in
  let d' := mkDatabase (users d ++ [u]) (folders d) (password_entries d) in
  create_user new_id user_data (open d) =
    (Ok u, mkSession d' [] [] [Returned Commit; Returned Refresh]) /\
  fst (get_user_by_id new_id (open d')) = Ok (Some u) /\
  fst (get_user_by_username (UserCreate.username user_data) (open d')) = Ok (Some u).
Proof.
  intros Hid Hname Htext u d'. split; [|split].
  - rewrite create_user_run. unfold insert_user.
    rewrite (text_ok_check _ Htext). cbn [new_user User.user_id User.username].
    rewrite Hid, Hname. unfold find_user. cbn [users].
    rewrite (find_app_fresh _ _ _ Hid) by (simpl; apply N.eqb_refl).
    reflexivity.
  - rewrite get_user_by_id_open. cbn [fst users d'].
    rewrite (find_app_fresh _ _ _ Hid) by (simpl; apply N.eqb_refl).
    reflexivity.
  - rewrite get_user_by_username_open by exact (text_ok_username _ Htext).
    cbn [fst users d'].
    rewrite (find_app_fresh _ _ _ Hname) by (simpl; apply String.eqb_refl).
    reflexivity.
Qed.

Lemma create_user_then_lookup_witness :
  let u := User.mk 3 "carol" "s3cret!" in
  let d' := mkDatabase [Sample.alice; Sample.bob; u] [Sample.work] [Sample.gmail; Sample.bank] in
  create_user 3 (UserCreate.mk "carol" "s3cret!") (open Sample.db) =
    (Ok u, mkSession d' [] [] [Returned Commit; Returned Refresh]) /\
  fst (get_user_by_id 3 (open d')) = Ok (Some u) /\
  fst (get_user_by_username "carol" (open d')) = Ok (Some u).
Proof.
  apply (create_user_then_lookup Sample.db 3 (UserCreate.mk "carol" "s3cret!")).
  - reflexivity.
  - reflexivity.
  - reflexivity.
Defined.

Lemma get_all_folders_for_user_open (U : UUID) (d : Database) :
  get_all_folders_for_user U (open d) =
  (Ok (filter (fun f => Folder.user_id f =? U) (folders d)),
   mkSession d [] [] [Returned Query]).
Proof. reflexivity. Qed.

(** A folder created for an existing user under a fresh id, with a name that
    can be stored (no NUL character, at most 100 characters), is stored
    with the caller as owner; the owner finds it by id and in the folder
    list, any other user gets the not-found answer for the same id. *)
Theorem create_folder_then_visible
    (d : Database) (new_id U : UUID) (folder_data : FolderCreate.t) :
  has_folder new_id d = false ->
  has_user U d = true ->
  text_ok (folder_columns (new_folder new_id U folder_data)) = true ->
  let f := Folder.mk new_id U (FolderCreate.name folder_data) in
  let d' := mkDatabase (users d) (folders d ++ [f]) (password_entries d) in
  create_folder new_id U folder_data (open d) =
    (Ok f, mkSession d' [] [] [Returned Commit; Returned Refresh]) /\
  fst (get_folder_by_id new_id U (open d')) = Ok (Some f) /\
  (forall U2, U2 <> U -> fst (get_folder_by_id new_id U2 (open d')) = Ok None) /\
  (exists l, fst (get_all_folders_for_user U (open d')) = Ok l /\ In f l).
Proof.
  intros Hid Huser Htext f d'. split; [|split; [|split]].
  - unfold create_folder. rewrite create_method_open.
    unfold flush_one, insert_folder. unfold new_folder in Htext.
    rewrite (text_ok_check _ Htext). cbn [Folder.folder_id Folder.user_id].
    rewrite Hid, Huser. unfold find_folder. cbn [negb folders].
    rewrite (find_app_fresh _ _ _ Hid) by (simpl; apply N.eqb_refl).
    reflexivity.
  - rewrite get_folder_by_id_open. cbn [fst folders d'].
    rewrite find_app_fresh; [reflexivity| |simpl; rewrite !N.eqb_refl; reflexivity].
    apply not_true_is_false. intros E. apply existsb_exists in E as [g [Hg Hp]].
    apply andb_prop in Hp as [Hk _].
    rewrite (existsb_false_all _ _ Hid g Hg) in Hk. discriminate.
  - intros U2 Hne. rewrite get_folder_by_id_open. cbn [fst folders d'].
    rewrite existsb_app_fresh; [reflexivity | |].
    + apply not_true_is_false. intros E. apply existsb_exists in E as [g [Hg Hp]].
      apply andb_prop in Hp as [Hk _].
      rewrite (existsb_false_all _ _ Hid g Hg) in Hk. discriminate.
    + simpl. rewrite N.eqb_refl. simpl. apply N.eqb_neq. congruence.
  - eexists. split; [rewrite get_all_folders_for_user_open; reflexivity|].
    apply filter_In. split; [cbn [folders d']; apply in_or_app; right; left; reflexivity|].
    simpl. apply N.eqb_refl.
Qed.

Lemma create_folder_then_visible_witness :
  let f := Folder.mk 11 2 "Home" in
  let d' := mkDatabase [Sample.alice; Sample.bob] [Sample.work; f] [Sample.gmail; Sample.bank] in
  create_folder 11 2 (FolderCreate.mk "Home") (open Sample.db) =
    (Ok f, mkSession d' [] [] [Returned Commit; Returned Refresh]) /\
  fst (get_folder_by_id 11 2 (open d')) = Ok (Some f) /\
  (forall U2, U2 <> 2 -> fst (get_folder_by_id 11 U2 (open d')) = Ok None) /\
  (exists l, fst (get_all_folders_for_user 2 (open d')) = Ok l /\ In f l).
Proof.
  apply (create_folder_then_visible Sample.db 11 2 (FolderCreate.mk "Home")).
  - reflexivity.
  - reflexivity.
  - reflexivity.
Defined.

(** An owner id that names no user cannot own anything: creating a folder
    or an entry for it, under a fresh id and with text that can be stored,
    is refused by the foreign key on [user_id]; the method rolls back and
    raises the integrity error, and the database is unchanged.  (Text that
    cannot be stored stops the statement before the foreign key is looked
    at.) *)
Theorem create_for_unknown_user_rejected
    (d : Database) (new_id U : UUID)
    (folder_data : FolderCreate.t) (entry_data : PasswordEntryCreate.t) :
  has_user U d = false ->
  (has_folder new_id d = false ->
   text_ok (folder_columns (new_folder new_id U folder_data)) = true ->
   create_folder new_id U folder_data (open d) =
     (Raise (Sql (IntegrityError ForeignKeyViolation)),
      mkSession d [] []
        [Failed Commit (Sql (IntegrityError ForeignKeyViolation)); RolledBack])) /\
  (has_entry new_id d = false ->
   text_ok (entry_columns (new_entry new_id U entry_data)) = true ->
   create_entry new_id U entry_data (open d) =
     (Raise (Sql (IntegrityError ForeignKeyViolation)),
      mkSession d [] []
        [Failed Commit (Sql (IntegrityError ForeignKeyViolation)); RolledBack])).
Proof.
  intros Huser. split.
  - intros Hf Htext. unfold create_folder. rewrite create_method_open.
    unfold flush_one, insert_folder. unfold new_folder in Htext.
    rewrite (text_ok_check _ Htext). cbn [Folder.folder_id Folder.user_id].
    rewrite Hf, Huser. reflexivity.
  - intros He Htext. unfold create_entry. rewrite create_method_open.
    unfold flush_one, insert_entry. unfold new_entry in Htext.
    rewrite (text_ok_check _ Htext).
    cbn [PasswordEntry.name PasswordEntry.entry_id PasswordEntry.user_id].
    rewrite He, Huser. reflexivity.
Qed.

Lemma create_for_unknown_user_rejected_witness :
  create_folder 11 9 (FolderCreate.mk "Ghost") (open Sample.db) =
    (Raise (Sql (IntegrityError ForeignKeyViolation)),
     mkSession Sample.db [] []
       [Failed Commit (Sql (IntegrityError ForeignKeyViolation)); RolledBack]) /\
  create_entry 11 9 (PasswordEntryCreate.mk "Ghost" None None None None None) (open Sample.db) =
    (Raise (Sql (IntegrityError ForeignKeyViolation)),
     mkSession Sample.db [] []
       [Failed Commit (Sql (IntegrityError ForeignKeyViolation)); RolledBack]).
Proof.
  split.
  - apply (proj1 (create_for_unknown_user_rejected Sample.db 11 9 (FolderCreate.mk "Ghost")
                    (PasswordEntryCreate.mk "Ghost" None None None None None) eq_refl)).
    + reflexivity.
    + reflexivity.
  - apply (proj2 (create_for_unknown_user_rejected Sample.db 11 9 (FolderCreate.mk "Ghost")
                    (PasswordEntryCreate.mk "Ghost" None None None None None) eq_refl)).
    + reflexivity.
    + reflexivity.
Defined.

(** [get_all_folders_for_user] returns exactly the folders whose owner is
    the given user, after one read that leaves the database as it is. *)
Theorem get_all_folders_for_user_exact (d : Database) (U : UUID) :
  exists l,
    get_all_folders_for_user U (open d) = (Ok l, mkSession d [] [] [Returned Query]) /\
    forall f, In f l <-> In f (folders d) /\ Folder.user_id f = U.
Proof.
  eexists. split; [apply get_all_folders_for_user_open|].
  intros f. rewrite filter_In, N.eqb_eq. tauto.
Qed.

Lemma get_all_entries_for_user_open (U : UUID) (d : Database) :
  get_all_entries_for_user U None (open d) =
  (Ok (filter (fun e => PasswordEntry.user_id e =? U) (password_entries d)),
   mkSession d [] [] [Returned Query]).
Proof. reflexivity. Qed.

Lemma scoped_find_fresh {R} (key owner : R -> UUID) (l : list R) (x : R) (U : UUID) :
  existsb (fun y => key y =? key x) l = false ->
  find (fun y => (key y =? key x) && (owner y =? U)) (l ++ [x]) =
  if owner x =? U then Some x else None.
Proof.
  intros Hfresh.
  assert (Hl : existsb (fun y => (key y =? key x) && (owner y =? U)) l = false).
  { apply not_true_is_false. intros E. apply existsb_exists in E as [g [Hg Hp]].
    apply andb_prop in Hp as [Hk _].
    rewrite (existsb_false_all _ _ Hfresh g Hg) in Hk. discriminate. }
  destruct (owner x =? U) eqn:Ho.
  - apply find_app_fresh; [assumption|]. rewrite N.eqb_refl, Ho. reflexivity.
  - apply existsb_app_fresh; [assumption|]. rewrite Ho. apply andb_false_r.
Qed.

(** An entry created by a user, with text that can be stored (no NUL
    character, each value within the width of its column), is visible to
    that user, by id and in the list of the user's entries, and to nobody
    else: under any other owner id the same entry id is not found and the
    entry is in no list. *)
Theorem create_entry_visible_to_owner_only
    (d : Database) (new_id U : UUID) (entry_data : PasswordEntryCreate.t) :
  has_entry new_id d = false ->
  has_user U d = true ->
  folder_ref_ok (PasswordEntryCreate.folder_id entry_data) d = true ->
  text_ok (entry_columns (new_entry new_id U entry_data)) = true ->
  exists e d',
    create_entry new_id U entry_data (open d) =
      (Ok e, mkSession d' [] [] [Returned Commit; Returned Refresh]) /\
    fst (get_entry_by_id new_id U (open d')) = Ok (Some e) /\
    (exists l, fst (get_all_entries_for_user U None (open d')) = Ok l /\ In e l) /\
    (forall U2, U2 <> U ->
       fst (get_entry_by_id new_id U2 (open d')) = Ok None /\
       exists l, fst (get_all_entries_for_user U2 None (open d')) = Ok l /\ ~ In e l).
Proof.
  intros Hfresh Huser Hfolder Htext. unfold new_entry in Htext.
  set (e := PasswordEntry.mk new_id U
              (PasswordEntryCreate.folder_id entry_data)
              (Some (PasswordEntryCreate.name entry_data))
              (PasswordEntryCreate.username entry_data)
              (PasswordEntryCreate.password entry_data)
              (PasswordEntryCreate.website_url entry_data)
              (PasswordEntryCreate.notes entry_data)).
  exists e, (mkDatabase (users d) (folders d) (password_entries d ++ [e])).
  assert (Hscoped : forall V,
    find (fun y => (PasswordEntry.entry_id y =? new_id) && (PasswordEntry.user_id y =? V))
      (password_entries d ++ [e]) = if U =? V then Some e else None).
  { intros V. apply (scoped_find_fresh PasswordEntry.entry_id PasswordEntry.user_id _ e V).
    exact Hfresh. }
  split; [|split; [|split]].
  - unfold create_entry. rewrite create_method_open. fold e.
    unfold flush_one, insert_entry. subst e. rewrite (text_ok_check _ Htext).
    cbn [PasswordEntry.name PasswordEntry.entry_id PasswordEntry.user_id PasswordEntry.folder_id].
    rewrite Hfresh, Huser, Hfolder. unfold find_entry. cbn [negb password_entries].
    rewrite (find_app_fresh _ _ _ Hfresh) by (simpl; apply N.eqb_refl).
    reflexivity.
  - rewrite get_entry_by_id_open. cbn [fst password_entries].
    rewrite Hscoped, N.eqb_refl. reflexivity.
  - eexists. split; [rewrite get_all_entries_for_user_open; reflexivity|].
    apply filter_In. split; [cbn [password_entries]; apply in_or_app; right; left; reflexivity|].
    simpl. apply N.eqb_refl.
  - intros U2 Hne. split.
    + rewrite get_entry_by_id_open. cbn [fst password_entries].
      rewrite Hscoped. apply N.eqb_neq in Hne. rewrite N.eqb_sym, Hne. reflexivity.
    + eexists. split; [rewrite get_all_entries_for_user_open; reflexivity|].
      intros Hin. apply filter_In in Hin as [_ Hin]. simpl in Hin.
      apply N.eqb_eq in Hin. congruence.
Qed.

Lemma create_entry_visible_to_owner_only_witness :
  exists e d',
    create_entry 102 2 (PasswordEntryCreate.mk "Router" None None None None None)
      (open Sample.db) =
      (Ok e, mkSession d' [] [] [Returned Commit; Returned Refresh]) /\
    fst (get_entry_by_id 102 2 (open d')) = Ok (Some e) /\
    (exists l, fst (get_all_entries_for_user 2 None (open d')) = Ok l /\ In e l) /\
    (forall U2, U2 <> 2 ->
       fst (get_entry_by_id 102 U2 (open d')) = Ok None /\
       exists l, fst (get_all_entries_for_user U2 None (open d')) = Ok l /\ ~ In e l).
Proof.
  apply (create_entry_visible_to_owner_only Sample.db 102 2
           (PasswordEntryCreate.mk "Router" None None None None None)).
  - reflexivity.
  - reflexivity.
  - reflexivity.
  - reflexivity.
Defined.

(** ** Deleting *)

Lemma find_filter_out {R} (key : R -> UUID) (k : UUID) (l : list R) :
  find (fun x => key x =? k) (filter (fun x => negb (key x =? k)) l) = None.
Proof.
  apply find_none_existsb. apply not_true_is_false. intros E.
  apply existsb_exists in E as [x [Hx Hk]].
  apply filter_In in Hx as [_ Hx]. rewrite Hk in Hx. discriminate.
Qed.

(** [delete_entry] on an entry the caller owns answers [True], removes the
    row with that id and leaves users, folders and every other entry as they
    were; when the scoped fetch finds nothing (unknown id, or an entry of
    another owner) it answers [False] after that single read and the
    database is unchanged. *)
Theorem delete_entry_removes_only_it (d : Database) (E U : UUID) :
  (forall e, fst (get_entry_by_id E U (open d)) = Ok (Some e) ->
     let d' := mkDatabase (users d) (folders d)
                 (filter (fun g => negb (PasswordEntry.entry_id g =? E)) (password_entries d)) in
     delete_entry E U (open d) =
       (Ok true, mkSession d' [] [] [Returned Query; Returned Commit]) /\
     find_entry E d' = None /\
     (forall g, In g (password_entries d) -> PasswordEntry.entry_id g <> E ->
                In g (password_entries d'))) /\
  (fst (get_entry_by_id E U (open d)) = Ok None ->
     delete_entry E U (open d) = (Ok false, mkSession d [] [] [Returned Query])).
Proof.
  rewrite get_entry_by_id_open. cbn [fst].
  unfold delete_entry, get_entry_by_id. rewrite delete_method_open.
  split.
  - intros e H. cbv zeta. injection H as H. rewrite H.
    destruct (scoped_find_some _ _ _ _ _ _ H) as [Hin [Hid _]].
    split; [|split].
    + unfold flush_one, delete_entry_row.
      assert (Hhas : has_entry (PasswordEntry.entry_id e) d = true)
        by (apply existsb_exists; exists e; split; [assumption | apply N.eqb_refl]).
      rewrite Hhas, Hid. reflexivity.
    + apply (find_filter_out PasswordEntry.entry_id).
    + intros g Hg Hne. apply filter_In. split; [assumption|].
      apply negb_true_iff, N.eqb_neq. assumption.
  - intros H. injection H as H. rewrite H. reflexivity.
Qed.

Lemma delete_entry_removes_only_it_witness :
  delete_entry 100 1 (open Sample.db) =
    (Ok true,
     mkSession (mkDatabase [Sample.alice; Sample.bob] [Sample.work] [Sample.bank]) [] []
       [Returned Query; Returned Commit]) /\
  delete_entry 100 2 (open Sample.db) =
    (Ok false, mkSession Sample.db [] [] [Returned Query]).
Proof.
  split.
  - apply (proj1 (delete_entry_removes_only_it Sample.db 100 1) Sample.gmail). reflexivity.
  - apply (proj2 (delete_entry_removes_only_it Sample.db 100 2)). reflexivity.
Defined.

Lemma clear_after_filter (fid : UUID) (es : list PasswordEntry.t) :
  map (fun e => if in_folder fid e then clear_folder e else e)
    (filter (fun e => negb (in_folder fid e)) es) =
  filter (fun e => negb (in_folder fid e)) es.
Proof.
  rewrite <- (map_id (filter _ es)) at 2. apply map_ext_in.
  intros e He. apply filter_In in He as [_ He].
  apply negb_true_iff in He. rewrite He. reflexivity.
Qed.

Lemma drop_folder_declared (fid : UUID) (d : Database) :
  drop_folder Folder.password_entries fid d =
  mkDatabase (users d)
    (filter (fun g => negb (Folder.folder_id g =? fid)) (folders d))
    (filter (fun e => negb (in_folder fid e)) (password_entries d)).
Proof.
  unfold drop_folder, orm_cascade_entries, fk_ondelete_entries. simpl.
  rewrite clear_after_filter. reflexivity.
Qed.

(** [delete_folder] on a folder the caller owns answers [True] and removes
    the folder row together with every entry filed in it, whoever owns the
    entry; users, other folders and entries filed elsewhere or nowhere are
    left as they were.  When the scoped fetch finds nothing it answers
    [False] after that single read and the database is unchanged. *)
Theorem delete_folder_effect (d : Database) (F U : UUID) :
  (forall f, fst (get_folder_by_id F U (open d)) = Ok (Some f) ->
     delete_folder F U (open d) =
       (Ok true,
        mkSession
          (mkDatabase (users d)
             (filter (fun g => negb (Folder.folder_id g =? F)) (folders d))
             (filter (fun e => negb (in_folder F e)) (password_entries d)))
          [] [] [Returned Query; Returned Commit])) /\
  (fst (get_folder_by_id F U (open d)) = Ok None ->
     delete_folder F U (open d) = (Ok false, mkSession d [] [] [Returned Query])).
Proof.
  rewrite get_folder_by_id_open. cbn [fst].
  unfold delete_folder, get_folder_by_id. rewrite delete_method_open.
  split.
  - intros f H. injection H as H. rewrite H.
    destruct (scoped_find_some _ _ _ _ _ _ H) as [Hin [Hid _]].
    unfold flush_one, delete_folder_row, delete_folder_row_with.
    assert (Hhas : has_folder (Folder.folder_id f) d = true)
      by (apply existsb_exists; exists f; split; [assumption | apply N.eqb_refl]).
    rewrite Hhas, drop_folder_declared, Hid. reflexivity.
  - intros H. injection H as H. rewrite H. reflexivity.
Qed.

Lemma delete_folder_effect_witness :
  delete_folder 10 1 (open Sample.db) =
    (Ok true,
     mkSession (mkDatabase [Sample.alice; Sample.bob] [] [Sample.bank]) [] []
       [Returned Query; Returned Commit]) /\
  delete_folder 10 2 (open Sample.db) =
    (Ok false, mkSession Sample.db [] [] [Returned Query]).
Proof.
  split.
  - apply (proj1 (delete_folder_effect Sample.db 10 1) Sample.work). reflexivity.
  - apply (proj2 (delete_folder_effect Sample.db 10 2)). reflexivity.
Defined.

(** ** What another owner cannot do *)

Section NotFound.
Context {R X : Type} (table : Database -> list X) (p : X -> bool).

#[local] Arguments flush_one : simpl never.

Lemma update_method_not_found
    (changed : X -> Instance) (lookup : X -> Database -> option R)
    (fs : list (option SQLAlchemyError)) (d : Database) :
  find p (table d) = None ->
  stored (snd (try_except
                 (x <- query_first table p ;;
                  match x with
                  | None => ret None
                  | Some x =>
                    db_modified (changed x) ;;
                    db_commit ;;
                    y <- db_refresh (lookup x) ;;
                    ret (Some y)
                  end)
                 rollback_and_reraise (open_with fs d))) = d.
Proof.
  intros H. unfold try_except, bind, open_with. rewrite query_first_run, H.
  destruct (next_fault fs); reflexivity.
Qed.

Lemma delete_method_not_found
    (gone : X -> Instance) (fs : list (option SQLAlchemyError)) (d : Database) :
  find p (table d) = None ->
  stored (snd (try_except
                 (x <- query_first table p ;;
                  match x with
                  | None => ret false
                  | Some x => db_delete (gone x) ;; db_commit ;; ret true
                  end)
                 rollback_and_reraise (open_with fs d))) = d.
Proof.
  intros H. unfold try_except, bind, open_with. rewrite query_first_run, H.
  destruct (next_fault fs); reflexivity.
Qed.
End NotFound.

(** No scoped mutation reaches a row of another owner: whatever the payload
    and whatever the engine does, updating or deleting an entry under an
    owner id that is not the entry's owner leaves the stored database
    exactly as it was; and so does, on its own, updating or deleting a
    folder under an owner id that is not the folder's owner. *)
Theorem foreign_rows_are_out_of_reach
    (d : Database) (U : UUID) (fs : list (option SQLAlchemyError)) :
  pk_unique d = true ->
  (forall (e : PasswordEntry.t) (entry_data : PasswordEntryUpdate.t),
     In e (password_entries d) -> PasswordEntry.user_id e <> U ->
     stored (snd (update_entry (PasswordEntry.entry_id e) U entry_data (open_with fs d))) = d /\
     stored (snd (delete_entry (PasswordEntry.entry_id e) U (open_with fs d))) = d) /\
  (forall (f : Folder.t) (folder_data : FolderUpdate.t),
     In f (folders d) -> Folder.user_id f <> U ->
     stored (snd (update_folder (Folder.folder_id f) U folder_data (open_with fs d))) = d /\
     stored (snd (delete_folder (Folder.folder_id f) U (open_with fs d))) = d).
Proof.
  intros Hpk. split.
  - intros e entry_data He Hne.
    pose proof (scoped_find_other_owner PasswordEntry.entry_id PasswordEntry.user_id
                  _ e U (pk_unique_entries d Hpk) He Hne) as A.
    split.
    + apply (update_method_not_found password_entries _ _ _ fs d A).
    + apply (delete_method_not_found password_entries _ _ fs d A).
  - intros f folder_data Hf Hnf.
    pose proof (scoped_find_other_owner Folder.folder_id Folder.user_id
                  _ f U (pk_unique_folders d Hpk) Hf Hnf) as B.
    split.
    + apply (update_method_not_found folders _ _ _ fs d B).
    + apply (delete_method_not_found folders _ _ fs d B).
Qed.

Lemma foreign_rows_are_out_of_reach_witness :
  stored (snd (update_entry 100 2
                 (PasswordEntryUpdate.mk (Set_ (Some "Mine")) Unset (Set_ None) Unset Unset Unset)
                 (open_with [None; None] Sample.db))) = Sample.db /\
  stored (snd (delete_entry 100 2 (open_with [None; None] Sample.db))) = Sample.db /\
  stored (snd (update_folder 10 2 (FolderUpdate.mk "Mine")
                 (open_with [None; None] Sample.db))) = Sample.db /\
  stored (snd (delete_folder 10 2 (open_with [None; None] Sample.db))) = Sample.db.
Proof.
  pose proof (foreign_rows_are_out_of_reach Sample.db 2 [None; None] eq_refl)
    as [entries folders].
  destruct (entries Sample.gmail
              (PasswordEntryUpdate.mk (Set_ (Some "Mine")) Unset (Set_ None) Unset Unset Unset))
    as [A B].
  - simpl; auto.
  - simpl; lia.
  - destruct (folders Sample.work (FolderUpdate.mk "Mine")) as [C D].
    + simpl; auto.
    + simpl; lia.
    + exact (conj A (conj B (conj C D))).
Defined.

(** ** What deleting a user removes, exactly *)

Lemma filter_twice {R} (p q : R -> bool) (l : list R) :
  filter p (filter q l) = filter (fun x => q x && p x) l.
Proof.
  induction l as [|x l IH]; simpl; [reflexivity|].
  destruct (q x); simpl; [destruct (p x); simpl; congruence | assumption].
Qed.

Lemma existsb_filter {R} (p q : R -> bool) (l : list R) :
  existsb p (filter q l) = existsb (fun x => q x && p x) l.
Proof.
  induction l as [|x l IH]; simpl; [reflexivity|].
  destruct (q x); simpl; congruence.
Qed.

Lemma filter_all {R} (l : list R) : filter (fun _ => true) l = l.
Proof. induction l as [|x l IH]; simpl; congruence. Qed.

Lemma fold_drop_folder_closed (owned : list Folder.t) (d : Database) :
  fold_left (fun acc f => drop_folder Folder.password_entries (Folder.folder_id f) acc) owned d =
  mkDatabase (users d)
    (filter (fun g => negb (existsb (fun f => Folder.folder_id g =? Folder.folder_id f) owned))
       (folders d))
    (filter (fun e => negb (existsb (fun f => in_folder (Folder.folder_id f) e) owned))
       (password_entries d)).
Proof.
  revert d. induction owned as [|f owned IH]; intros d; simpl.
  - rewrite !filter_all. destruct d; reflexivity.
  - rewrite IH, drop_folder_declared. simpl. rewrite !filter_twice.
    f_equal; apply filter_ext; intros x; rewrite negb_orb; reflexivity.
Qed.

(** [delete_user] on a stored user removes the user row, every folder the
    user owns, every entry the user owns and every entry filed in one of the
    user's folders, whoever owns that entry; all other rows are left as
    they were. *)
Theorem delete_user_removes_exactly (d : Database) (U : UUID) :
  pk_unique d = true ->
  has_user U d = true ->
  delete_user U (open d) =
  (Ok true,
   mkSession
     (mkDatabase
        (filter (fun v => negb (User.user_id v =? U)) (users d))
        (filter (fun f => negb (Folder.user_id f =? U)) (folders d))
        (filter (fun e => negb (PasswordEntry.user_id e =? U) && negb (filed_under U d e))
           (password_entries d)))
     [] [] [Returned Query; Returned Commit]).
Proof.
  intros Hpk Hhas.
  unfold delete_user, get_user_by_id. rewrite delete_method_open.
  apply find_existsb in Hhas as [u Fu]. rewrite Fu.
  destruct (find_user_id U d u Fu) as [Hid Hhas].
  unfold flush_one, delete_user_row. rewrite Hid, Hhas.
  rewrite fold_drop_folder_closed. cbn [users folders password_entries].
  rewrite !filter_twice.
  match goal with
  | |- (_, mkSession (mkDatabase _ ?B ?C) _ _ _) = (_, mkSession (mkDatabase _ ?B' ?C') _ _ _) =>
    assert (HB : B = B'); [|assert (HC : C = C'); [|rewrite HB, HC; reflexivity]]
  end.
  - apply filter_ext_in. intros g Hg.
    destruct (Folder.user_id g =? U) eqn:Ho; simpl; [apply andb_false_r|].
    rewrite andb_true_r. apply negb_true_iff.
    apply not_true_is_false. intros E.
    apply existsb_exists in E as [f [Hf Hk]].
    apply filter_In in Hf as [Hf Hfo]. apply N.eqb_eq in Hk, Hfo.
    assert (g = f) by (apply (distinct_inj Folder.folder_id (folders d));
                       auto using pk_unique_folders).
    subst g. rewrite Hfo, N.eqb_refl in Ho. discriminate.
  - apply filter_ext. intros e. unfold filed_under.
    rewrite existsb_filter. apply andb_comm.
Qed.

Lemma delete_user_removes_exactly_witness :
  delete_user 1
    (open (mkDatabase [Sample.alice; Sample.bob] [Sample.work]
             [Sample.gmail; Sample.bank;
              PasswordEntry.mk 102 2 (Some 10) (Some "Shared") None None None None;
              PasswordEntry.mk 103 2 None (Some "Router") None None None None])) =
  (Ok true,
   mkSession
     (mkDatabase [Sample.bob] []
        [PasswordEntry.mk 103 2 None (Some "Router") None None None None])
     [] [] [Returned Query; Returned Commit]).
Proof.
  apply (delete_user_removes_exactly
           (mkDatabase [Sample.alice; Sample.bob] [Sample.work]
              [Sample.gmail; Sample.bank;
               PasswordEntry.mk 102 2 (Some 10) (Some "Shared") None None None None;
               PasswordEntry.mk 103 2 None (Some "Router") None None None None]) 1).
  - reflexivity.
  - reflexivity.
Defined.

(** ** Updating twice *)

Lemma overlay_idempotent (p : PasswordEntryUpdate.t) (e : PasswordEntry.t) :
  overlay p (overlay p e) = overlay p e.
Proof.
  destruct p as [n u pw w t f]. destruct n, u, pw, w, t, f; reflexivity.
Qed.

Lemma scoped_find_own {R} (key owner : R -> UUID) (l : list R) (a : R) :
  distinct (map key l) = true -> In a l ->
  find (fun x => (key x =? key a) && (owner x =? owner a)) l = Some a.
Proof.
  intros Hd Ha.
  destruct (find _ l) as [b|] eqn:F.
  - apply find_some in F as [Hb E]. apply andb_prop in E as [E _].
    apply N.eqb_eq in E. f_equal. apply (distinct_inj key l); auto.
  - exfalso. apply (find_none _ _ F) in Ha.
    rewrite !N.eqb_refl in Ha. discriminate.
Qed.

(** Repeating an accepted update (the resulting row has text that can be
    stored, a name, and a folder reference that is absent or names an
    existing folder) changes nothing more: the second call with the same
    payload answers the same entry as the first and leaves the database the
    first call produced. *)
Theorem update_entry_twice
    (d : Database) (E U : UUID) (entry_data : PasswordEntryUpdate.t) (e : PasswordEntry.t) :
  pk_unique d = true ->
  fst (get_entry_by_id E U (open d)) = Ok (Some e) ->
  text_ok (entry_columns (overlay entry_data e)) = true ->
  assigned (PasswordEntryUpdate.name entry_data) (PasswordEntry.name e) <> None ->
  folder_ref_ok
    (assigned (PasswordEntryUpdate.folder_id entry_data) (PasswordEntry.folder_id e)) d = true ->
  let d1 := stored (snd (update_entry E U entry_data (open d))) in
  fst (update_entry E U entry_data (open d)) = Ok (Some (overlay entry_data e)) /\
  update_entry E U entry_data (open d1) =
    (Ok (Some (overlay entry_data e)),
     mkSession d1 [] [] [Returned Query; Returned Commit; Returned Refresh]).
Proof.
  intros Hpk Hget Htext Hname Hfolder.
  rewrite get_entry_by_id_open in Hget. simpl in Hget. injection Hget as Hget.
  destruct (scoped_find_some _ _ _ _ _ _ Hget) as [Hin [HE HU]].
  set (e' := overlay entry_data e).
  destruct (update_entry_row_ok d e e' Hpk Hin eq_refl eq_refl Htext Hname Hfolder)
    as [Hflush Hlook].
  assert (Hfirst : update_entry E U entry_data (open d) =
                   (Ok (Some e'),
                    mkSession (with_entry e' d) [] []
                      [Returned Query; Returned Commit; Returned Refresh])).
  { unfold update_entry, get_entry_by_id. rewrite update_method_open.
    rewrite Hget, fold_setattr_overlay. fold e'.
    unfold flush_one. rewrite Hflush, Hlook. reflexivity. }
  cbv zeta. rewrite Hfirst. cbn [fst snd stored]. split; [reflexivity|].
  assert (Hpk' : pk_unique (with_entry e' d) = true)
    by (apply (flush_one_pk_unique (Dirty (IEntry e')) d); assumption).
  assert (Hin' : In e' (password_entries (with_entry e' d)))
    by (apply find_some in Hlook as [H _]; exact H).
  assert (Hget' : find (fun x => (PasswordEntry.entry_id x =? E) && (PasswordEntry.user_id x =? U))
                    (password_entries (with_entry e' d)) = Some e').
  { rewrite <- HE, <- HU.
    apply (scoped_find_own PasswordEntry.entry_id PasswordEntry.user_id _ e');
      auto using pk_unique_entries. }
  pose proof (distinct_find PasswordEntry.entry_id _ e' (pk_unique_entries _ Hpk') Hin') as Hfind.
  unfold update_entry, get_entry_by_id. rewrite update_method_open.
  rewrite Hget', fold_setattr_overlay. unfold e' at 1 2 3. rewrite overlay_idempotent. fold e'.
  unfold flush_one, update_entry_row, find_entry. rewrite Hfind.
  destruct (entry_eq_dec e' e') as [_|C]; [|congruence].
  rewrite Hfind. reflexivity.
Qed.

Lemma update_entry_twice_witness :
  let p := PasswordEntryUpdate.mk Unset (Set_ (Some "alice")) Unset Unset (Set_ None) (Set_ None) in
  let d1 := stored (snd (update_entry 100 1 p (open Sample.db))) in
  fst (update_entry 100 1 p (open Sample.db)) = Ok (Some (overlay p Sample.gmail)) /\
  update_entry 100 1 p (open d1) =
    (Ok (Some (overlay p Sample.gmail)),
     mkSession d1 [] [] [Returned Query; Returned Commit; Returned Refresh]).
Proof.
  apply (update_entry_twice Sample.db 100 1
           (PasswordEntryUpdate.mk Unset (Set_ (Some "alice")) Unset Unset (Set_ None) (Set_ None))
           Sample.gmail).
  - reflexivity.
  - reflexivity.
  - reflexivity.
  - simpl. discriminate.
  - reflexivity.
Defined.

(** * The web handlers *)

(** ** Reasoning about handler code *)

Lemma raises_only_wret {A} (P : Exception -> Prop) (a : A) : raises_only P (wret a).
Proof. intros s. exact I. Qed.

Lemma raises_only_throw {A} (P : Exception -> Prop) (x : Exception) :
  P x -> raises_only P (@throw A x).
Proof. intros H s. exact H. Qed.

Lemma raises_only_call {A} (P : Exception -> Prop) (m : M A) :
  service_raises_only P m -> raises_only P (call m).
Proof.
  intros H s. unfold call. specialize (H s).
  destruct (m s) as [[a|x] s']; simpl in *; auto.
Qed.

Lemma flush_raises ps d x :
  flush ps d = Raise x -> (exists e, x = Sql e) \/ x = Val NulInText.
Proof.
  revert d. induction ps as [|p ps IH]; intros d; simpl; [discriminate|].
  destruct (flush_one p d) as [d'|y] eqn:F; [apply IH|].
  intros [= <-]. exact (flush_one_raises _ _ _ F).
Qed.

(** What the building blocks of a service method raise: a failed round trip
    raises a [SQLAlchemyError]; only the commit can also raise the driver's
    [ValueError]. *)
Section ServiceRaises.
Variable P : Exception -> Prop.
Hypothesis of_sql : forall e, P (Sql e).

Lemma service_raises_ret {A} (a : A) : service_raises_only P (ret a).
Proof. intros s. exact I. Qed.

Lemma service_raises_bind {A B} (m : M A) (k : A -> M B) :
  service_raises_only P m -> (forall a, service_raises_only P (k a)) ->
  service_raises_only P (bind m k).
Proof.
  intros Hm Hk s. unfold bind. specialize (Hm s).
  destruct (m s) as [[a|x] s']; simpl in *; [apply Hk | exact Hm].
Qed.

Lemma service_raises_try_except {A} (body : M A) :
  service_raises_only P body ->
  service_raises_only P (try_except body rollback_and_reraise).
Proof.
  intros Hb s. unfold try_except. specialize (Hb s).
  destruct (body s) as [[a|[e|v|c dt]] s']; simpl in *; auto.
Qed.

Lemma service_raises_query_first {R} (table : Database -> list R) (p : R -> bool) :
  service_raises_only P (query_first table p).
Proof.
  intros [d u fs lg]. rewrite query_first_run. destruct (next_fault fs); simpl; auto.
Qed.

Lemma service_raises_query_all {R} (table : Database -> list R) (p : R -> bool) :
  service_raises_only P (query_all table p).
Proof.
  intros [d u fs lg]. unfold_session; simpl. destruct (next_fault fs); simpl; auto.
Qed.

Lemma service_raises_register (p : Pending) : service_raises_only P (register p).
Proof. intros s. exact I. Qed.

Lemma service_raises_refresh {R} (lookup : Database -> option R) :
  service_raises_only P (db_refresh lookup).
Proof.
  intros [d u fs lg]. unfold_session; simpl. destruct (next_fault fs); simpl; auto.
  destruct (lookup d); simpl; auto.
Qed.

Lemma service_raises_commit :
  P (Val NulInText) -> service_raises_only P db_commit.
Proof.
  intros of_nul [d u fs lg]. unfold_session; simpl.
  destruct (next_fault fs); simpl; auto.
  destruct (flush u d) as [d'|x] eqn:F; simpl; auto.
  destruct (flush_raises _ _ _ F) as [[e ->] | ->]; auto.
Qed.
End ServiceRaises.

Ltac service_raises :=
  unfold_services; unfold db_add, db_delete, db_modified; cbv zeta;
  repeat first
    [ solve [intros; exact I]
    | apply service_raises_try_except
    | apply service_raises_ret
    | apply service_raises_query_first
    | apply service_raises_query_all
    | apply service_raises_register
    | apply service_raises_refresh
    | apply service_raises_commit
    | apply service_raises_bind; [|intros ?]
    | match goal with
      | |- service_raises_only _ (match ?x with Some _ => _ | None => _ end) => destruct x
      | |- service_raises_only _ (if ?b then _ else _) => destruct b
      end ].

Lemma raises_only_wbind {A B} (P : Exception -> Prop) (m : W A) (k : A -> W B) :
  raises_only P m -> (forall a, raises_only P (k a)) -> raises_only P (wbind m k).
Proof.
  intros Hm Hk s. unfold wbind. specialize (Hm s).
  destruct (m s) as [[a|x] s']; simpl in *; [apply Hk | exact Hm].
Qed.

Lemma raises_only_try_catch {A} (Q P : Exception -> Prop) (body : W A)
    (clauses : Exception -> option (W A)) :
  raises_only Q body ->
  (forall x, Q x -> match clauses x with
                    | Some handler => raises_only P handler
                    | None => P x
                    end) ->
  raises_only P (try_catch body clauses).
Proof.
  intros Hb Hc s. unfold try_catch. specialize (Hb s).
  destruct (body s) as [[a|x] s']; simpl in *; [exact I|].
  specialize (Hc x Hb). destruct (clauses x) as [h|]; [apply Hc | exact Hc].
Qed.

Lemma except_sql_covers {A} (x : Exception) :
  sql_or_http x ->
  match @except_sql A x with
  | Some handler => raises_only is_http_error handler
  | None => is_http_error x
  end.
Proof.
  destruct x as [e|v|c d]; simpl; intros H; [|contradiction|exact H].
  apply raises_only_throw. reflexivity.
Qed.

Lemma except_value_sql_covers {A} (x : Exception) :
  any_but_foreign_http x ->
  match @except_value_sql A x with
  | Some handler => raises_only is_http_error handler
  | None => is_http_error x
  end.
Proof.
  destruct x as [e|v|c d]; simpl; intros H; [| |exact H];
    apply raises_only_throw; reflexivity.
Qed.

Lemma raises_only_entry_field_errors {A} (P : Exception -> Prop)
    (name : string) (username website_url : option string) (ok : W A) :
  (forall v, P (Val v)) -> raises_only P ok ->
  raises_only P (match entry_field_errors name username website_url with
                 | [] => ok
                 | errors => throw (Val (ValidationError errors))
                 end).
Proof.
  intros HP Hok. destruct (entry_field_errors name username website_url); [exact Hok|].
  apply raises_only_throw, HP.
Qed.

Ltac handler_raises :=
  repeat first
    [ apply raises_only_wret
    | apply raises_only_call; solve [service_raises]
    | apply raises_only_throw; reflexivity
    | apply raises_only_wbind; [|intros ?]
    | match goal with
      | |- raises_only _ (match ?x with Some _ => _ | None => _ end) => destruct x
      | |- raises_only _ (if ?b then _ else _) => destruct b
      end ].

(** A delete run in a session with nothing pending flushes only its own
    DELETE, which carries no text: it raises a [SQLAlchemyError] or
    nothing. *)
Section DeleteRaises.
Context {R : Type}.

#[local] Arguments flush_one : simpl never.

Lemma delete_method_raises_sql (table : Database -> list R) (p : R -> bool)
    (gone : R -> Instance) (s : Session) :
  unit_of_work s = [] ->
  match fst (try_except
               (x <- query_first table p ;;
                match x with
                | None => ret false
                | Some x => db_delete (gone x) ;; db_commit ;; ret true
                end)%service
               rollback_and_reraise s) with
  | Ok _ => True
  | Raise (Sql _) => True
  | Raise _ => False
  end.
Proof.
  destruct s as [d u fs lg]; simpl; intros ->.
  unfold try_except, bind. rewrite query_first_run.
  destruct (next_fault fs) as [e|]; simpl; [exact I|].
  destruct (find p (table d)) as [x|]; simpl; [|exact I].
  unfold rollback_and_reraise, db_delete, register,
    db_commit, db_rollback, engine, emit, bind, ret, raise; simpl.
  destruct (next_fault (tl fs)) as [e|]; simpl; [exact I|].
  destruct (flush_one (Deleted (gone x)) d) as [d'|y] eqn:F; simpl; [exact I|].
  rewrite (flush_one_deleted_raises _ _ _ F). exact I.
Qed.
End DeleteRaises.

Lemma delete_handler_raises (m : M bool) (not_found : W Response) (done : Response)
    (s : Session) :
  match fst (m s) with Ok _ => True | Raise (Sql _) => True | Raise _ => False end ->
  raises_only is_http_error not_found ->
  match fst (try_catch
               (deleted <- call m ;;
                if negb deleted then not_found else wret done)%web
               except_sql s) with
  | Return _ => True
  | Throw x => is_http_error x
  end.
Proof.
  intros Hm Hnf. unfold try_catch, wbind, call.
  destruct (m s) as [[deleted|[e|v|c dt]] s']; simpl in *; try contradiction.
  - specialize (Hnf s'). destruct deleted; simpl; [exact I|].
    destruct (not_found s') as [[a|x] s'']; simpl in *; [exact I|].
    destruct x as [e|v|c dt]; simpl in *; try contradiction. exact Hnf.
  - reflexivity.
Qed.

(** The routes other than the two deletes, in any session. *)
Lemma handlers_but_deletes_raise_only_http_errors
    (UUID_of : string -> option UUID) (r : Request) :
  match r with
  | POST_entry_delete _ | POST_folder_delete _ => True
  | _ => raises_only is_http_error (handler UUID_of r)
  end.
Proof.
  destruct r; unfold handler; try exact I.
  - apply (raises_only_try_catch sql_or_http); [handler_raises | apply except_sql_covers].
  - apply (raises_only_try_catch sql_or_http); [handler_raises | apply except_sql_covers].
  - apply (raises_only_try_catch any_but_foreign_http); [|apply except_value_sql_covers].
    apply raises_only_wbind.
    + unfold folder_uuid_of. destruct folder_id as [text|]; [|apply raises_only_wret].
      destruct (truthy (Some text) && negb (String.eqb text "")); [|apply raises_only_wret].
      destruct (UUID_of text); [apply raises_only_wret | apply raises_only_throw; exact I].
    + intros fid. apply raises_only_wbind.
      * unfold new_PasswordEntryCreate.
        apply raises_only_entry_field_errors; [intros; exact I | apply raises_only_wret].
      * intros x. handler_raises.
  - apply (raises_only_try_catch sql_or_http); [|apply except_sql_covers].
    unfold entry_not_found. handler_raises.
  - apply (raises_only_try_catch sql_or_http); [|apply except_sql_covers].
    unfold entry_not_found. handler_raises.
  - apply (raises_only_try_catch any_but_foreign_http); [|apply except_value_sql_covers].
    apply raises_only_wbind.
    + unfold folder_uuid_of. destruct folder_id as [text|]; [|apply raises_only_wret].
      destruct (truthy (Some text) && negb (String.eqb text "")); [|apply raises_only_wret].
      destruct (UUID_of text); [apply raises_only_wret | apply raises_only_throw; exact I].
    + intros fid. apply raises_only_wbind.
      * unfold new_PasswordEntryUpdate.
        apply raises_only_entry_field_errors; [intros; exact I | apply raises_only_wret].
      * intros x. unfold entry_not_found. handler_raises.
  - apply (raises_only_try_catch sql_or_http); [handler_raises | apply except_sql_covers].
  - apply raises_only_wret.
  - apply (raises_only_try_catch any_but_foreign_http); [|apply except_value_sql_covers].
    apply raises_only_wbind.
    + unfold new_FolderCreate. destruct (complain _ _); [apply raises_only_wret|].
      apply raises_only_throw. exact I.
    + intros x. handler_raises.
  - apply (raises_only_try_catch sql_or_http); [|apply except_sql_covers].
    unfold folder_not_found. handler_raises.
Qed.

(** Why the session of a request must hold nothing pending: the two delete
    handlers catch [SQLAlchemyError] only, and their commit flushes whatever
    the session holds; in a session with a pending folder whose name has a
    NUL character the driver's [ValueError] would leave the handler. *)
Lemma delete_handler_with_pending_text :
  fst (web_entries_delete 100
         (mkSession Sample.db [New (IFolder (Folder.mk 11 1 Sample.text_with_nul))] [] [])) =
  Throw (Val NulInText).
Proof. vm_compute. reflexivity. Qed.

(** Every handler, in a session with nothing pending. *)
Lemma handlers_raise_only_http_errors
    (UUID_of : string -> option UUID) (r : Request) (s : Session) :
  unit_of_work s = [] ->
  match fst (handler UUID_of r s) with
  | Return _ => True
  | Throw x => is_http_error x
  end.
Proof.
  intros Hclean.
  pose proof (handlers_but_deletes_raise_only_http_errors UUID_of r) as H.
  destruct r; try exact (H s); unfold handler.
  - apply delete_handler_raises.
    + apply delete_method_raises_sql; assumption.
    + apply raises_only_throw; reflexivity.
  - apply delete_handler_raises.
    + apply delete_method_raises_sql; assumption.
    + apply raises_only_throw; reflexivity.
Qed.

(** Whatever the request, the database and the engine do, a route either
    returns a response or raises an [HTTPException] of one of three kinds:
    404 with a not-found message, 400 carrying a [ValueError], 500 carrying
    a storage failure.  No [SQLAlchemyError] and no [ValueError] leaves a
    handler. *)
Theorem routes_raise_only_http_errors (UUID_of : string -> option UUID) (r : Request) :
  raises_only is_http_error (route UUID_of r).
Proof.
  intros s. unfold route, Depends_get_db.
  apply handlers_raise_only_http_errors. reflexivity.
Qed.

(** ** What the pages show *)

Lemma query_all_run {R} (table : Database -> list R) (p : R -> bool) d u fs lg :
  query_all table p (mkSession d u fs lg) =
  match next_fault fs with
  | Some e => (Raise (Sql e), mkSession d u (tl fs) (lg ++ [Failed Query (Sql e)]))
  | None => (Ok (filter p (table d)), mkSession d u (tl fs) (lg ++ [Returned Query]))
  end.
Proof. unfold_session; simpl. destruct (next_fault fs); reflexivity. Qed.

(** The two single-row reads answer only rows of the owner asked for, the
    two lists hold only rows of the owner asked for, under every engine. *)
Lemma get_entry_by_id_scoped (E U : UUID) (s : Session) :
  match fst (get_entry_by_id E U s) with
  | Ok (Some e) => PasswordEntry.entry_id e = E /\ PasswordEntry.user_id e = U
  | _ => True
  end.
Proof.
  destruct s as [d u fs lg]. unfold get_entry_by_id. rewrite query_first_run.
  destruct (next_fault fs); simpl; [exact I|].
  destruct (find _ _) as [e|] eqn:F; [|exact I].
  apply scoped_find_some in F. tauto.
Qed.

Lemma get_folder_by_id_scoped (F U : UUID) (s : Session) :
  match fst (get_folder_by_id F U s) with
  | Ok (Some f) => Folder.folder_id f = F /\ Folder.user_id f = U
  | _ => True
  end.
Proof.
  destruct s as [d u fs lg]. unfold get_folder_by_id. rewrite query_first_run.
  destruct (next_fault fs); simpl; [exact I|].
  destruct (find _ _) as [f|] eqn:E; [|exact I].
  apply scoped_find_some in E. tauto.
Qed.

Lemma get_all_entries_for_user_scoped (U : UUID) (F : option UUID) (s : Session) :
  match fst (get_all_entries_for_user U F s) with
  | Ok l => forall e, In e l -> PasswordEntry.user_id e = U
  | Raise _ => True
  end.
Proof.
  destruct s as [d u fs lg]. unfold get_all_entries_for_user. rewrite query_all_run.
  destruct (next_fault fs); simpl; [exact I|].
  intros e He. apply filter_In in He as [_ He].
  destruct F; [apply andb_prop in He as [He _]|]; apply N.eqb_eq in He; exact He.
Qed.

Lemma get_all_folders_for_user_scoped (U : UUID) (s : Session) :
  match fst (get_all_folders_for_user U s) with
  | Ok l => forall f, In f l -> Folder.user_id f = U
  | Raise _ => True
  end.
Proof.
  destruct s as [d u fs lg]. unfold get_all_folders_for_user. rewrite query_all_run.
  destruct (next_fault fs); simpl; [exact I|].
  intros f Hf. apply filter_In in Hf as [_ Hf]. apply N.eqb_eq in Hf. exact Hf.
Qed.

Lemma returns_only_wret {A} (P : A -> Prop) (a : A) : P a -> returns_only P (wret a).
Proof. intros H s. exact H. Qed.

Lemma returns_only_throw {A} (P : A -> Prop) (x : Exception) : returns_only P (throw x).
Proof. intros s. exact I. Qed.

Lemma returns_only_wbind {A B} (P : B -> Prop) (m : W A) (k : A -> W B) :
  (forall a, returns_only P (k a)) -> returns_only P (wbind m k).
Proof.
  intros Hk s. unfold wbind. destruct (m s) as [[a|x] s']; simpl; [apply Hk | exact I].
Qed.

Lemma returns_only_after_call {A B} (Q : A -> Prop) (P : B -> Prop) (m : M A) (k : A -> W B) :
  (forall s, match fst (m s) with Ok a => Q a | Raise _ => True end) ->
  (forall a, Q a -> returns_only P (k a)) ->
  returns_only P (wbind (call m) k).
Proof.
  intros Hm Hk s. unfold wbind, call. specialize (Hm s).
  destruct (m s) as [[a|e] s']; simpl in *; [apply Hk, Hm | exact I].
Qed.

Lemma returns_only_try_catch {A} (P : A -> Prop) (body : W A)
    (clauses : Exception -> option (W A)) :
  returns_only P body ->
  (forall x handler, clauses x = Some handler -> returns_only P handler) ->
  returns_only P (try_catch body clauses).
Proof.
  intros Hb Hc s. unfold try_catch. specialize (Hb s).
  destruct (body s) as [[a|x] s']; simpl in *; [exact Hb|].
  destruct (clauses x) as [h|] eqn:E; [apply (Hc x h E) | exact I].
Qed.

Lemma except_sql_returns {A} (P : A -> Prop) (x : Exception) (handler : W A) :
  except_sql x = Some handler -> returns_only P handler.
Proof.
  destruct x; simpl; intros E; try discriminate.
  injection E as <-. apply returns_only_throw.
Qed.

Lemma except_value_sql_returns {A} (P : A -> Prop) (x : Exception) (handler : W A) :
  except_value_sql x = Some handler -> returns_only P handler.
Proof.
  destruct x; simpl; intros E; try discriminate;
    injection E as <-; apply returns_only_throw.
Qed.

Lemma own_entries (l : list PasswordEntry.t) (u : UUID) :
  (forall e, In e l -> PasswordEntry.user_id e = TEMP_USER_ID) ->
  In u (map PasswordEntry.user_id l) -> u = TEMP_USER_ID.
Proof. intros H Hu. apply in_map_iff in Hu as [e [<- He]]. apply H, He. Qed.

Lemma own_folders (l : list Folder.t) (u : UUID) :
  (forall f, In f l -> Folder.user_id f = TEMP_USER_ID) ->
  In u (map Folder.user_id l) -> u = TEMP_USER_ID.
Proof. intros H Hu. apply in_map_iff in Hu as [f [<- Hf]]. apply H, Hf. Qed.

Ltac own_rows :=
  intros ? Hshown; cbn [owners_shown flat_map owners_in snd] in Hshown;
  repeat (apply in_app_or in Hshown as [Hshown|Hshown]);
  first [ solve [destruct Hshown]
        | solve [destruct Hshown as [<-|[]]; tauto]
        | solve [eauto using own_entries, own_folders] ].

Lemma returns_only_get_db {A} (P : A -> Prop) (w : W A) :
  returns_only P w -> returns_only P (Depends_get_db w).
Proof. intros H s. apply H. Qed.

(** Every entry and every folder a page is rendered with belongs to the
    fixed user the router acts for: no route hands a row of another owner to
    a template, whatever the database holds and whatever the engine does. *)
Theorem pages_show_only_own_rows (UUID_of : string -> option UUID) (r : Request) :
  returns_only shows_only_own (route UUID_of r).
Proof.
  unfold route. apply returns_only_get_db. destruct r; unfold handler.
  - apply returns_only_try_catch; [|apply except_sql_returns].
    apply (returns_only_after_call _ _ _ _ (get_all_entries_for_user_scoped _ _)).
    intros entries He.
    apply (returns_only_after_call _ _ _ _ (get_all_folders_for_user_scoped _)).
    intros folders Hf. apply returns_only_wret. own_rows.
  - apply returns_only_try_catch; [|apply except_sql_returns].
    apply (returns_only_after_call _ _ _ _ (get_all_folders_for_user_scoped _)).
    intros folders Hf. apply returns_only_wret. own_rows.
  - apply returns_only_try_catch; [|apply except_value_sql_returns].
    repeat (apply returns_only_wbind; intros ?). apply returns_only_wret. own_rows.
  - apply returns_only_try_catch; [|apply except_sql_returns].
    apply (returns_only_after_call _ _ _ _ (get_entry_by_id_scoped _ _)).
    intros [e|] He; [|apply returns_only_throw].
    apply returns_only_wret. own_rows.
  - apply returns_only_try_catch; [|apply except_sql_returns].
    apply (returns_only_after_call _ _ _ _ (get_entry_by_id_scoped _ _)).
    intros [e|] He; [|apply returns_only_throw].
    apply (returns_only_after_call _ _ _ _ (get_all_folders_for_user_scoped _)).
    intros folders Hf. apply returns_only_wret. own_rows.
  - apply returns_only_try_catch; [|apply except_value_sql_returns].
    repeat (apply returns_only_wbind; intros ?).
    destruct a1; [apply returns_only_wret; own_rows | apply returns_only_throw].
  - apply returns_only_try_catch; [|apply except_sql_returns].
    apply returns_only_wbind. intros deleted.
    destruct (negb deleted); [apply returns_only_throw | apply returns_only_wret; own_rows].
  - apply returns_only_try_catch; [|apply except_sql_returns].
    apply (returns_only_after_call _ _ _ _ (get_all_folders_for_user_scoped _)).
    intros folders Hf. apply returns_only_wret. own_rows.
  - apply returns_only_wret. own_rows.
  - apply returns_only_try_catch; [|apply except_value_sql_returns].
    repeat (apply returns_only_wbind; intros ?). apply returns_only_wret. own_rows.
  - apply returns_only_try_catch; [|apply except_sql_returns].
    apply (returns_only_after_call _ _ _ _ (get_folder_by_id_scoped _ _)).
    intros [f|] Hf; [|apply returns_only_throw].
    apply (returns_only_after_call _ _ _ _ (get_all_entries_for_user_scoped _ _)).
    intros entries He. apply returns_only_wret. own_rows.
  - apply returns_only_try_catch; [|apply except_sql_returns].
    apply returns_only_wbind. intros deleted.
    destruct (negb deleted); [apply returns_only_throw | apply returns_only_wret; own_rows].
Qed.

Lemma pages_show_only_own_rows_witness :
  shows_only_own
    (TemplateResponse "index.html"
       [("entries", VEntries [Sample.gmail; Sample.bank]);
        ("folders", VFolders [Sample.work]);
        ("title", VStr (Some "Password Manager"))]).
Proof.
  exact (pages_show_only_own_rows sample_UUID_of GET_index
           (open (mkDatabase [Sample.alice; Sample.bob]
                    [Sample.work; Folder.mk 11 2 "Home"]
                    [Sample.gmail; Sample.bank;
                     PasswordEntry.mk 103 2 None (Some "Router") None None None None]))).
Defined.

(** ** The two entry forms *)

Lemma or_none_not_blank (s : option string) : or_none s <> Some "".
Proof.
  unfold or_none, truthy. destruct s as [s|]; [|discriminate].
  destruct (String.eqb s "") eqn:E; simpl; [discriminate|].
  intros H. injection H as ->. discriminate.
Qed.

Lemma longer_than_or_none (n : nat) (s : option string) :
  longer_than n s = false -> longer_than n (or_none s) = false.
Proof. unfold or_none. destruct (truthy s); auto. Qed.

Lemma entry_form_ok_no_errors (name : string) (username website_url : option string) :
  entry_form_ok name username website_url = true ->
  entry_field_errors name (or_none username) (or_none website_url) = [].
Proof.
  unfold entry_form_ok, entry_field_errors. intros H.
  apply andb_prop in H as [H H4]. apply andb_prop in H as [H H3].
  apply andb_prop in H as [H1 H2].
  apply negb_true_iff in H1, H2, H3, H4.
  rewrite H1, H2, (longer_than_or_none _ _ H3), (longer_than_or_none _ _ H4).
  reflexivity.
Qed.

Lemma folder_uuid_of_run (UUID_of : string -> option UUID) (folder_id : option string)
    (s : Session) :
  folder_uuid_of UUID_of folder_id s =
  match folder_id with
  | Some text =>
    if malformed UUID_of folder_id
    then (Throw (Val (BadlyFormedUUID text)), s)
    else (Return (folder_ref_of UUID_of folder_id), s)
  | None => (Return None, s)
  end.
Proof.
  destruct folder_id as [text|]; [|reflexivity].
  unfold folder_uuid_of, malformed, folder_ref_of, truthy.
  destruct (String.eqb text ""); simpl; [reflexivity|].
  destruct (UUID_of text); reflexivity.
Qed.

Lemma nul_in_or_none (s : option string) :
  nul_in s = false -> nul_in (or_none s) = false.
Proof. unfold or_none. destruct (truthy s); auto. Qed.

(** Fields the forms accept, without a NUL character, make a row whose text
    can be stored. *)
Lemma form_text_ok (i u : UUID) (f : option UUID) (name : string)
    (username password website_url notes : option string) :
  entry_form_ok name username website_url = true ->
  no_nul [Some name; username; password; website_url; notes] = true ->
  text_ok (entry_columns
             (PasswordEntry.mk i u f (Some name) (or_none username) (or_none password)
                (or_none website_url) (or_none notes))) = true.
Proof.
  unfold entry_form_ok, no_nul. cbn [forallb]. intros H N.
  apply andb_prop in H as [H H4]. apply andb_prop in H as [H H3].
  apply andb_prop in H as [H1 H2].
  apply negb_true_iff in H2, H3, H4.
  apply andb_prop in N as [N1 N]. apply andb_prop in N as [N2 N].
  apply andb_prop in N as [N3 N]. apply andb_prop in N as [N4 N].
  apply andb_prop in N as [N5 _].
  apply negb_true_iff in N1, N2, N3, N4, N5.
  unfold text_ok, entry_columns, too_wide.
  cbn [forallb fst snd PasswordEntry.name PasswordEntry.username PasswordEntry.password
       PasswordEntry.website_url PasswordEntry.notes].
  rewrite N1, H2, (nul_in_or_none _ N2), (longer_than_or_none _ _ H3),
    (nul_in_or_none _ N3), (nul_in_or_none _ N4), (longer_than_or_none _ _ H4),
    (nul_in_or_none _ N5).
  reflexivity.
Qed.



Section RaisesSql.
Context {R : Type}.

#[local] Arguments flush_one : simpl never.


End RaisesSql.

Lemma malformed_text (UUID_of : string -> option UUID) (folder_id : option string) :
  malformed UUID_of folder_id = true -> exists text, folder_id = Some text.
Proof. destruct folder_id; [eauto | discriminate]. Qed.

(** The create form, once the schema accepts its fields, is the service
    call. *)
Lemma web_entries_create_submit_validated (UUID_of : string -> option UUID) (new_id : UUID)
    (name : string) (username password website_url notes folder_id : option string)
    (s : Session) :
  entry_field_errors name (or_none username) (or_none website_url) = [] ->
  malformed UUID_of folder_id = false ->
  web_entries_create_submit UUID_of new_id name username password website_url notes folder_id s =
  match create_entry new_id TEMP_USER_ID
          (PasswordEntryCreate.mk name (or_none username) (or_none password)
             (or_none website_url) (or_none notes) (folder_ref_of UUID_of folder_id)) s with
  | (Ok _, s') => (Return (RedirectResponse url_index HTTP_303_SEE_OTHER), s')
  | (Raise x, s') => (Throw (answered x), s')
  end.
Proof.
  intros Herr Hwell.
  unfold web_entries_create_submit, try_catch, wbind.
  rewrite folder_uuid_of_run, Hwell.
  assert (Href : (match folder_id with
                  | Some _ => (Return (folder_ref_of UUID_of folder_id), s)
                  | None => (Return None, s)
                  end) = (Return (folder_ref_of UUID_of folder_id), s))
    by (destruct folder_id; reflexivity).
  rewrite Href. unfold new_PasswordEntryCreate.
  rewrite Herr. unfold wret, call.
  destruct (create_entry _ _ _ s) as [[a|[e|v|c dt]] s']; reflexivity.
Qed.


(** The edit form, once its fields are accepted, is the service call with a
    payload in which every field is set. *)
Lemma web_entries_edit_submit_run (UUID_of : string -> option UUID) (entry_id : UUID)
    (name : string) (username password website_url notes folder_id : option string)
    (s : Session) :
  entry_form_ok name username website_url = true ->
  malformed UUID_of folder_id = false ->
  web_entries_edit_submit UUID_of entry_id name username password website_url notes folder_id s =
  match update_entry entry_id TEMP_USER_ID
          (PasswordEntryUpdate.mk (Set_ (Some name)) (Set_ (or_none username))
             (Set_ (or_none password)) (Set_ (or_none website_url)) (Set_ (or_none notes))
             (Set_ (folder_ref_of UUID_of folder_id))) s with
  | (Ok (Some _), s') =>
    (Return (RedirectResponse (url_entry entry_id) HTTP_303_SEE_OTHER), s')
  | (Ok None, s') =>
    (Throw (HTTPException HTTP_404_NOT_FOUND (Message "Entry not found")), s')
  | (Raise x, s') => (Throw (answered x), s')
  end.
Proof.
  intros Hok Hwell.
  unfold web_entries_edit_submit, try_catch, wbind.
  rewrite folder_uuid_of_run, Hwell.
  assert (Href : (match folder_id with
                  | Some _ => (Return (folder_ref_of UUID_of folder_id), s)
                  | None => (Return None, s)
                  end) = (Return (folder_ref_of UUID_of folder_id), s))
    by (destruct folder_id; reflexivity).
  rewrite Href. unfold new_PasswordEntryUpdate.
  rewrite (entry_form_ok_no_errors _ _ _ Hok). unfold wret, call.
  destruct (update_entry _ _ _ s) as [[[a|]|[e|v|c dt]] s']; reflexivity.
Qed.

(** A folder id field that is filled in but is no UUID stops both forms
    before anything else happens. *)
Lemma malformed_folder_id_stops (UUID_of : string -> option UUID) (new_id entry_id : UUID)
    (name : string) (username password website_url notes : option string) (text : string)
    (s : Session) :
  malformed UUID_of (Some text) = true ->
  web_entries_create_submit UUID_of new_id name username password website_url notes
    (Some text) s =
    (Throw (HTTPException HTTP_400_BAD_REQUEST (OfValueError (BadlyFormedUUID text))), s) /\
  web_entries_edit_submit UUID_of entry_id name username password website_url notes
    (Some text) s =
    (Throw (HTTPException HTTP_400_BAD_REQUEST (OfValueError (BadlyFormedUUID text))), s).
Proof.
  intros Hbad.
  unfold web_entries_create_submit, web_entries_edit_submit, try_catch, wbind.
  rewrite !folder_uuid_of_run, Hbad. split; reflexivity.
Qed.

(** A NUL character in a field of the create form is a bad request too: the
    driver's [ValueError] at the commit is answered with 400, and nothing is
    stored. *)
Lemma nul_in_a_form_field_is_a_bad_request :
  entry_form_ok Sample.text_with_nul None None = true /\
  malformed sample_UUID_of None = false /\
  fst (web_entries_create_submit sample_UUID_of 102 Sample.text_with_nul None None None None
         None (open Sample.db)) =
    Throw (HTTPException HTTP_400_BAD_REQUEST (OfValueError NulInText)) /\
  stored (snd (web_entries_create_submit sample_UUID_of 102 Sample.text_with_nul None None
                 None None None (open Sample.db))) = Sample.db.
Proof. vm_compute. repeat split. Qed.



Section Reach.
Context {R : Type}.

#[local] Arguments flush_one : simpl never.

(** What a method of each shape can have done to the stored database. *)
Lemma create_method_stored (o : Instance) (lookup : Database -> option R) (s : Session) :
  unit_of_work s = [] ->
  stored (snd (try_except (db_add o ;; db_commit ;; db_refresh lookup)
                 rollback_and_reraise s)) = stored s \/
  flush_one (New o) (stored s) =
    Ok (stored (snd (try_except (db_add o ;; db_commit ;; db_refresh lookup)
                       rollback_and_reraise s))).
Proof.
  destruct s as [d u fs lg]; simpl; intros ->.
  unfold try_except, rollback_and_reraise, db_add, register,
    db_commit, db_refresh, db_rollback, engine, emit, bind, ret, raise; simpl.
  destruct (next_fault fs) as [e|]; simpl; [left; reflexivity|].
  destruct (flush_one (New o) d) as [d'|y] eqn:F; simpl; [|left; destruct y; reflexivity].
  right.
  destruct (next_fault (tl fs)) as [e|]; simpl; [reflexivity|].
  destruct (lookup d'); reflexivity.
Qed.

Lemma update_method_stored {X} (table : Database -> list X) (p : X -> bool)
    (changed : X -> Instance) (lookup : X -> Database -> option R) (s : Session) :
  unit_of_work s = [] ->
  stored (snd (try_except
                 (x <- query_first table p ;;
                  match x with
                  | None => ret None
                  | Some x =>
                    db_modified (changed x) ;;
                    db_commit ;;
                    y <- db_refresh (lookup x) ;;
                    ret (Some y)
                  end)
                 rollback_and_reraise s)) = stored s \/
  exists x,
    find p (table (stored s)) = Some x /\
    flush_one (Dirty (changed x)) (stored s) =
      Ok (stored (snd (try_except
                         (x <- query_first table p ;;
                          match x with
                          | None => ret None
                          | Some x =>
                            db_modified (changed x) ;;
                            db_commit ;;
                            y <- db_refresh (lookup x) ;;
                            ret (Some y)
                          end)
                         rollback_and_reraise s))).
Proof.
  destruct s as [d u fs lg]; simpl; intros ->.
  unfold try_except, bind. rewrite query_first_run.
  destruct (next_fault fs) as [e|]; simpl; [left; reflexivity|].
  destruct (find p (table d)) as [x|]; simpl; [|left; reflexivity].
  unfold rollback_and_reraise, db_modified, register,
    db_commit, db_refresh, db_rollback, engine, emit, bind, ret, raise; simpl.
  destruct (next_fault (tl fs)) as [e|]; simpl; [left; reflexivity|].
  destruct (flush_one (Dirty (changed x)) d) as [d'|y] eqn:F; simpl;
    [|left; destruct y; reflexivity].
  right. exists x. split; [reflexivity|]. rewrite F.
  destruct (next_fault (tl (tl fs))) as [e|]; simpl; [reflexivity|].
  destruct (lookup x d'); reflexivity.
Qed.

Lemma delete_method_stored (table : Database -> list R) (p : R -> bool)
    (gone : R -> Instance) (s : Session) :
  unit_of_work s = [] ->
  stored (snd (try_except
                 (x <- query_first table p ;;
                  match x with
                  | None => ret false
                  | Some x => db_delete (gone x) ;; db_commit ;; ret true
                  end)
                 rollback_and_reraise s)) = stored s \/
  exists x,
    find p (table (stored s)) = Some x /\
    flush_one (Deleted (gone x)) (stored s) =
      Ok (stored (snd (try_except
                         (x <- query_first table p ;;
                          match x with
                          | None => ret false
                          | Some x => db_delete (gone x) ;; db_commit ;; ret true
                          end)
                         rollback_and_reraise s))).
Proof.
  destruct s as [d u fs lg]; simpl; intros ->.
  unfold try_except, bind. rewrite query_first_run.
  destruct (next_fault fs) as [e|]; simpl; [left; reflexivity|].
  destruct (find p (table d)) as [x|]; simpl; [|left; reflexivity].
  unfold rollback_and_reraise, db_delete, register,
    db_commit, db_rollback, engine, emit, bind, ret, raise; simpl.
  destruct (next_fault (tl fs)) as [e|]; simpl; [left; reflexivity|].
  destruct (flush_one (Deleted (gone x)) d) as [d'|y] eqn:F; simpl;
    [|left; destruct y; reflexivity].
  right. exists x. auto.
Qed.
End Reach.

Lemma insert_entry_ok (e : PasswordEntry.t) (d d' : Database) :
  insert_entry e d = Ok d' ->
  d' = mkDatabase (users d) (folders d) (password_entries d ++ [e]).
Proof.
  unfold insert_entry. destruct (check_text _); [discriminate|].
  destruct (PasswordEntry.name e); [|discriminate].
  destruct (has_entry _ d); [discriminate|].
  destruct (negb (has_user _ d)); [discriminate|].
  destruct (negb (folder_ref_ok _ d)); [discriminate|].
  intros H. injection H as <-. reflexivity.
Qed.

Lemma create_entry_stored (new_id U : UUID) (x : PasswordEntryCreate.t) (s : Session) :
  unit_of_work s = [] ->
  stored (snd (create_entry new_id U x s)) = stored s \/
  stored (snd (create_entry new_id U x s)) =
    mkDatabase (users (stored s)) (folders (stored s))
      (password_entries (stored s) ++
       [PasswordEntry.mk new_id U (PasswordEntryCreate.folder_id x)
          (Some (PasswordEntryCreate.name x)) (PasswordEntryCreate.username x)
          (PasswordEntryCreate.password x) (PasswordEntryCreate.website_url x)
          (PasswordEntryCreate.notes x)]).
Proof.
  intros Hclean.
  set (e := PasswordEntry.mk new_id U (PasswordEntryCreate.folder_id x)
              (Some (PasswordEntryCreate.name x)) (PasswordEntryCreate.username x)
              (PasswordEntryCreate.password x) (PasswordEntryCreate.website_url x)
              (PasswordEntryCreate.notes x)).
  assert (H : stored (snd (create_entry new_id U x s)) = stored s \/
              insert_entry e (stored s) = Ok (stored (snd (create_entry new_id U x s))))
    by exact (create_method_stored (IEntry e) (find_entry new_id) s Hclean).
  destruct H as [Same|F].
  - left. exact Same.
  - right. apply insert_entry_ok in F. exact F.
Qed.

(** Whatever is submitted to the create form and whatever the engine does,
    the stored database afterwards is the one before, or the one before with
    a single new entry: owned by the fixed user, named as submitted, filed
    under the folder the form names (none when that field is blank), and with
    NULL, never an empty string, in every optional field left blank. *)
Theorem web_create_stores_for_the_fixed_user
    (UUID_of : string -> option UUID) (new_id : UUID) (name : string)
    (username password website_url notes folder_id : option string) (s : Session) :
  unit_of_work s = [] ->
  let after :=
    stored (snd (web_entries_create_submit UUID_of new_id name username password
                   website_url notes folder_id s)) in
  let e :=
    PasswordEntry.mk new_id TEMP_USER_ID (folder_ref_of UUID_of folder_id) (Some name)
      (or_none username) (or_none password) (or_none website_url) (or_none notes) in
  (after = stored s \/
   after = mkDatabase (users (stored s)) (folders (stored s))
             (password_entries (stored s) ++ [e])) /\
  PasswordEntry.username e <> Some "" /\ PasswordEntry.password e <> Some "" /\
  PasswordEntry.website_url e <> Some "" /\ PasswordEntry.notes e <> Some "".
Proof.
  intros Hclean after e. split; [|simpl; auto using or_none_not_blank].
  subst after e.
  destruct (malformed UUID_of folder_id) eqn:Hm.
  { destruct (malformed_text _ _ Hm) as [text ->].
    destruct (malformed_folder_id_stops UUID_of new_id new_id name username password
                website_url notes text s Hm) as [Hc _].
    rewrite Hc. left. reflexivity. }
  destruct (entry_field_errors name (or_none username) (or_none website_url)) as [|bad errs] eqn:Herr.
  - rewrite (web_entries_create_submit_validated _ _ _ _ _ _ _ _ s Herr Hm).
    pose proof (create_entry_stored new_id TEMP_USER_ID
                  (PasswordEntryCreate.mk name (or_none username) (or_none password)
                     (or_none website_url) (or_none notes) (folder_ref_of UUID_of folder_id))
                  s Hclean) as Hs.
    destruct (create_entry _ _ _ s) as [[a|x] s']; exact Hs.
  - left. unfold web_entries_create_submit, try_catch, wbind.
    rewrite folder_uuid_of_run, Hm.
    assert (Href : (match folder_id with
                    | Some _ => (Return (folder_ref_of UUID_of folder_id), s)
                    | None => (Return None, s)
                    end) = (Return (folder_ref_of UUID_of folder_id), s))
      by (destruct folder_id; reflexivity).
    rewrite Href. unfold new_PasswordEntryCreate. rewrite Herr. reflexivity.
Qed.

Lemma web_create_stores_for_the_fixed_user_witness :
  stored (snd (web_entries_create_submit sample_UUID_of 102 "Mail" (Some "") (Some "pw")
                 None (Some "") (Some "10") (open Sample.db))) =
  mkDatabase [Sample.alice; Sample.bob] [Sample.work]
    [Sample.gmail; Sample.bank;
     PasswordEntry.mk 102 1 (Some 10) (Some "Mail") None (Some "pw") None None].
Proof.
  destruct (web_create_stores_for_the_fixed_user sample_UUID_of 102 "Mail" (Some "")
              (Some "pw") None (Some "") (Some "10") (open Sample.db) eq_refl)
    as [[Same|New] _].
  - vm_compute in Same. discriminate Same.
  - exact New.
Defined.

(** An accepted edit through the form (fields within the bounds the form
    declares and without a NUL character, a folder id that is blank or names
    an existing folder) overwrites every field of the entry: the payload the
    handler builds sets all six fields, so a field left blank in the form,
    the password and the folder included, is stored as NULL whatever it
    held before; the entry keeps its id and owner, every other row is
    untouched, and the answer is the redirect to the entry. *)
Theorem web_edit_overwrites_every_field
    (UUID_of : string -> option UUID) (d : Database) (entry_id : UUID) (name : string)
    (username password website_url notes folder_id : option string) (e : PasswordEntry.t) :
  pk_unique d = true ->
  fst (get_entry_by_id entry_id TEMP_USER_ID (open d)) = Ok (Some e) ->
  entry_form_ok name username website_url = true ->
  no_nul [Some name; username; password; website_url; notes] = true ->
  malformed UUID_of folder_id = false ->
  folder_ref_ok (folder_ref_of UUID_of folder_id) d = true ->
  let e' :=
    PasswordEntry.mk entry_id TEMP_USER_ID (folder_ref_of UUID_of folder_id) (Some name)
      (or_none username) (or_none password) (or_none website_url) (or_none notes) in
  web_entries_edit_submit UUID_of entry_id name username password website_url notes folder_id
    (open d) =
  (Return (RedirectResponse (url_entry entry_id) HTTP_303_SEE_OTHER),
   mkSession (with_entry e' d) [] [] [Returned Query; Returned Commit; Returned Refresh]).
Proof.
  intros Hpk Hget Hok Hnul Hwell Hfolder e'.
  rewrite (web_entries_edit_submit_run _ _ _ _ _ _ _ _ _ Hok Hwell).
  rewrite get_entry_by_id_open in Hget. simpl in Hget. injection Hget as Hget.
  destruct (scoped_find_some _ _ _ _ _ _ Hget) as [Hin [HE HU]].
  set (p := PasswordEntryUpdate.mk (Set_ (Some name)) (Set_ (or_none username))
              (Set_ (or_none password)) (Set_ (or_none website_url)) (Set_ (or_none notes))
              (Set_ (folder_ref_of UUID_of folder_id))).
  assert (He' : overlay p e = e') by (unfold overlay, e'; simpl; rewrite HE, HU; reflexivity).
  assert (Hname : PasswordEntry.name e' <> None) by discriminate.
  assert (Htext : text_ok (entry_columns e') = true) by (apply form_text_ok; assumption).
  destruct (update_entry_row_ok d e e' Hpk Hin (eq_sym HE) (eq_sym HU) Htext Hname Hfolder)
    as [Hflush Hlook].
  unfold update_entry, get_entry_by_id. rewrite update_method_open.
  rewrite Hget, fold_setattr_overlay, He'.
  unfold flush_one. rewrite Hflush, Hlook. reflexivity.
Qed.

Lemma web_edit_overwrites_every_field_witness :
  web_entries_edit_submit sample_UUID_of 100 "Gmail" (Some "alice@example.com") None None None
    (Some "") (open Sample.db) =
  (Return (RedirectResponse (url_entry 100) HTTP_303_SEE_OTHER),
   mkSession
     (mkDatabase [Sample.alice; Sample.bob] [Sample.work]
        [PasswordEntry.mk 100 1 None (Some "Gmail") (Some "alice@example.com") None None None;
         Sample.bank])
     [] [] [Returned Query; Returned Commit; Returned Refresh]).
Proof.
  apply (web_edit_overwrites_every_field sample_UUID_of Sample.db 100 "Gmail"
           (Some "alice@example.com") None None None (Some "") Sample.gmail).
  - reflexivity.
  - reflexivity.
  - reflexivity.
  - reflexivity.
  - reflexivity.
  - reflexivity.
Defined.

(** * What a mutation for one owner leaves alone *)

Lemma in_map_replace {R} (key : R -> UUID) (a x : R) (l : list R) :
  In x (map (fun y => if key y =? key a then a else y) l) -> x = a \/ In x l.
Proof.
  intros H. apply in_map_iff in H as [y [E Hy]].
  destruct (key y =? key a); subst; auto.
Qed.

Lemma in_folder_iff (fid : UUID) (e : PasswordEntry.t) :
  in_folder fid e = true <-> PasswordEntry.folder_id e = Some fid.
Proof. unfold in_folder. apply opt_eqb_N_eq. Qed.

Lemma frame_refl (U : UUID) (d : Database) : frame U d d.
Proof. unfold frame. repeat split; auto. Qed.

Section Untouched.
Context {R : Type} (key owner : R -> UUID).

(** Rewriting or removing the row of one owner does not concern the rows of
    the others. *)
Lemma in_replaced_other (l : list R) (old new x : R) :
  distinct (map key l) = true -> In old l ->
  key new = key old -> owner x <> owner new -> owner x <> owner old ->
  (In x (map (fun y => if key y =? key new then new else y) l) <-> In x l).
Proof.
  intros Hd Hold Hk Hn Ho. split.
  - intros H. apply (in_map_replace key) in H as [->|H]; [congruence | exact H].
  - intros H. apply in_map_iff. exists x. split; [|exact H].
    destruct (key x =? key new) eqn:E; [|reflexivity].
    apply N.eqb_eq in E. exfalso. apply Ho. f_equal.
    apply (distinct_inj key l); congruence.
Qed.

Lemma in_removed_other (l : list R) (old x : R) :
  distinct (map key l) = true -> In old l -> owner x <> owner old ->
  (In x (filter (fun y => negb (key y =? key old)) l) <-> In x l).
Proof.
  intros Hd Hold Ho. rewrite filter_In. split; [tauto|].
  intros H. split; [exact H|]. apply negb_true_iff, N.eqb_neq.
  intros E. apply Ho. f_equal. apply (distinct_inj key l); assumption.
Qed.
End Untouched.

Lemma in_app_other {R} (owner : R -> UUID) (l : list R) (new x : R) :
  owner x <> owner new -> (In x (l ++ [new]) <-> In x l).
Proof.
  intros Ho. rewrite in_app_iff. simpl. split; [|tauto].
  intros [H|[H|[]]]; [exact H | congruence].
Qed.

Lemma insert_folder_ok (f : Folder.t) (d d' : Database) :
  insert_folder f d = Ok d' ->
  d' = mkDatabase (users d) (folders d ++ [f]) (password_entries d).
Proof.
  unfold insert_folder. destruct (check_text _); [discriminate|].
  destruct (has_folder _ d); [discriminate|].
  destruct (negb (has_user _ d)); [discriminate|].
  intros H. injection H as <-. reflexivity.
Qed.

Lemma update_folder_row_ok (f : Folder.t) (d d' : Database) :
  update_folder_row f d = Ok d' -> d' = d \/ d' = with_folder f d.
Proof.
  unfold update_folder_row. destruct (find_folder _ d) as [old|]; [|discriminate].
  destruct (folder_eq_dec old f); [intros H; injection H as <-; auto|].
  destruct (check_text _); [discriminate|].
  destruct (_ && _); [discriminate|]. intros H; injection H as <-. auto.
Qed.

Lemma update_entry_row_result (e : PasswordEntry.t) (d d' : Database) :
  update_entry_row e d = Ok d' -> d' = d \/ d' = with_entry e d.
Proof.
  unfold update_entry_row. destruct (find_entry _ d) as [old|]; [|discriminate].
  destruct (entry_eq_dec old e); [intros H; injection H as <-; auto|].
  destruct (check_text _); [discriminate|].
  destruct (PasswordEntry.name e); [|discriminate].
  destruct (_ && _); [discriminate|].
  destruct (_ && _); [discriminate|]. intros H; injection H as <-. auto.
Qed.

Lemma overlay_identity (p : PasswordEntryUpdate.t) (e : PasswordEntry.t) :
  PasswordEntry.entry_id (overlay p e) = PasswordEntry.entry_id e /\
  PasswordEntry.user_id (overlay p e) = PasswordEntry.user_id e.
Proof. split; reflexivity. Qed.

Lemma create_folder_frame (new_id U : UUID) (x : FolderCreate.t) (s : Session) :
  unit_of_work s = [] ->
  frame U (stored s) (stored (snd (create_folder new_id U x s))).
Proof.
  intros Hclean.
  assert (H : stored (snd (create_folder new_id U x s)) = stored s \/
              insert_folder (Folder.mk new_id U (FolderCreate.name x)) (stored s) =
                Ok (stored (snd (create_folder new_id U x s))))
    by exact (create_method_stored (IFolder (Folder.mk new_id U (FolderCreate.name x)))
                (find_folder new_id) s Hclean).
  destruct H as [Same|F].
  - rewrite Same. apply frame_refl.
  - apply insert_folder_ok in F. rewrite F. unfold frame; simpl.
    split; [reflexivity|]. split; [|tauto].
    intros f Hf. apply (in_app_other Folder.user_id). exact Hf.
Qed.

Lemma create_entry_frame (new_id U : UUID) (x : PasswordEntryCreate.t) (s : Session) :
  unit_of_work s = [] ->
  frame U (stored s) (stored (snd (create_entry new_id U x s))).
Proof.
  intros Hclean.
  destruct (create_entry_stored new_id U x s Hclean) as [Same|New'].
  - rewrite Same. apply frame_refl.
  - rewrite New'. unfold frame; simpl.
    split; [reflexivity|]. split; [tauto|].
    intros e He _. apply (in_app_other PasswordEntry.user_id). exact He.
Qed.

Lemma update_folder_frame (F U : UUID) (x : FolderUpdate.t) (s : Session) :
  unit_of_work s = [] -> pk_unique (stored s) = true ->
  frame U (stored s) (stored (snd (update_folder F U x s))).
Proof.
  intros Hclean Hpk.
  assert (H : stored (snd (update_folder F U x s)) = stored s \/
              exists old,
                find (fun f => (Folder.folder_id f =? F) && (Folder.user_id f =? U))
                  (folders (stored s)) = Some old /\
                update_folder_row
                  (Folder.mk (Folder.folder_id old) (Folder.user_id old) (FolderUpdate.name x))
                  (stored s) = Ok (stored (snd (update_folder F U x s))))
    by exact (update_method_stored folders
                (fun f => (Folder.folder_id f =? F) && (Folder.user_id f =? U))
                (fun f => IFolder (Folder.mk (Folder.folder_id f) (Folder.user_id f)
                                     (FolderUpdate.name x)))
                (fun f => find_folder (Folder.folder_id f)) s Hclean).
  destruct H as [Same|[old [Hfind Hflush]]].
  - rewrite Same. apply frame_refl.
  - destruct (scoped_find_some _ _ _ _ _ _ Hfind) as [Hin [_ Hown]].
    apply update_folder_row_ok in Hflush as [->| ->]; [apply frame_refl|].
    unfold frame, with_folder; simpl.
    split; [reflexivity|]. split; [|tauto].
    intros f Hf.
    apply (in_replaced_other Folder.folder_id Folder.user_id (folders (stored s)) old
             (Folder.mk (Folder.folder_id old) (Folder.user_id old) (FolderUpdate.name x)) f);
      simpl; auto using pk_unique_folders; congruence.
Qed.

Lemma update_entry_frame (E U : UUID) (x : PasswordEntryUpdate.t) (s : Session) :
  unit_of_work s = [] -> pk_unique (stored s) = true ->
  frame U (stored s) (stored (snd (update_entry E U x s))).
Proof.
  intros Hclean Hpk.
  assert (H : stored (snd (update_entry E U x s)) = stored s \/
              exists old,
                find (fun e => (PasswordEntry.entry_id e =? E) && (PasswordEntry.user_id e =? U))
                  (password_entries (stored s)) = Some old /\
                update_entry_row
                  (fold_left setattr (PasswordEntryUpdate.model_dump_exclude_unset x) old)
                  (stored s) = Ok (stored (snd (update_entry E U x s))))
    by exact (update_method_stored password_entries
                (fun e => (PasswordEntry.entry_id e =? E) && (PasswordEntry.user_id e =? U))
                (fun e => IEntry (fold_left setattr
                                    (PasswordEntryUpdate.model_dump_exclude_unset x) e))
                (fun e => find_entry (PasswordEntry.entry_id
                                        (fold_left setattr
                                           (PasswordEntryUpdate.model_dump_exclude_unset x) e)))
                s Hclean).
  destruct H as [Same|[old [Hfind Hflush]]].
  - rewrite Same. apply frame_refl.
  - rewrite fold_setattr_overlay in Hflush.
    destruct (scoped_find_some _ _ _ _ _ _ Hfind) as [Hin [_ Hown]].
    apply update_entry_row_result in Hflush as [->| ->]; [apply frame_refl|].
    unfold frame, with_entry; simpl.
    split; [reflexivity|]. split; [tauto|].
    intros e He _.
    apply (in_replaced_other PasswordEntry.entry_id PasswordEntry.user_id
             (password_entries (stored s)) old (overlay x old) e);
      simpl; auto using pk_unique_entries; congruence.
Qed.

Lemma delete_entry_frame (E U : UUID) (s : Session) :
  unit_of_work s = [] -> pk_unique (stored s) = true ->
  frame U (stored s) (stored (snd (delete_entry E U s))).
Proof.
  intros Hclean Hpk.
  assert (H : stored (snd (delete_entry E U s)) = stored s \/
              exists old,
                find (fun e => (PasswordEntry.entry_id e =? E) && (PasswordEntry.user_id e =? U))
                  (password_entries (stored s)) = Some old /\
                delete_entry_row old (stored s) = Ok (stored (snd (delete_entry E U s))))
    by exact (delete_method_stored password_entries
                (fun e => (PasswordEntry.entry_id e =? E) && (PasswordEntry.user_id e =? U))
                IEntry s Hclean).
  destruct H as [Same|[old [Hfind Hflush]]].
  - rewrite Same. apply frame_refl.
  - destruct (scoped_find_some _ _ _ _ _ _ Hfind) as [Hin [_ Hown]].
    unfold delete_entry_row in Hflush.
    destruct (has_entry _ _); [|discriminate]. injection Hflush as <-.
    unfold frame; simpl.
    split; [reflexivity|]. split; [tauto|].
    intros e He _.
    apply (in_removed_other PasswordEntry.entry_id PasswordEntry.user_id);
      auto using pk_unique_entries; congruence.
Qed.

Lemma delete_folder_frame (F U : UUID) (s : Session) :
  unit_of_work s = [] -> pk_unique (stored s) = true ->
  frame U (stored s) (stored (snd (delete_folder F U s))).
Proof.
  intros Hclean Hpk.
  assert (H : stored (snd (delete_folder F U s)) = stored s \/
              exists old,
                find (fun f => (Folder.folder_id f =? F) && (Folder.user_id f =? U))
                  (folders (stored s)) = Some old /\
                delete_folder_row old (stored s) = Ok (stored (snd (delete_folder F U s))))
    by exact (delete_method_stored folders
                (fun f => (Folder.folder_id f =? F) && (Folder.user_id f =? U))
                IFolder s Hclean).
  destruct H as [Same|[old [Hfind Hflush]]].
  - rewrite Same. apply frame_refl.
  - destruct (scoped_find_some _ _ _ _ _ _ Hfind) as [Hin [_ Hown]].
    unfold delete_folder_row, delete_folder_row_with in Hflush.
    destruct (has_folder _ _); [|discriminate]. injection Hflush as <-.
    rewrite drop_folder_declared. unfold frame; simpl.
    split; [reflexivity|]. split.
    + intros f Hf.
      apply (in_removed_other Folder.folder_id Folder.user_id);
        auto using pk_unique_folders; congruence.
    + intros e He Hfiled. rewrite filter_In. split; [tauto|].
      intros H. split; [exact H|]. apply negb_true_iff.
      apply not_true_is_false. intros Hin_f.
      unfold filed_under in Hfiled.
      apply (existsb_false_all _ _ Hfiled old) in Hin.
      rewrite Hown, N.eqb_refl, Hin_f in Hin. discriminate.
Qed.

(** A folder or entry mutation made on behalf of one owner never changes
    the users, never adds, changes or removes a folder of another owner,
    and never adds, changes or removes an entry of another owner, unless
    that entry is filed in a folder of the acting owner; this holds for
    every payload and whatever the engine does. *)
Theorem scoped_mutations_leave_others_alone (U : UUID) (m : Mutation) (s : Session) :
  acts_for U m = true ->
  unit_of_work s = [] ->
  pk_unique (stored s) = true ->
  frame U (stored s) (stored (snd (perform m s))).
Proof.
  intros Hact Hclean Hpk.
  destruct m; simpl in Hact; try discriminate; apply N.eqb_eq in Hact; subst;
    unfold perform; rewrite map_reply.
  - pose proof (create_folder_frame new_id U folder_data s Hclean) as H.
    destruct (create_folder _ _ _ s) as [[a|e] s']; exact H.
  - pose proof (update_folder_frame folder_id U folder_data s Hclean Hpk) as H.
    destruct (update_folder _ _ _ s) as [[a|e] s']; exact H.
  - pose proof (delete_folder_frame folder_id U s Hclean Hpk) as H.
    destruct (delete_folder _ _ s) as [[a|e] s']; exact H.
  - pose proof (create_entry_frame new_id U entry_data s Hclean) as H.
    destruct (create_entry _ _ _ s) as [[a|e] s']; exact H.
  - pose proof (update_entry_frame entry_id U entry_data s Hclean Hpk) as H.
    destruct (update_entry _ _ _ s) as [[a|e] s']; exact H.
  - pose proof (delete_entry_frame entry_id U s Hclean Hpk) as H.
    destruct (delete_entry _ _ s) as [[a|e] s']; exact H.
Qed.

Lemma scoped_mutations_leave_others_alone_witness :
  frame 1 Sample.both (stored (snd (perform (DeleteFolder 10 1) (open Sample.both)))) /\
  In Sample.home (folders (stored (snd (perform (DeleteFolder 10 1) (open Sample.both))))) /\
  In Sample.router
    (password_entries (stored (snd (perform (DeleteFolder 10 1) (open Sample.both))))) /\
  frame 1 Sample.both
    (stored (snd (perform
                    (UpdateEntry 103 1
                       (PasswordEntryUpdate.mk (Set_ (Some "Mine")) Unset Unset Unset Unset
                          Unset))
                    (open Sample.both)))) /\
  In Sample.router
    (password_entries
       (stored (snd (perform
                       (UpdateEntry 103 1
                          (PasswordEntryUpdate.mk (Set_ (Some "Mine")) Unset Unset Unset Unset
                             Unset))
                       (open Sample.both))))).
Proof.
  pose proof (scoped_mutations_leave_others_alone 1 (DeleteFolder 10 1) (open Sample.both)
                eq_refl eq_refl eq_refl) as D.
  pose proof (scoped_mutations_leave_others_alone 1
                (UpdateEntry 103 1
                   (PasswordEntryUpdate.mk (Set_ (Some "Mine")) Unset Unset Unset Unset Unset))
                (open Sample.both) eq_refl eq_refl eq_refl) as E.
  split; [exact D|]. split; [|split; [|split; [exact E|]]].
  - destruct D as [_ [Hf _]]. apply (Hf Sample.home); [simpl; lia | simpl; auto].
  - destruct D as [_ [_ He]].
    apply (He Sample.router); [simpl; lia | reflexivity | simpl; auto].
  - destruct E as [_ [_ He]].
    apply (He Sample.router); [simpl; lia | reflexivity | simpl; auto].
Defined.

(** ** The routes leave the rows of other users alone *)

Lemma keeps_wret {A} (a : A) : keeps (wret a).
Proof. intros s. reflexivity. Qed.

Lemma keeps_throw {A} (x : Exception) : keeps (@throw A x).
Proof. intros s. reflexivity. Qed.

Lemma keeps_call {A} (m : M A) :
  (forall s, stored (snd (m s)) = stored s) -> keeps (call m).
Proof.
  intros H s. unfold call. specialize (H s).
  destruct (m s) as [[a|e] s']; exact H.
Qed.

Lemma keeps_wbind {A B} (m : W A) (k : A -> W B) :
  keeps m -> (forall a, keeps (k a)) -> keeps (wbind m k).
Proof.
  intros Hm Hk s. unfold wbind. specialize (Hm s).
  destruct (m s) as [[a|x] s']; simpl in *; [rewrite Hk; exact Hm | exact Hm].
Qed.

Lemma keeps_try_catch {A} (body : W A) (clauses : Exception -> option (W A)) :
  keeps body ->
  (forall x handler, clauses x = Some handler -> keeps handler) ->
  keeps (try_catch body clauses).
Proof.
  intros Hb Hc s. unfold try_catch. specialize (Hb s).
  destruct (body s) as [[a|x] s']; simpl in *; [exact Hb|].
  destruct (clauses x) as [h|] eqn:E; [rewrite (Hc x h E); exact Hb | exact Hb].
Qed.

Lemma except_sql_keeps {A} (x : Exception) (handler : W A) :
  except_sql x = Some handler -> keeps handler.
Proof.
  destruct x; simpl; intros E; try discriminate. injection E as <-. apply keeps_throw.
Qed.

Lemma except_value_sql_keeps {A} (x : Exception) (handler : W A) :
  except_value_sql x = Some handler -> keeps handler.
Proof.
  destruct x; simpl; intros E; try discriminate; injection E as <-; apply keeps_throw.
Qed.

(** The reads of the services change nothing, whatever the engine does. *)
Lemma query_first_keeps {R} (table : Database -> list R) (p : R -> bool) (s : Session) :
  stored (snd (query_first table p s)) = stored s.
Proof.
  destruct s as [d u fs lg]. rewrite query_first_run. destruct (next_fault fs); reflexivity.
Qed.

Lemma query_all_keeps {R} (table : Database -> list R) (p : R -> bool) (s : Session) :
  stored (snd (query_all table p s)) = stored s.
Proof.
  destruct s as [d u fs lg]. rewrite query_all_run. destruct (next_fault fs); reflexivity.
Qed.

Ltac handler_keeps :=
  repeat first
    [ apply keeps_wret
    | apply keeps_throw
    | apply keeps_call; intros; first [apply query_first_keeps | apply query_all_keeps]
    | apply keeps_wbind; [|intros ?]
    | match goal with
      | |- keeps (match ?x with Some _ => _ | None => _ end) => destruct x
      end ].

Lemma reaches_only_keeps {A} (U : UUID) (w : W A) : keeps w -> reaches_only U w.
Proof. intros H s _ _. rewrite H. apply frame_refl. Qed.

Lemma reaches_only_call {A} (U : UUID) (m : M A) :
  (forall s, unit_of_work s = [] -> pk_unique (stored s) = true ->
             frame U (stored s) (stored (snd (m s)))) ->
  reaches_only U (call m).
Proof.
  intros H s Hc Hpk. unfold call. specialize (H s Hc Hpk).
  destruct (m s) as [[a|e] s']; exact H.
Qed.

Lemma reaches_only_after_pure {A B} (U : UUID) (m : W A) (k : A -> W B) :
  pure m -> (forall a, reaches_only U (k a)) -> reaches_only U (wbind m k).
Proof.
  intros Hm Hk s Hc Hpk. unfold wbind. specialize (Hm s).
  destruct (m s) as [[a|x] s']; simpl in Hm; subst s'; [apply Hk; assumption|].
  apply frame_refl.
Qed.

Lemma reaches_only_then_keeps {A B} (U : UUID) (m : W A) (k : A -> W B) :
  reaches_only U m -> (forall a, keeps (k a)) -> reaches_only U (wbind m k).
Proof.
  intros Hm Hk s Hc Hpk. unfold wbind. specialize (Hm s Hc Hpk).
  destruct (m s) as [[a|x] s']; simpl in *; [rewrite Hk; exact Hm | exact Hm].
Qed.

Lemma reaches_only_try_catch {A} (U : UUID) (body : W A)
    (clauses : Exception -> option (W A)) :
  reaches_only U body ->
  (forall x handler, clauses x = Some handler -> keeps handler) ->
  reaches_only U (try_catch body clauses).
Proof.
  intros Hb Hc s Hclean Hpk. unfold try_catch. specialize (Hb s Hclean Hpk).
  destruct (body s) as [[a|x] s']; simpl in *; [exact Hb|].
  destruct (clauses x) as [h|] eqn:E; [rewrite (Hc x h E); exact Hb | exact Hb].
Qed.

Lemma folder_uuid_of_pure (UUID_of : string -> option UUID) (folder_id : option string) :
  pure (folder_uuid_of UUID_of folder_id).
Proof.
  intros s. rewrite folder_uuid_of_run. destruct folder_id; [|reflexivity].
  destruct (malformed _ _); reflexivity.
Qed.

Lemma new_PasswordEntryCreate_pure name username password website_url notes folder_id :
  pure (new_PasswordEntryCreate name username password website_url notes folder_id).
Proof.
  intros s. unfold new_PasswordEntryCreate. destruct (entry_field_errors _ _ _); reflexivity.
Qed.

Lemma new_PasswordEntryUpdate_pure name username password website_url notes folder_id :
  pure (new_PasswordEntryUpdate name username password website_url notes folder_id).
Proof.
  intros s. unfold new_PasswordEntryUpdate. destruct (entry_field_errors _ _ _); reflexivity.
Qed.

Lemma new_FolderCreate_pure name : pure (new_FolderCreate name).
Proof. intros s. unfold new_FolderCreate. destruct (complain _ _); reflexivity. Qed.

Lemma reaches_only_get_db {A} (U : UUID) (w : W A) :
  reaches_only U w -> reaches_only U (Depends_get_db w).
Proof.
  intros H s Hclean Hpk. unfold Depends_get_db.
  exact (H (get_db s) eq_refl Hpk).
Qed.

(** No request to the router changes the users, a folder of a user other
    than the fixed one, or an entry of another user that is not filed in a
    folder of the fixed user: whatever is submitted and whatever the engine
    does, those rows are the same before and after the request. *)
Theorem routes_leave_others_alone (UUID_of : string -> option UUID) (r : Request) :
  reaches_only TEMP_USER_ID (route UUID_of r).
Proof.
  unfold route. apply reaches_only_get_db. destruct r; unfold handler.
  - apply reaches_only_keeps, keeps_try_catch; [handler_keeps | apply except_sql_keeps].
  - apply reaches_only_keeps, keeps_try_catch; [handler_keeps | apply except_sql_keeps].
  - apply reaches_only_try_catch; [|apply except_value_sql_keeps].
    apply reaches_only_after_pure; [apply folder_uuid_of_pure|]. intros fid.
    apply reaches_only_after_pure; [apply new_PasswordEntryCreate_pure|]. intros x.
    apply reaches_only_then_keeps; [|intros; apply keeps_wret].
    apply reaches_only_call. intros s Hc _. apply create_entry_frame, Hc.
  - apply reaches_only_keeps, keeps_try_catch; [|apply except_sql_keeps].
    unfold entry_not_found. handler_keeps.
  - apply reaches_only_keeps, keeps_try_catch; [|apply except_sql_keeps].
    unfold entry_not_found. handler_keeps.
  - apply reaches_only_try_catch; [|apply except_value_sql_keeps].
    apply reaches_only_after_pure; [apply folder_uuid_of_pure|]. intros fid.
    apply reaches_only_after_pure; [apply new_PasswordEntryUpdate_pure|]. intros x.
    apply reaches_only_then_keeps.
    + apply reaches_only_call. intros s. apply update_entry_frame.
    + intros [e|]; [apply keeps_wret | apply keeps_throw].
  - apply reaches_only_try_catch; [|apply except_sql_keeps].
    apply reaches_only_then_keeps.
    + apply reaches_only_call. intros s. apply delete_entry_frame.
    + intros deleted. destruct (negb deleted); [apply keeps_throw | apply keeps_wret].
  - apply reaches_only_keeps, keeps_try_catch; [handler_keeps | apply except_sql_keeps].
  - apply reaches_only_keeps, keeps_wret.
  - apply reaches_only_try_catch; [|apply except_value_sql_keeps].
    apply reaches_only_after_pure; [apply new_FolderCreate_pure|]. intros x.
    apply reaches_only_then_keeps; [|intros; apply keeps_wret].
    apply reaches_only_call. intros s Hc _. apply create_folder_frame, Hc.
  - apply reaches_only_keeps, keeps_try_catch; [|apply except_sql_keeps].
    unfold folder_not_found. handler_keeps.
  - apply reaches_only_try_catch; [|apply except_sql_keeps].
    apply reaches_only_then_keeps.
    + apply reaches_only_call. intros s. apply delete_folder_frame.
    + intros deleted. destruct (negb deleted); [apply keeps_throw | apply keeps_wret].
Qed.

Lemma routes_leave_others_alone_witness :
  frame TEMP_USER_ID
    (mkDatabase [Sample.alice; Sample.bob] [Sample.work; Folder.mk 11 2 "Home"]
       [Sample.gmail; Sample.bank;
        PasswordEntry.mk 103 2 (Some 11) (Some "Router") None None None None])
    (stored (snd (route sample_UUID_of (POST_folder_delete 10)
                    (open (mkDatabase [Sample.alice; Sample.bob]
                             [Sample.work; Folder.mk 11 2 "Home"]
                             [Sample.gmail; Sample.bank;
                              PasswordEntry.mk 103 2 (Some 11) (Some "Router")
                                None None None None]))))).
Proof.
  apply (routes_leave_others_alone sample_UUID_of (POST_folder_delete 10)
           (open (mkDatabase [Sample.alice; Sample.bob] [Sample.work; Folder.mk 11 2 "Home"]
                    [Sample.gmail; Sample.bank;
                     PasswordEntry.mk 103 2 (Some 11) (Some "Router") None None None None]))).
  - reflexivity.
  - reflexivity.
Defined.
